(** * Resume Relevance Check System: extraction and scoring core

    A shallow embedding of [streamlit_app.py]: the text helpers the parsers
    rely on, Python's [re] as a backtracking matcher, the three data
    classes, [ResumeParser], [JobDescriptionParser], [RelevanceEvaluator]
    and the two pages that change the session, followed by the properties
    of the specification that hold of them.

    Conventions of the embedding.
    - A Python [str] is a [list ascii]; the 256 values of [ascii] are read
      as the code points 0..255 (Latin-1).  The character classes below
      ([isspace], [lower_char], [isword]) are Python's on that range.
    - A Python [float] is an exact rational of [Q]: the rounding error of
      binary64 arithmetic is not modelled.  [round(x, 2)] rounds to the
      nearest hundredth, ties to even.
    - A Python [set] of strings is a [gset]; the order in which [list(s)]
      enumerates it is a field of the class [PySet], constrained only to be
      a permutation of the elements.
    - [hashlib.md5] and [datetime.now()] are inputs of the parsers.
    - [DocumentProcessor] and the rendering calls of the pages are
      collaborators of the pages: they return or raise, and write
      notices. *)

From Stdlib Require Import Ascii String QArith Qround Lqa.
From stdpp Require Import gmap strings list pretty.

Set Default Proof Using "Type".

Abbreviation str := (list ascii).

(** A string literal of the source. *)
Definition lit (x : string) : str := list_ascii_of_string x.

(** ** Characters *)

Definition ord (c : ascii) : nat := nat_of_ascii c.

Definition between (lo hi n : nat) : bool := (lo <=? n) && (n <=? hi).

(** [str.isspace] and the class [\s] on one character. *)
Definition isspace (c : ascii) : bool :=
  let n := ord c in
  between 9 13 n || between 28 32 n || (n =? 133) || (n =? 160).

(** [str.lower] on one character. *)
Definition lower_char (c : ascii) : ascii :=
  let n := ord c in
  if between 65 90 n || (between 192 222 n && negb (n =? 215))
  then ascii_of_nat (n + 32) else c.

(** [str.upper] on one character; the source applies it to ASCII
    constants only. *)
Definition upper_char (c : ascii) : ascii :=
  let n := ord c in
  if between 97 122 n then ascii_of_nat (n - 32) else c.

(** The class [\w]: alphanumeric or underscore. *)
Definition isword (c : ascii) : bool :=
  let n := ord c in
  between 48 57 n || between 65 90 n || (n =? 95) || between 97 122 n
  || (n =? 170) || (n =? 178) || (n =? 179) || (n =? 181) || (n =? 185)
  || (n =? 186) || between 188 190 n || between 192 214 n
  || between 216 246 n || between 248 255 n.

Definition isdigit (c : ascii) : bool := between 48 57 (ord c).

Definition is_newline (c : ascii) : bool := ord c =? 10.

Definition newline : ascii := ascii_of_nat 10.

(** ** Strings *)

Definition lower (s : str) : str := map lower_char s.
Definition upper (s : str) : str := map upper_char s.

Fixpoint take_while (p : ascii -> bool) (s : str) : str :=
  match s with
  | [] => []
  | c :: s' => if p c then c :: take_while p s' else []
  end.

Fixpoint drop_while (p : ascii -> bool) (s : str) : str :=
  match s with
  | [] => []
  | c :: s' => if p c then drop_while p s' else s
  end.

Definition lstrip (s : str) : str := drop_while isspace s.
Definition rstrip (s : str) : str := rev (drop_while isspace (rev s)).

(** [s.strip()] *)
Definition strip (s : str) : str := rstrip (lstrip s).

(** [s.split(sep)] for a one-character separator: empty fields are kept and
    the result is never empty. *)
Fixpoint split_go (p : ascii -> bool) (acc s : str) : list str :=
  match s with
  | [] => [rev acc]
  | c :: s' => if p c then rev acc :: split_go p [] s'
               else split_go p (c :: acc) s'
  end.

Definition split_char (p : ascii -> bool) (s : str) : list str :=
  split_go p [] s.

(** [s.split()]: fields separated by runs of whitespace, no empty field. *)
Fixpoint split_ws_go (acc s : str) : list str :=
  match s with
  | [] => match acc with [] => [] | _ => [rev acc] end
  | c :: s' =>
      if isspace c
      then match acc with
           | [] => split_ws_go [] s'
           | _ => rev acc :: split_ws_go [] s'
           end
      else split_ws_go (c :: acc) s'
  end.

Definition split_ws (s : str) : list str := split_ws_go [] s.

Fixpoint starts_with (p s : str) : bool :=
  match p, s with
  | [], _ => true
  | _ :: _, [] => false
  | a :: p', b :: s' => bool_decide (a = b) && starts_with p' s'
  end.

(** [needle in hay] *)
Fixpoint contains (needle hay : str) : bool :=
  starts_with needle hay ||
  match hay with
  | [] => false
  | _ :: hay' => contains needle hay'
  end.

(** [sep.join(xs)] *)
Fixpoint join (sep : str) (xs : list str) : str :=
  match xs with
  | [] => []
  | [x] => x
  | x :: xs' => x ++ sep ++ join sep xs'
  end.

(** ** Python's [re]: a backtracking matcher *)

Module Re.

(** The constructs the program's patterns use.  [Chr p] is one character
    of a class, which covers literals (under [IGNORECASE]: the class of
    the characters whose lowercasing is the literal), [\s], [\d] and
    bracket classes.  [Star true r] is [r*], [Star false r] is [r*?].
    Every pattern of the program has at most one capture group. *)
Inductive regex : Type :=
| Eps
| Chr (p : ascii -> bool)
| Seq (r1 r2 : regex)
| Alt (r1 r2 : regex)
| Star (greedy : bool) (r : regex)
| Group (r : regex)
| WordB
| EndZ.

(** A position of the matcher in the subject: the text before it (last
    character first), the text after it, and the capture so far. *)
Record mstate : Type := MState {
  before : str;
  after : str;
  captured : option str
}.

(** The text consumed between position [a] and a later position [b]. *)
Definition consumed (a b : mstate) : str :=
  rev (take (length (before b) - length (before a)) (before b)).

Definition word_at (s : str) : bool :=
  match s with
  | [] => false
  | c :: _ => isword c
  end.

(** [\b] *)
Definition at_boundary (st : mstate) : bool :=
  xorb (word_at (before st)) (word_at (after st)).

Definition first_of {A} (x y : option A) : option A :=
  match x with
  | Some _ => x
  | None => y
  end.

(** [run_star g body k n st]: the loop of a starred pattern whose body
    is matched by [body], with continuation [k].  [n] bounds the text left;
    an iteration has to consume a character, so [n] never runs out
    before the text does. *)
Fixpoint run_star (greedy : bool)
    (body : (mstate -> option mstate) -> mstate -> option mstate)
    (k : mstate -> option mstate) (n : nat) (st : mstate)
    : option mstate :=
  match n with
  | 0 => k st
  | S n' =>
      let again :=
        body (fun st' =>
                if length (after st') <? length (after st)
                then run_star greedy body k n' st' else None) st in
      if greedy then first_of again (k st) else first_of (k st) again
  end.

(** The matcher, in continuation-passing style: [exec r k st] matches
    [r] at [st] and hands the position reached to [k]; when [k] fails
    the next alternative is tried, in Python's order. *)
Fixpoint exec (r : regex) (k : mstate -> option mstate) (st : mstate)
    : option mstate :=
  match r with
  | Eps => k st
  | Chr p =>
      match after st with
      | c :: s' =>
          if p c then k (MState (c :: before st) s' (captured st))
          else None
      | [] => None
      end
  | Seq r1 r2 => exec r1 (exec r2 k) st
  | Alt r1 r2 => first_of (exec r1 k st) (exec r2 k st)
  | Star g r1 => run_star g (exec r1) k (length (after st)) st
  | Group r1 =>
      exec r1 (fun st' =>
                 k (MState (before st') (after st')
                           (Some (consumed st st')))) st
  | WordB => if at_boundary st then k st else None
  | EndZ => match after st with [] => k st | _ => None end
  end.

(** [run r a b]: the pattern [r] matches the text between the positions
    [a] and [b].  This is what a match is, without the order in which
    [exec] tries the alternatives. *)
Inductive run : regex -> mstate -> mstate -> Prop :=
| run_eps st : run Eps st st
| run_chr p c pre s cap :
    p c = true ->
    run (Chr p) (MState pre (c :: s) cap) (MState (c :: pre) s cap)
| run_seq r1 r2 a b c : run r1 a b -> run r2 b c -> run (Seq r1 r2) a c
| run_alt_l r1 r2 a b : run r1 a b -> run (Alt r1 r2) a b
| run_alt_r r1 r2 a b : run r2 a b -> run (Alt r1 r2) a b
| run_star_stop g r st : run (Star g r) st st
| run_star_step g r a b c :
    run r a b -> run (Star g r) b c -> run (Star g r) a c
| run_group r a b :
    run r a b ->
    run (Group r) a (MState (before b) (after b) (Some (consumed a b)))
| run_wordb st : at_boundary st = true -> run WordB st st
| run_endz st : after st = [] -> run EndZ st st.

(** The stretch [s] of the subject lies between the positions [a] and
    [b]. *)
Definition spans (a b : mstate) (s : str) : Prop :=
  after a = s ++ after b /\ before b = rev s ++ before a.




(** A match object: the text before the match, [group(0)], [group(1)]
    and the text after the match. *)
Record match_obj : Type := Match {
  prefix_of : str;
  group0 : str;
  group1 : option str;
  suffix_of : str
}.

Definition match_at (r : regex) (pre rest : str) : option match_obj :=
  let st := MState pre rest None in
  match exec r Some st with
  | Some st' =>
      Some (Match (rev pre) (consumed st st') (captured st') (after st'))
  | None => None
  end.

Fixpoint search_from (r : regex) (pre rest : str) : option match_obj :=
  match match_at r pre rest with
  | Some m => Some m
  | None =>
      match rest with
      | [] => None
      | c :: rest' => search_from r (c :: pre) rest'
      end
  end.

(** [re.search(r, text)]: the match at the leftmost position that has
    one. *)
Definition search (r : regex) (text : str) : option match_obj :=
  search_from r [] text.

(** The subject cut into unmatched characters and successive
    non-overlapping matches, left to right.  [skip] counts the characters
    still covered by the last match.  The patterns this is used with
    never match the empty string. *)
Fixpoint tokens (r : regex) (skip : nat) (pre rest : str)
    : list (ascii + match_obj) :=
  match skip with
  | S skip' =>
      match rest with
      | [] => []
      | c :: rest' => tokens r skip' (c :: pre) rest'
      end
  | 0 =>
      match match_at r pre rest with
      | Some m =>
          inr m ::
          match rest with
          | [] => []
          | c :: rest' =>
              match length (group0 m) with
              | 0 => inl c :: tokens r 0 (c :: pre) rest'
              | S n => tokens r n (c :: pre) rest'
              end
          end
      | None =>
          match rest with
          | [] => []
          | c :: rest' => inl c :: tokens r 0 (c :: pre) rest'
          end
      end
  end.

(** [re.findall(r, text)] for a pattern without groups. *)
Definition findall (r : regex) (text : str) : list str :=
  omap (fun t => match t with inl _ => None | inr m => Some (group0 m) end)
       (tokens r 0 [] text).

Definition replace_tokens (repl : str) (ts : list (ascii + match_obj))
    : str :=
  concat (map (fun t => match t with inl c => [c] | inr _ => repl end) ts).

(** [re.sub(r, repl, text)] for a literal replacement. *)
Definition sub (r : regex) (repl text : str) : str :=
  replace_tokens repl (tokens r 0 [] text).

Fixpoint split_tokens (acc : str) (ts : list (ascii + match_obj))
    : list str :=
  match ts with
  | [] => [rev acc]
  | inl c :: ts' => split_tokens (c :: acc) ts'
  | inr _ :: ts' => rev acc :: split_tokens [] ts'
  end.

(** [re.split(r, text)] for a pattern without groups. *)
Definition split (r : regex) (text : str) : list str :=
  split_tokens [] (tokens r 0 [] text).

(** *** Pattern syntax *)

(** A literal character under [re.IGNORECASE]. *)
Definition ichar (c : ascii) : regex :=
  Chr (fun x => bool_decide (lower_char x = c)).

(** A literal character, case-sensitive. *)
Definition char (c : ascii) : regex :=
  Chr (fun x => bool_decide (x = c)).

(** A literal word under [re.IGNORECASE], followed by [r]. *)
Fixpoint iword (w : str) (r : regex) : regex :=
  match w with
  | [] => r
  | c :: w' => Seq (ichar c) (iword w' r)
  end.

Definition Plus (greedy : bool) (r : regex) : regex :=
  Seq r (Star greedy r).
Definition Opt (r : regex) : regex := Alt r Eps.

Definition ws : regex := Chr isspace.
Definition wss : regex := Star true ws.
Definition nl : regex := Chr is_newline.
Definition notnl : regex := Chr (fun c => negb (is_newline c)).
Definition digit : regex := Chr isdigit.

(** [one_of "abc"] is the class [[abc]]. *)
Definition one_of (cs : str) : regex :=
  Chr (fun x => bool_decide (x ∈ cs)).

End Re.

(** ** Numbers *)

(** [len(x)] as a float operand. *)
Definition Qnat (n : nat) : Q := inject_Z (Z.of_nat n).

(** [min(100, score)] *)
Definition min100 (score : Q) : Q :=
  if Qle_bool 100 score then 100%Q else score.

(** Nearest integer, ties to even. *)
Definition round_half_even (q : Q) : Z :=
  let f := Qfloor q in
  match (q - inject_Z f ?= 1 # 2)%Q with
  | Lt => f
  | Gt => (f + 1)%Z
  | Eq => if Z.even f then f else (f + 1)%Z
  end.

(** [round(x, 2)] *)
Definition round2 (x : Q) : Q :=
  (inject_Z (round_half_even (x * 100)) / 100)%Q.

(** [f"{x:.1f}"] for a non-negative [x]. *)
Definition format_1f (x : Q) : str :=
  let t := round_half_even (x * 10) in
  lit (pretty (Z.to_N (t / 10)%Z)) ++ lit "." ++
  lit (pretty (Z.to_N (t mod 10)%Z)).

(** ** Sets *)

(** The order in which Python lists the elements of a set is not
    specified: it is some permutation of them. *)
Class PySet : Type := {
  list_of_set : gset str -> list str;
  list_of_set_perm : forall X : gset str, list_of_set X ≡ₚ elements X
}.

(** One possible order. *)
#[export] Instance elements_order : PySet :=
  {| list_of_set := elements; list_of_set_perm := fun X => reflexivity _ |}.

(** [set(xs)] *)
Definition set_of (xs : list str) : gset str := list_to_set xs.

(** ** Data classes *)

(** A dictionary literal with string keys and values, in source order. *)
Abbreviation Dict := (list (str * str)).

Module JobDescription.
Record t : Type := Build {
  id : str;
  title : str;
  company : str;
  must_have_skills : list str;
  good_to_have_skills : list str;
  experience_required : str;
  description : str;
  location : str
}.
End JobDescription.

Module Resume.
Record t : Type := Build {
  id : str;
  name : str;
  email : str;
  skills : list str;
  experience : list Dict;
  education : list Dict;
  projects : list Dict;
  raw_text : str
}.
End Resume.

Module EvaluationResult.
Record t : Type := Build {
  resume_id : str;
  job_id : str;
  relevance_score : Q;
  matched_skills : list str;
  missing_skills : list str;
  verdict : str;
  feedback : str;
  suggestions : list str
}.
End EvaluationResult.

(** ** Patterns shared by the parsers *)

Module Patterns.
Import Re.

(** The section pattern "h\s*:?\s*(BODY)(?:\n\s*\n|\Z)" where h is the
    heading and BODY is "[^\n]+" followed by the lazy star of
    "\n[^\n]*"; [heading r] is the heading followed by [r]. *)
Definition section_body : regex :=
  Seq (Plus true notnl) (Star false (Seq nl (Star true notnl))).

Definition section_end : regex := Alt (Seq nl (Seq wss nl)) EndZ.

Definition section_tail : regex :=
  Seq wss (Seq (Opt (ichar ":")) (Seq wss
    (Seq (Group section_body) section_end))).

Definition section (heading : regex -> regex) : regex :=
  heading section_tail.

(** The one-line pattern "h\s*:?\s*([^\n]+)". *)
Definition line_tail : regex :=
  Seq wss (Seq (Opt (ichar ":")) (Seq wss (Group (Plus true notnl)))).

Definition line (heading : regex -> regex) : regex := heading line_tail.

(** The class "[,;\|\n•\-]"; the bullet U+2022 lies outside the code
    points of [ascii], so it does not occur in a subject. *)
Definition separators : regex :=
  Chr (fun c => bool_decide (c ∈ lit ",;|-") || is_newline c).

(** [group(1)] of a match of a pattern whose group takes part in every
    match. *)
Definition group (m : match_obj) : str := default [] (group1 m).

(** The loop [for pattern in patterns: match = re.search(...); if match:
    ...] up to its first hit. *)
Fixpoint first_match (patterns : list regex) (text : str)
    : option match_obj :=
  match patterns with
  | [] => None
  | p :: rest =>
      match search p text with
      | Some m => Some m
      | None => first_match rest text
      end
  end.

(** [[s.strip().lower() for s in extracted if s.strip() and
    len(s.strip()) > 2]] *)
Definition kept_tokens (extracted : list str) : list str :=
  map (fun s => lower (strip s))
      (List.filter
         (fun s => negb (bool_decide (strip s = [])) &&
                   (2 <? length (strip s)))
         extracted).

Fixpoint rep (n : nat) (r rest : regex) : regex :=
  match n with
  | 0 => rest
  | S n' => Seq r (rep n' r rest)
  end.
End Patterns.

(** ** ResumeParser *)

Module ResumeParser.
Import Re Patterns.

Definition is_alnum_ascii (c : ascii) : bool :=
  let n := ord c in
  between 65 90 n || between 97 122 n || between 48 57 n.

(** "\b[A-Za-z0-9._%+-]+@[A-Za-z0-9.-]+\.[A-Z|a-z]{2,}\b" *)
Definition email_pattern : regex :=
  let local_part :=
    Chr (fun c => is_alnum_ascii c || bool_decide (c ∈ lit "._%+-")) in
  let domain := Chr (fun c => is_alnum_ascii c || bool_decide (c ∈ lit ".-")) in
  let tld :=
    Chr (fun c => between 65 90 (ord c) || between 97 122 (ord c)
                  || bool_decide (c ∈ lit "|")) in
  Seq WordB (Seq (Plus true local_part) (Seq (char "@")
    (Seq (Plus true domain) (Seq (char ".")
      (rep 2 tld (Seq (Star true tld) WordB)))))).

(** "[\+\(]?[1-9][0-9 .\-\(\)]{8,}[0-9]" *)
Definition phone_pattern : regex :=
  let body := Chr (fun c => isdigit c || bool_decide (c ∈ lit " .-()")) in
  Seq (Opt (one_of (lit "+(")))
    (Seq (Chr (fun c => between 49 57 (ord c)))
      (rep 8 body (Seq (Star true body) digit))).

Definition _clean_text (text : str) : str :=
  strip (sub (Plus true ws) (lit " ") text).

Definition _extract_name (text : str) : str :=
  let lines := split_char is_newline text in
  match lines with
  | first :: _ =>
      let first_line := strip first in
      if (length (split_ws first_line) <=? 4) && (2 <? length first_line)
      then first_line
      else lit "Unknown Candidate"
  | [] => lit "Unknown Candidate"
  end.

Definition _extract_email (text : str) : str :=
  match findall email_pattern text with
  | m :: _ => m
  | [] => lit "No email found"
  end.

Definition tech_skills : list str :=
  map lit
    ["python"; "java"; "javascript"; "react"; "angular"; "vue"; "node.js";
     "django"; "flask"; "spring"; "docker"; "kubernetes"; "aws"; "azure";
     "gcp"; "git"; "jenkins"; "machine learning"; "deep learning"; "nlp";
     "data science"; "sql"; "mongodb"; "postgresql"; "mysql"; "html"; "css";
     "tensorflow"; "pytorch"; "pandas"; "numpy"; "scikit-learn"; "c++";
     "devops"; "agile"; "scrum"; "analytics"; "tableau"; "powerbi"]%string.

(** The section pattern with heading "skills?". *)
Definition skills_re : regex :=
  section (fun r => iword (lit "skill") (Seq (Opt (ichar "s")) r)).

(** The loop over the tokens of the skills section. *)
Definition add_section_skills (skills : list str) (extracted : list str)
    : list str :=
  fold_left
    (fun skills skill =>
       let clean_skill := lower (strip skill) in
       if (2 <? length clean_skill) && negb (bool_decide (clean_skill ∈ skills))
       then skills ++ [clean_skill]
       else skills)
    extracted skills.

Definition _extract_skills `{PySet} (text : str) : list str :=
  let text_lower := lower text in
  let skills :=
    List.filter (fun skill => contains skill text_lower) tech_skills in
  let skills :=
    match search skills_re text with
    | Some skills_match =>
        let skills_text := group skills_match in
        add_section_skills skills (split separators skills_text)
    | None => skills
    end in
  list_of_set (set_of skills).

(** The section pattern with heading "experience". *)
Definition experience_re : regex :=
  section (iword (lit "experience")).

Definition _extract_experience (text : str) : list Dict :=
  match search experience_re text with
  | Some exp_match =>
      let exp_text := group exp_match in
      [[(lit "description", take 300 exp_text)]]
  | None => []
  end.

Definition degrees : list str :=
  map lit ["bachelor"; "master"; "phd"; "b.tech"; "m.tech"; "mba"; "b.e";
           "m.e"; "bsc"; "msc"]%string.

Definition _extract_education (text : str) : list Dict :=
  let text_lower := lower text in
  map (fun degree => [(lit "degree", upper degree)])
      (List.filter (fun degree => contains degree text_lower) degrees).

(** The section pattern with heading "projects?". *)
Definition projects_re : regex :=
  section (fun r => iword (lit "project") (Seq (Opt (ichar "s")) r)).

Definition _extract_projects (text : str) : list Dict :=
  match search projects_re text with
  | Some project_match =>
      let project_text := group project_match in
      [[(lit "description", take 300 project_text)]]
  | None => []
  end.

(** [md5 s] is [hashlib.md5(s.encode()).hexdigest()] and [now] is
    [str(datetime.now())] at the time of the call. *)
Definition parse `{PySet} (md5 : str -> str) (now : str) (text : str)
    : Resume.t :=
  let text := _clean_text text in
  let resume_id := take 12 (md5 (take 100 text ++ lit "_" ++ now)) in
  {| Resume.id := resume_id;
     Resume.name := _extract_name text;
     Resume.email := _extract_email text;
     Resume.skills := _extract_skills text;
     Resume.experience := _extract_experience text;
     Resume.education := _extract_education text;
     Resume.projects := _extract_projects text;
     Resume.raw_text := text |}.
End ResumeParser.

(** ** JobDescriptionParser *)

Module JobDescriptionParser.
Import Re Patterns.

Definition _clean_text (text : str) : str :=
  strip (sub (Plus true ws) (lit " ") text).

(** "job\s*title\s*:?\s*([^\n]+)", "position\s*:?\s*([^\n]+)" and
    "role\s*:?\s*([^\n]+)" *)
Definition job_title_re : regex :=
  line (fun r => iword (lit "job") (Seq wss (iword (lit "title") r))).
Definition position_re : regex := line (iword (lit "position")).
Definition role_re : regex := line (iword (lit "role")).

Definition title_patterns : list regex :=
  [job_title_re; position_re; role_re].

Definition _extract_title (text : str) : str :=
  match first_match title_patterns text with
  | Some m => strip (group m)
  | None =>
      (* Fallback to first line *)
      let lines := split_char is_newline text in
      match lines with
      | line0 :: _ =>
          if length line0 <=? 80 then strip line0
          else lit "Software Developer"
      | [] => lit "Software Developer"
      end
  end.

(** The section patterns with headings "required\s*skills?",
    "must\s*have" and "mandatory". *)
Definition must_have_patterns : list regex :=
  [ section (fun r => iword (lit "required")
               (Seq wss (iword (lit "skill") (Seq (Opt (ichar "s")) r))));
    section (fun r => iword (lit "must") (Seq wss (iword (lit "have") r)));
    section (iword (lit "mandatory")) ].

Definition fallback_skills : list str :=
  map lit ["python"; "java"; "javascript"; "react"; "sql"; "aws";
           "docker"]%string.

Definition _extract_must_have_skills `{PySet} (text : str) : list str :=
  let skills :=
    match first_match must_have_patterns text with
    | Some m =>
        let skills_text := group m in
        let extracted := split separators skills_text in
        kept_tokens extracted
    | None => []
    end in
  (* If no specific section found, extract common tech skills *)
  let skills :=
    match skills with
    | [] =>
        let text_lower := lower text in
        List.filter (fun skill => contains skill text_lower) fallback_skills
    | _ => skills
    end in
  take 15 (list_of_set (set_of skills)).

(** The section patterns with headings "good\s*to\s*have", "preferred"
    and "nice\s*to\s*have". *)
Definition good_to_have_patterns : list regex :=
  [ section (fun r => iword (lit "good")
               (Seq wss (iword (lit "to") (Seq wss (iword (lit "have") r)))));
    section (iword (lit "preferred"));
    section (fun r => iword (lit "nice")
               (Seq wss (iword (lit "to") (Seq wss (iword (lit "have") r))))) ].

Definition _extract_good_to_have_skills `{PySet} (text : str) : list str :=
  let skills :=
    match first_match good_to_have_patterns text with
    | Some m =>
        let skills_text := group m in
        let extracted := split separators skills_text in
        kept_tokens extracted
    | None => []
    end in
  take 10 (list_of_set (set_of skills)).

(** The group around "\d+[\+\-]?\d*". *)
Definition years_number : regex :=
  Group (Seq (Plus true digit)
           (Seq (Opt (one_of (lit "+-"))) (Star true digit))).

(** With N for that group and OF for the optional "of\s*":
    "N\s*years?\s*OFexperience" and "experience\s*:?\s*N\s*years?". *)
Definition exp_patterns : list regex :=
  [ Seq years_number (Seq wss (iword (lit "year") (Seq (Opt (ichar "s"))
      (Seq wss (Seq (Opt (iword (lit "of") wss))
         (iword (lit "experience") Eps))))));
    iword (lit "experience") (Seq wss (Seq (Opt (ichar ":")) (Seq wss
      (Seq years_number (Seq wss (iword (lit "year")
         (Opt (ichar "s")))))))) ].

Definition _extract_experience_requirement (text : str) : str :=
  match first_match exp_patterns text with
  | Some m => group m ++ lit " years"
  | None => lit "Not specified"
  end.

Definition parse `{PySet} (md5 : str -> str) (now : str)
    (text company location : str) : JobDescription.t :=
  let text := _clean_text text in
  let jd_id :=
    take 12 (md5 (company ++ lit "_" ++ take 100 text ++ lit "_" ++ now)) in
  {| JobDescription.id := jd_id;
     JobDescription.title := _extract_title text;
     JobDescription.company := company;
     JobDescription.must_have_skills := _extract_must_have_skills text;
     JobDescription.good_to_have_skills := _extract_good_to_have_skills text;
     JobDescription.experience_required :=
       _extract_experience_requirement text;
     JobDescription.description := text;
     JobDescription.location := location |}.
End JobDescriptionParser.

(** ** RelevanceEvaluator *)

Module RelevanceEvaluator.

(** [if xs:] for a list. *)
Definition nonempty {A} (xs : list A) : bool :=
  match xs with [] => false | _ => true end.

(** [if s:] for a set. *)
Definition nonempty_set (s : gset str) : bool := negb (bool_decide (s = ∅)).

Definition _generate_feedback (score : Q)
    (matched_skills missing_skills : list str) : str :=
  let feedback := lit "Overall relevance score: " ++ format_1f score ++ lit "%" in
  let feedback :=
    if nonempty matched_skills
    then feedback ++ lit " | Matched " ++ lit (pretty (length matched_skills))
                  ++ lit " skills"
    else feedback in
  let feedback :=
    if nonempty missing_skills
    then feedback ++ lit " | Missing " ++ lit (pretty (length missing_skills))
                  ++ lit " key skills"
    else feedback in
  feedback.

Definition _generate_suggestions (missing_skills : list str) (resume : Resume.t)
    : list str :=
  let suggestions := [] in
  let suggestions :=
    if nonempty missing_skills
    then suggestions ++
         [lit "Learn these key skills: " ++ join (lit ", ") (take 3 missing_skills)]
    else suggestions in
  let suggestions :=
    if negb (nonempty (Resume.projects resume))
    then suggestions ++ [lit "Add relevant projects to showcase your skills"]
    else suggestions in
  let suggestions :=
    if negb (nonempty (Resume.experience resume))
    then suggestions ++
         [lit "Gain practical experience through internships or freelance work"]
    else suggestions in
  suggestions ++
  [lit "Optimize your resume keywords for better ATS compatibility"].

(** The value of the variable [score] once the five contributions have
    been added, before [min(100, score)]. *)
Definition raw_score
    (matched_must_have must_have_skills
     matched_good_to_have good_to_have_skills : gset str)
    (resume : Resume.t) : Q :=
  let score := 0%Q in
  (* Must-have skills (50 points) *)
  let score :=
    if nonempty_set must_have_skills
    then (score + Qnat (size matched_must_have)
                  / Qnat (size must_have_skills) * 50)%Q
    else score in
  (* Good-to-have skills (20 points) *)
  let score :=
    if nonempty_set good_to_have_skills
    then (score + Qnat (size matched_good_to_have)
                  / Qnat (size good_to_have_skills) * 20)%Q
    else score in
  (* Experience (15 points) *)
  let score :=
    if nonempty (Resume.experience resume) then (score + 15)%Q else score in
  (* Education (10 points) *)
  let score :=
    if nonempty (Resume.education resume) then (score + 10)%Q else score in
  (* Projects (5 points) *)
  let score :=
    if nonempty (Resume.projects resume) then (score + 5)%Q else score in
  score.

Definition evaluate `{PySet} (resume : Resume.t) (job_desc : JobDescription.t)
    : EvaluationResult.t :=
  (* Calculate skill matches *)
  let resume_skills := set_of (map lower (Resume.skills resume)) in
  let must_have_skills :=
    set_of (map lower (JobDescription.must_have_skills job_desc)) in
  let good_to_have_skills :=
    set_of (map lower (JobDescription.good_to_have_skills job_desc)) in
  let matched_must_have := resume_skills ∩ must_have_skills in
  let matched_good_to_have := resume_skills ∩ good_to_have_skills in
  let matched_skills :=
    list_of_set (matched_must_have ∪ matched_good_to_have) in
  let missing_must_have := must_have_skills ∖ resume_skills in
  let missing_skills := list_of_set missing_must_have in
  (* Calculate score *)
  let score :=
    raw_score matched_must_have must_have_skills
              matched_good_to_have good_to_have_skills resume in
  let score := min100 score in
  let verdict :=
    if Qle_bool 75 score then lit "HIGH"
    else if Qle_bool 50 score then lit "MEDIUM"
    else lit "LOW" in
  let feedback := _generate_feedback score matched_skills missing_skills in
  let suggestions := _generate_suggestions missing_skills resume in
  {| EvaluationResult.resume_id := Resume.id resume;
     EvaluationResult.job_id := JobDescription.id job_desc;
     EvaluationResult.relevance_score := round2 score;
     EvaluationResult.matched_skills := matched_skills;
     EvaluationResult.missing_skills := missing_skills;
     EvaluationResult.verdict := verdict;
     EvaluationResult.feedback := feedback;
     EvaluationResult.suggestions := suggestions |}.
End RelevanceEvaluator.

(** ** The pages that change the session *)

Module App.

(** The outcome of a call that may raise: its value, or an [Exception]
    with the message [str(e)]. *)
Inductive outcome (A : Type) : Type :=
| Ok (a : A)
| Raise (e : str).
Arguments Ok {A} a.
Arguments Raise {A} e.

(** [st.session_state] *)
Record SessionState : Type := Session {
  job_descriptions : list JobDescription.t;
  evaluations : list EvaluationResult.t
}.

(** What a run of a page writes to the screen. *)
Inductive notice : Type :=
| Error (msg : str)
| Success (msg : str)
| Warning (msg : str)
| Rendered.

Record page : Type := Page {
  session_state : SessionState;
  notices : list notice
}.

(** A run of page code: it changes the page and returns or raises.  What
    was done before an exception stays done. *)
Definition M (A : Type) : Type := page -> page * outcome A.

#[export] Instance M_ret : MRet M := fun A a pg => (pg, Ok a).

#[export] Instance M_bind : MBind M := fun A B f m pg =>
  match m pg with
  | (pg', Ok a) => f a pg'
  | (pg', Raise e) => (pg', Raise e)
  end.

(** The value or the exception of a call that does not touch the
    page. *)
Definition call {A} (o : outcome A) : M A := fun pg => (pg, o).

(** [try: body except Exception as e: handler(str(e))] *)
Definition try_except (body : M unit) (handler : str -> M unit) : M unit :=
  fun pg =>
    match body pg with
    | (pg', Ok a) => (pg', Ok a)
    | (pg', Raise e) => handler e pg'
    end.

Definition show (n : notice) : M unit :=
  fun pg => (Page (session_state pg) (notices pg ++ [n]), Ok tt).

Definition st_error (msg : str) : M unit := show (Error msg).
Definition st_success (msg : str) : M unit := show (Success msg).
Definition st_warning (msg : str) : M unit := show (Warning msg).

Definition get_session : M SessionState :=
  fun pg => (pg, Ok (session_state pg)).

(** [st.session_state.job_descriptions.append(job_desc)] *)
Definition append_job_description (job_desc : JobDescription.t) : M unit :=
  fun pg =>
    let s := session_state pg in
    (Page (Session (job_descriptions s ++ [job_desc]) (evaluations s))
          (notices pg), Ok tt).

(** [st.session_state.evaluations.append(evaluation)] *)
Definition append_evaluation (evaluation : EvaluationResult.t) : M unit :=
  fun pg =>
    let s := session_state pg in
    (Page (Session (job_descriptions s) (evaluations s ++ [evaluation]))
          (notices pg), Ok tt).

(** A call that may write notices, and then returns or raises. *)
Definition emit {A} (r : list notice * outcome A) : M A :=
  fun pg => (Page (session_state pg) (notices pg ++ r.1), r.2).

(** [if xs:] *)
Definition truthy {A} (xs : list A) : bool :=
  match xs with [] => false | _ => true end.

Section Pages.
(** The collaborators of the two pages.  Each may raise; the rendering
    steps stand for the widget calls that follow the append. *)
Variable UploadedFile : Type.
Variable extract_text : UploadedFile -> list notice * outcome str.
Variable job_parser_parse : str -> str -> str -> outcome JobDescription.t.
Variable resume_parser_parse : str -> outcome Resume.t.
Variable evaluator_evaluate :
  Resume.t -> JobDescription.t -> outcome EvaluationResult.t.
Variable render_job : JobDescription.t -> outcome unit.
Variable display_evaluation_result :
  EvaluationResult.t -> Resume.t -> JobDescription.t -> outcome unit.

(** The button branch of [upload_job_description]; [jd_text] is the
    pasted or extracted text, [clicked] the state of the "Parse Job
    Description" button. *)
Definition upload_job_description (company location jd_text : str)
    (clicked : bool) : M unit :=
  if clicked then
    if negb (truthy company) then
      st_error (lit "Company name is required!")
    else if negb (truthy jd_text) then
      st_error (lit "Please provide job description text or upload a file!")
    else
      try_except
        (job_desc ← call (job_parser_parse jd_text company location);
         append_job_description job_desc;;
         st_success (lit "Job description parsed successfully!");;
         call (render_job job_desc))
        (fun e => st_error (lit "Error parsing job description: " ++ e))
  else mret tt.

(** [upload_resume]; [selected_job_idx] is the choice of the select
    box, [uploaded_resume] the uploaded file if any, [clicked] the
    state of the "Evaluate Resume" button.  [DocumentProcessor] writes
    its own error notices; [st.rerun()] in the empty case restarts the
    script and leaves the session as it is. *)
Definition upload_resume (selected_job_idx : nat)
    (uploaded_resume : option UploadedFile) (clicked : bool) : M unit :=
  s ← get_session;
  if negb (truthy (job_descriptions s)) then
    st_warning (lit "Please upload at least one job description first!")
  else
    match job_descriptions s !! selected_job_idx with
    | None => call (Raise (lit "list index out of range"))
    | Some selected_job =>
        match uploaded_resume with
        | Some file =>
            if clicked then
              try_except
                ((* Extract text *)
                 resume_text ← emit (extract_text file);
                 if negb (truthy resume_text) then
                   st_error (lit "Could not extract text from the resume. Please try a different file.")
                 else
                   (* Parse resume *)
                   resume ← call (resume_parser_parse resume_text);
                   (* Evaluate resume *)
                   evaluation ← call (evaluator_evaluate resume selected_job);
                   append_evaluation evaluation;;
                   (* Display results *)
                   st_success (lit "Resume evaluated successfully!");;
                   call (display_evaluation_result evaluation resume selected_job))
                (fun e => st_error (lit "Error processing resume: " ++ e))
            else mret tt
        | None => mret tt
        end
    end.
End Pages.

(** The pages as the program wires them: the parsers and the evaluator
    of this file, which return without raising. *)
Definition job_page `{PySet} (md5 : str -> str) (now : str)
    (render_job : JobDescription.t -> outcome unit) :=
  upload_job_description
    (fun text company location =>
       Ok (JobDescriptionParser.parse md5 now text company location))
    render_job.

Definition resume_page `{PySet} (md5 : str -> str) (now : str)
    (UploadedFile : Type)
    (extract_text : UploadedFile -> list notice * outcome str)
    (display_evaluation_result :
       EvaluationResult.t -> Resume.t -> JobDescription.t -> outcome unit) :=
  upload_resume UploadedFile extract_text
    (fun text => Ok (ResumeParser.parse md5 now text))
    (fun resume job_desc => Ok (RelevanceEvaluator.evaluate resume job_desc))
    display_evaluation_result.
End App.

(** ** Reading an uploaded file *)

Module DocumentProcessor.
Import App.

(** What a run of an extractor reads and writes: its local variable
    [text], the temporary files on disk and the notices written by
    [st.error]. *)
Record state : Type := State {
  text : str;
  tmp_files : gset str;
  shown : list notice
}.

(** A run of extractor code: it changes the state and returns or
    raises. *)
Definition IO (A : Type) : Type := state -> state * outcome A.

#[export] Instance IO_ret : MRet IO := fun A a s => (s, Ok a).

#[export] Instance IO_bind : MBind IO := fun A B f m s =>
  match m s with
  | (s', Ok a) => f a s'
  | (s', Raise e) => (s', Raise e)
  end.

(** The value or the exception of a library call that touches neither
    the disk nor the screen. *)
Definition lib {A} (o : outcome A) : IO A := fun s => (s, o).

(** [try: body except Exception as e: handler(str(e))] *)
Definition try_catch (body : IO unit) (handler : str -> IO unit) : IO unit :=
  fun s =>
    match body s with
    | (s', Ok a) => (s', Ok a)
    | (s', Raise e) => handler e s'
    end.

Definition get_text : IO str := fun s => (s, Ok (text s)).

Definition set_text (t : str) : IO unit :=
  fun s => (State t (tmp_files s) (shown s), Ok tt).

(** [text += t] *)
Definition add_text (t : str) : IO unit :=
  fun s => (State (text s ++ t) (tmp_files s) (shown s), Ok tt).

(** [st.error(msg)] *)
Definition report (msg : str) : IO unit :=
  fun s => (State (text s) (tmp_files s) (shown s ++ [Error msg]), Ok tt).

Section Extractors.
(** The content of a file, and the libraries: each call may raise.
    [tmp_create suffix] makes a new temporary file and gives its path,
    [tmp_write] writes and closes it, [os_unlink] removes it.  The
    readers are given the path of the temporary file, which holds
    [file_bytes]: [pdfplumber_pages] is [pdfplumber.open] with, for each
    page, what its [extract_text()] does ([None] read as the empty
    text), [PyPDF2_pages] the same for [PyPDF2.PdfReader],
    [docx2txt_process] is [docx2txt.process] and [Document_paragraphs]
    the [text] of the paragraphs of [Document]. *)
Variable Bytes : Type.
Variable PDF_AVAILABLE : bool.
Variable tmp_create : str -> outcome str.
Variable tmp_write : str -> Bytes -> outcome unit.
Variable os_unlink : str -> outcome unit.
Variable pdfplumber_pages : Bytes -> outcome (list (outcome str)).
Variable PyPDF2_pages : Bytes -> outcome (list (outcome str)).
Variable docx2txt_process : Bytes -> outcome str.
Variable Document_paragraphs : Bytes -> outcome (list str).
Variable decode_utf8 : Bytes -> outcome str.

(** [with tempfile.NamedTemporaryFile(delete=False, suffix=suffix) as
    tmp_file: tmp_file.write(file_bytes); tmp_path = tmp_file.name] *)
Definition NamedTemporaryFile (suffix : str) (file_bytes : Bytes) : IO str :=
  fun s =>
    match tmp_create suffix with
    | Raise e => (s, Raise e)
    | Ok tmp_path =>
        let s' := State (text s) (tmp_files s ∪ {[tmp_path]}) (shown s) in
        match tmp_write tmp_path file_bytes with
        | Raise e => (s', Raise e)
        | Ok _ => (s', Ok tmp_path)
        end
    end.

(** [os.unlink(tmp_path)] *)
Definition unlink (tmp_path : str) : IO unit :=
  fun s =>
    match os_unlink tmp_path with
    | Raise e => (s, Raise e)
    | Ok _ => (State (text s) (tmp_files s ∖ {[tmp_path]}) (shown s), Ok tt)
    end.

(** The loop over [pdf.pages]. *)
Fixpoint pdfplumber_loop (pages : list (outcome str)) : IO unit :=
  match pages with
  | [] => mret tt
  | page :: pages' =>
      page_text ← lib page;
      (if truthy page_text then add_text (page_text ++ [newline])
       else mret tt);;
      pdfplumber_loop pages'
  end.

(** The loop over [reader.pages]. *)
Fixpoint PyPDF2_loop (pages : list (outcome str)) : IO unit :=
  match pages with
  | [] => mret tt
  | page :: pages' =>
      page_text ← lib page;
      add_text (page_text ++ [newline]);;
      PyPDF2_loop pages'
  end.

Definition extract_text_from_pdf (file_bytes : Bytes) : IO str :=
  if negb PDF_AVAILABLE then mret []
  else
    set_text [];;
    try_catch
      ((* Try pdfplumber first *)
       tmp_path ← NamedTemporaryFile (lit ".pdf") file_bytes;
       try_catch
         (pdf ← lib (pdfplumber_pages file_bytes);
          pdfplumber_loop pdf)
         (fun _ =>
            (* Fallback to PyPDF2 *)
            reader ← lib (PyPDF2_pages file_bytes);
            PyPDF2_loop reader);;
       unlink tmp_path)
      (fun e => report (lit "PDF processing failed: " ++ e));;
    text ← get_text;
    mret (strip text).

Definition extract_text_from_docx (file_bytes : Bytes) : IO str :=
  set_text [];;
  try_catch
    (tmp_path ← NamedTemporaryFile (lit ".docx") file_bytes;
     try_catch
       (text ← lib (docx2txt_process file_bytes);
        set_text text;;
        if negb (truthy text) then
          doc ← lib (Document_paragraphs file_bytes);
          set_text (join [newline] doc)
        else mret tt)
       (fun e => report (lit "DOCX processing failed: " ++ e));;
     unlink tmp_path)
    (fun e => report (lit "File processing failed: " ++ e));;
  text ← get_text;
  mret (strip text).

(** [uploaded_file]: its [name] and what [getvalue()] gives. *)
Record UploadedFile : Type := File {
  name : str;
  getvalue : Bytes
}.

(** [name.split('.')[-1].lower()] *)
Definition file_ext_of (name : str) : str :=
  lower (List.last (split_char (fun c => bool_decide (c = "."%char)) name) []).

Definition extract_text (uploaded_file : option UploadedFile) : IO str :=
  match uploaded_file with
  | None => mret []
  | Some uploaded_file =>
      let file_ext := file_ext_of (name uploaded_file) in
      let file_bytes := getvalue uploaded_file in
      if bool_decide (file_ext = lit "pdf") then
        extract_text_from_pdf file_bytes
      else if bool_decide (file_ext ∈ [lit "docx"; lit "doc"]) then
        extract_text_from_docx file_bytes
      else if bool_decide (file_ext = lit "txt") then
        lib (decode_utf8 file_bytes)
      else
        report (lit "Unsupported file format: " ++ file_ext);;
        mret []
  end.

(** A call of [extract_text] from a page: the notices it writes and
    its outcome.  The temporary files are not seen by the page. *)
Definition extract_text_call (disk : gset str) (uploaded_file : UploadedFile)
    : list notice * outcome str :=
  let (s, o) := extract_text (Some uploaded_file) (State [] disk []) in
  (shown s, o).
End Extractors.
End DocumentProcessor.

(** ** The pages with the file reader, and the results page *)

Module Pages.
Import App.

Section Wired.
Context `{PySet}.
Variable md5 : str -> str.
Variable now : str.
Variable Bytes : Type.
Variable PDF_AVAILABLE : bool.
Variable tmp_create : str -> outcome str.
Variable tmp_write : str -> Bytes -> outcome unit.
Variable os_unlink : str -> outcome unit.
Variable pdfplumber_pages : Bytes -> outcome (list (outcome str)).
Variable PyPDF2_pages : Bytes -> outcome (list (outcome str)).
Variable docx2txt_process : Bytes -> outcome str.
Variable Document_paragraphs : Bytes -> outcome (list str).
Variable decode_utf8 : Bytes -> outcome str.
Variable disk : gset str.

(** [DocumentProcessor.extract_text(uploaded_file)] *)
Definition extract_text (uploaded_file : DocumentProcessor.UploadedFile Bytes)
    : list notice * outcome str :=
  DocumentProcessor.extract_text_call Bytes PDF_AVAILABLE tmp_create tmp_write
    os_unlink pdfplumber_pages PyPDF2_pages docx2txt_process
    Document_paragraphs decode_utf8 disk uploaded_file.

(** The choice of the radio button of [upload_job_description], with
    what the widget under it holds. *)
Inductive input_method : Type :=
| Paste_text (typed : str)
| Upload_file (uploaded_file : option (DocumentProcessor.UploadedFile Bytes)).

(** The part of [upload_job_description] that sets [jd_text]; the
    preview of the extracted text is not modelled. *)
Definition job_description_text (input : input_method) : M str :=
  match input with
  | Paste_text typed => mret typed
  | Upload_file None => mret []
  | Upload_file (Some uploaded_file) =>
      jd_text ← emit (extract_text uploaded_file);
      (if truthy jd_text
       then st_success (lit "Text extracted successfully!")
       else mret tt);;
      mret jd_text
  end.

(** [upload_job_description()] *)
Definition upload_job_description (render_job : JobDescription.t -> outcome unit)
    (company location : str) (input : input_method) (clicked : bool) : M unit :=
  jd_text ← job_description_text input;
  job_page md5 now render_job company location jd_text clicked.

(** [upload_resume()] *)
Definition upload_resume
    (display_evaluation_result :
       EvaluationResult.t -> Resume.t -> JobDescription.t -> outcome unit)
    (selected_job_idx : nat)
    (uploaded_resume : option (DocumentProcessor.UploadedFile Bytes))
    (clicked : bool) : M unit :=
  resume_page md5 now (DocumentProcessor.UploadedFile Bytes) extract_text
    display_evaluation_result selected_job_idx uploaded_resume clicked.
End Wired.

(** A line of the table of [view_results]. *)
Record row : Type := Row {
  Job : str;
  Score : str;
  Verdict : str;
  Matched_Skills : nat;
  Missing_Skills : nat
}.

(** What [view_results] shows: the four metrics and the table. *)
Record results : Type := Results {
  total : nat;
  high_count : nat;
  medium_count : nat;
  low_count : nat;
  results_data : list row
}.

(** [next((jd for jd in job_descriptions if jd.id == job_id), None)] *)
Definition find_job (job_descriptions : list JobDescription.t) (job_id : str)
    : option JobDescription.t :=
  head (filter (fun jd => JobDescription.id jd = job_id) job_descriptions).

(** [len([e for e in evaluations if e.verdict == verdict])] *)
Definition count_verdict (verdict : string) (evaluations : list EvaluationResult.t)
    : nat :=
  length (filter (fun e => EvaluationResult.verdict e = lit verdict) evaluations).

(** [view_results()]: nothing but a note when there is no evaluation;
    [float_str] is the text of a score in an f-string. *)
Definition view_results (float_str : Q -> str) (s : SessionState)
    : option results :=
  if negb (truthy (evaluations s)) then None
  else
    Some {|
      total := length (evaluations s);
      high_count := count_verdict "HIGH" (evaluations s);
      medium_count := count_verdict "MEDIUM" (evaluations s);
      low_count := count_verdict "LOW" (evaluations s);
      results_data :=
        map (fun eval =>
               let job := find_job (job_descriptions s)
                                   (EvaluationResult.job_id eval) in
               let job_title :=
                 match job with
                 | Some job => JobDescription.title job
                 | None => lit "Unknown Job"
                 end in
               {| Job := job_title;
                  Score := float_str (EvaluationResult.relevance_score eval)
                           ++ lit "%";
                  Verdict := EvaluationResult.verdict eval;
                  Matched_Skills := length (EvaluationResult.matched_skills eval);
                  Missing_Skills := length (EvaluationResult.missing_skills eval) |})
            (evaluations s)
    |}.

(** The sessions the two upload pages can build from the empty one,
    whatever is typed, uploaded or clicked and whatever the file reader
    and the rendering do. *)
Inductive reachable `{PySet} (md5 : str -> str) : SessionState -> Prop :=
| reachable_start : reachable md5 (Session [] [])
| reachable_job s now render_job company location jd_text clicked ns :
    reachable md5 s ->
    reachable md5
      (session_state
         (job_page md5 now render_job company location jd_text clicked
            (Page s ns)).1)
| reachable_resume s now (UploadedFile : Type) extract_text display idx
    (file : option UploadedFile) clicked ns :
    reachable md5 s ->
    reachable md5
      (session_state
         (resume_page md5 now UploadedFile extract_text display idx file clicked
            (Page s ns)).1).
End Pages.

(** ** Vocabulary of the specification *)

Module Spec.

(** What every extracted skill is expected to satisfy: it is its own
    lowercasing and has at least three characters. *)
Definition wf_skill (s : str) : Prop := lower s = s /\ 3 <= length s.

#[export] Instance wf_skill_dec s : Decision (wf_skill s).
Proof. unfold wf_skill. apply _. Defined.

(** *** Normalized text *)

Definition space : ascii := " "%char.

(** What replacing every run of whitespace by one space yields;
    [in_run] tells that the character before was whitespace. *)
Fixpoint collapse (in_run : bool) (s : str) : str :=
  match s with
  | [] => []
  | c :: s' =>
      if isspace c
      then if in_run then collapse true s' else space :: collapse true s'
      else c :: collapse false s'
  end.

Definition starts_with_space (s : str) : bool :=
  match s with
  | [] => false
  | c :: _ => isspace c
  end.

(** Every whitespace character is a space, and what follows it is
    the end of the text or a character that is not whitespace. *)
Fixpoint loosely_spaced (s : str) : bool :=
  match s with
  | [] => true
  | c :: s' =>
      (if isspace c
       then bool_decide (c = space) && negb (starts_with_space s')
       else true)
      && loosely_spaced s'
  end.

(** Every whitespace character is a space that is followed by a
    character that is not whitespace. *)
Fixpoint spaced (s : str) : bool :=
  match s with
  | [] => true
  | c :: s' =>
      (if isspace c
       then bool_decide (c = space)
            && match s' with [] => false | d :: _ => negb (isspace d) end
       else true)
      && spaced s'
  end.

(** Words separated by single spaces: what [_clean_text] returns. *)
Definition normalized (s : str) : bool :=
  spaced s && negb (starts_with_space s).


(** *** Sections of a text *)




(** *** The score *)

(** [matched / total * weight], and nothing when [total] is zero. *)
Definition coverage (matched total : nat) (weight : Q) : Q :=
  match total with
  | 0 => 0%Q
  | S _ => (Qnat matched / Qnat total * weight)%Q
  end.

(** A flat bonus for a section that is present. *)
Definition flat {A} (entries : list A) (points : Q) : Q :=
  match entries with
  | [] => 0%Q
  | _ :: _ => points
  end.

(** The sum of the five contributions, from the two coverage counts. *)
Definition sum_of (matched_must total_must matched_good total_good : nat)
    (resume : Resume.t) : Q :=
  (coverage matched_must total_must 50
   + coverage matched_good total_good 20
   + flat (Resume.experience resume) 15
   + flat (Resume.education resume) 10
   + flat (Resume.projects resume) 5)%Q.


Definition lowered (skills : list str) : gset str := set_of (map lower skills).

(** The sum as the claim words it: each coverage is the number of
    lowercased skills in common over the number of entries of the job's
    list. *)
Definition claimed_sum (r : Resume.t) (j : JobDescription.t) : Q :=
  sum_of
    (size (lowered (Resume.skills r)
           ∩ lowered (JobDescription.must_have_skills j)))
    (length (JobDescription.must_have_skills j))
    (size (lowered (Resume.skills r)
           ∩ lowered (JobDescription.good_to_have_skills j)))
    (length (JobDescription.good_to_have_skills j))
    r.

(** The sum with each coverage taken over the number of distinct
    lowercased skills of the job's list. *)
Definition distinct_sum (r : Resume.t) (j : JobDescription.t) : Q :=
  sum_of
    (size (lowered (Resume.skills r)
           ∩ lowered (JobDescription.must_have_skills j)))
    (size (lowered (JobDescription.must_have_skills j)))
    (size (lowered (Resume.skills r)
           ∩ lowered (JobDescription.good_to_have_skills j)))
    (size (lowered (JobDescription.good_to_have_skills j)))
    r.

(** The verdict by the fixed thresholds. *)
Definition verdict_of (score : Q) : str :=
  if Qle_bool 75 score then lit "HIGH"
  else if Qle_bool 50 score then lit "MEDIUM"
  else lit "LOW".



(** The score before rounding, as [evaluate] computes it. *)
Definition unrounded (r : Resume.t) (j : JobDescription.t) : Q :=
  min100 (distinct_sum r j).

(** The points a resume can reach at most against a job: a component
    counts only when there is something to score it on. *)
Definition available_points (r : Resume.t) (j : JobDescription.t) : Z :=
  ((match JobDescription.must_have_skills j with [] => 0 | _ => 50 end)
   + (match JobDescription.good_to_have_skills j with [] => 0 | _ => 20 end)
   + (match Resume.experience r with [] => 0 | _ => 15 end)
   + (match Resume.education r with [] => 0 | _ => 10 end)
   + (match Resume.projects r with [] => 0 | _ => 5 end))%Z.

(** *** The parts of an email address *)

(** The classes of the email pattern: "[A-Za-z0-9._%+-]",
    "[A-Za-z0-9.-]" and "[A-Z|a-z]". *)
Definition email_local_char (c : ascii) : bool :=
  ResumeParser.is_alnum_ascii c || bool_decide (c ∈ lit "._%+-").

Definition email_domain_char (c : ascii) : bool :=
  ResumeParser.is_alnum_ascii c || bool_decide (c ∈ lit ".-").

Definition email_tld_char (c : ascii) : bool :=
  between 65 90 (ord c) || between 97 122 (ord c) || bool_decide (c ∈ lit "|").

(** *** Sessions and files *)

(** What the pages keep true of a session: every verdict is one of the
    three, and every evaluation names a stored job description. *)
Definition session_ok (s : App.SessionState) : Prop :=
  Forall (fun e =>
    (EvaluationResult.verdict e = lit "HIGH" \/
     EvaluationResult.verdict e = lit "MEDIUM" \/
     EvaluationResult.verdict e = lit "LOW") /\
    exists jd, jd ∈ App.job_descriptions s /\
               JobDescription.id jd = EvaluationResult.job_id e)
    (App.evaluations s).

(** The pages a reader gives, none if opening the file raises. *)
Definition pages_of (r : App.outcome (list (App.outcome str)))
    : list (App.outcome str) :=
  match r with
  | App.Ok pages => pages
  | App.Raise _ => []
  end.

(** The exception of the first page that raises, if any. *)
Fixpoint page_failure (pages : list (App.outcome str)) : option str :=
  match pages with
  | [] => None
  | App.Ok _ :: rest => page_failure rest
  | App.Raise e :: _ => Some e
  end.

(** The exception a reader ends with, if any: that of opening the file
    or that of the first page that raises. *)
Definition failure (r : App.outcome (list (App.outcome str))) : option str :=
  match r with
  | App.Ok pages => page_failure pages
  | App.Raise e => Some e
  end.

(** The text of the pages before the first one that raises, each page
    giving [line]. *)
Fixpoint text_before_failure (line : str -> str) (pages : list (App.outcome str))
    : str :=
  match pages with
  | App.Ok t :: rest => line t ++ text_before_failure line rest
  | _ => []
  end.

(** A page in the first loop: skipped when empty. *)
Definition pdfplumber_line (t : str) : str :=
  match t with [] => [] | _ => t ++ [newline] end.

(** A page in the fallback loop. *)
Definition PyPDF2_line (t : str) : str := t ++ [newline].

(** How a loop over pages ends. *)
Definition raised (f : option str) : App.outcome unit :=
  match f with Some e => App.Raise e | None => App.Ok tt end.

(** What the two readers leave in [text]: the pages [pdfplumber] read
    and, when it failed, after them the pages [PyPDF2] read. *)
Definition pdf_text (plumber pypdf2 : App.outcome (list (App.outcome str)))
    : str :=
  text_before_failure pdfplumber_line (pages_of plumber) ++
  match failure plumber with
  | Some _ => text_before_failure PyPDF2_line (pages_of pypdf2)
  | None => []
  end.

(** The exception the reading of a PDF ends with, if any: that of
    [PyPDF2] when [pdfplumber] failed too. *)
Definition pdf_failure (plumber pypdf2 : App.outcome (list (App.outcome str)))
    : option str :=
  match failure plumber with
  | Some _ => failure pypdf2
  | None => None
  end.

End Spec.

(** ** Sample records *)

Module Examples.

Definition entry (key text : string) : Dict := [(lit key, lit text)].

Definition resume (skills : list str) (experience education projects : list Dict)
    : Resume.t :=
  {| Resume.id := lit "0f3a9c1d2b4e";
     Resume.name := lit "Ada Lovelace";
     Resume.email := lit "ada@example.com";
     Resume.skills := skills;
     Resume.experience := experience;
     Resume.education := education;
     Resume.projects := projects;
     Resume.raw_text := lit "Ada Lovelace ada@example.com" |}.

Definition job (must_have good_to_have : list str) : JobDescription.t :=
  {| JobDescription.id := lit "7d1e0b9a6c55";
     JobDescription.title := lit "Backend Developer";
     JobDescription.company := lit "Acme";
     JobDescription.must_have_skills := must_have;
     JobDescription.good_to_have_skills := good_to_have;
     JobDescription.experience_required := lit "Not specified";
     JobDescription.description := lit "Backend Developer";
     JobDescription.location := lit "Pune" |}.






(** A resume with all three sections and a job without skills. *)
Definition resume_sections : Resume.t :=
  resume [lit "python"; lit "sql"]
         [entry "description" "two years of backend work"]
         [entry "degree" "MSC"]
         [entry "description" "a compiler"].

Definition job_no_skills : JobDescription.t := job [] [].

(** A resume that has every skill of [job_backend] and all three
    sections. *)
Definition resume_full : Resume.t :=
  resume [lit "Python"; lit "SQL"; lit "Docker"; lit "AWS"; lit "Git"]
         [entry "description" "two years of backend work"]
         [entry "degree" "MSC"]
         [entry "description" "a compiler"].

Definition job_backend : JobDescription.t :=
  job [lit "python"; lit "sql"; lit "docker"] [lit "aws"].

Definition resume_backend : Resume.t :=
  resume [lit "Python"; lit "SQL"; lit "AWS"]
         [entry "description" "two years of backend work"] [] [].

(** [resume_backend] with one more skill. *)
Definition resume_backend_docker : Resume.t :=
  resume [lit "Python"; lit "SQL"; lit "AWS"; lit "Docker"]
         [entry "description" "two years of backend work"] [] [].

(** A stand-in for the digest: the text read backwards. *)
Definition toy_digest (s : str) : str := rev s.

(** Collaborators of the pages for a run in which parsing raises, and
    for a run in which evaluation raises. *)
Definition extract_ok (file : str) : list App.notice * App.outcome str :=
  ([], App.Ok file).

Definition parse_raises (text : str) : App.outcome Resume.t :=
  App.Raise (lit "expected string or bytes-like object").

Definition parse_ok (text : str) : App.outcome Resume.t :=
  App.Ok resume_backend.

Definition evaluate_raises (r : Resume.t) (j : JobDescription.t)
    : App.outcome EvaluationResult.t :=
  App.Raise (lit "division by zero").

Definition evaluate_ok (r : Resume.t) (j : JobDescription.t)
    : App.outcome EvaluationResult.t :=
  App.Ok (RelevanceEvaluator.evaluate r j).

Definition job_parse_raises (text company location : str)
    : App.outcome JobDescription.t :=
  App.Raise (lit "expected string or bytes-like object").

Definition render_ok {A B C} (a : A) (b : B) (c : C) : App.outcome unit :=
  App.Ok tt.

Definition render_job_ok (j : JobDescription.t) : App.outcome unit :=
  App.Ok tt.

(** Rendering steps that raise. *)
Definition render_raises {A B C} (a : A) (b : B) (c : C) : App.outcome unit :=
  App.Raise (lit "widget key already used").

Definition render_job_raises (j : JobDescription.t) : App.outcome unit :=
  App.Raise (lit "widget key already used").

Definition page_one_job : App.page :=
  App.Page (App.Session [job_backend] []) [].

(** A session built by the two pages: one job description, then one
    resume evaluated against it. *)
Definition job_text : str :=
  lit "Role: Backend Developer" ++ [newline] ++
  lit "Required Skills: python, sql, docker".

Definition resume_text : str :=
  lit "Ada Lovelace" ++ [newline] ++ lit "ada@example.com python sql".

Definition session_one_job : App.SessionState :=
  App.session_state
    (App.job_page toy_digest (lit "2024-01-01") render_job_ok
       (lit "Acme") (lit "Pune") job_text true
       (App.Page (App.Session [] []) [])).1.

Definition session_one_evaluation : App.SessionState :=
  App.session_state
    (App.resume_page toy_digest (lit "2024-01-02") str extract_ok render_ok
       0 (Some resume_text) true (App.Page session_one_job [])).1.

(** Uploaded files, their bytes written as text, and library calls
    for the file reader. *)
Definition resume_file : DocumentProcessor.UploadedFile str :=
  DocumentProcessor.File str (lit "ada.lovelace.TXT") resume_text.

Definition rtf_file : DocumentProcessor.UploadedFile str :=
  DocumentProcessor.File str (lit "resume.rtf") resume_text.

Definition tmp_create_ok (suffix : str) : App.outcome str :=
  App.Ok (lit "/tmp/tmpk3v9x2" ++ suffix).

Definition tmp_write_ok (path bytes : str) : App.outcome unit := App.Ok tt.

Definition tmp_write_raises (path bytes : str) : App.outcome unit :=
  App.Raise (lit "No space left on device").

Definition os_unlink_ok (path : str) : App.outcome unit := App.Ok tt.

Definition pages_raise (bytes : str) : App.outcome (list (App.outcome str)) :=
  App.Raise (lit "No /Root object").

(** [pdfplumber] reads one page and raises on the second. *)
Definition pdfplumber_stops (bytes : str) : App.outcome (list (App.outcome str)) :=
  App.Ok (map App.Ok [lit "Ada Lovelace"]
          ++ App.Raise (lit "unpack requires a buffer of 4 bytes") :: []).

Definition PyPDF2_reads (bytes : str) : App.outcome (list (App.outcome str)) :=
  App.Ok (map App.Ok [lit "Ada Lovelace"; lit "python sql"]).

Definition docx2txt_raises (bytes : str) : App.outcome str :=
  App.Raise (lit "File is not a zip file").

Definition docx2txt_empty (bytes : str) : App.outcome str := App.Ok [].

Definition paragraphs_read (bytes : str) : App.outcome (list str) :=
  App.Ok [lit "Ada Lovelace"; lit "python sql"].

Definition decode_ok (bytes : str) : App.outcome str := App.Ok bytes.

Definition decode_raises (bytes : str) : App.outcome str :=
  App.Raise (lit "'utf-8' codec can't decode byte 0xff in position 0").

Definition reader_start : DocumentProcessor.state :=
  DocumentProcessor.State [] ∅ [].
End Examples.

(** * Properties *)

(** ** Characters and strings *)

Lemma lower_char_idemp c : lower_char (lower_char c) = lower_char c.
Proof. destruct c as [[] [] [] [] [] [] [] []]; reflexivity. Qed.

Lemma lower_idemp s : lower (lower s) = lower s.
Proof.
  unfold lower. rewrite map_map. apply map_ext. intros c. apply lower_char_idemp.
Qed.

Lemma length_lower s : length (lower s) = length s.
Proof. unfold lower. apply length_map. Qed.

(** ** Sets *)

Section PySetFacts.
Context `{PySet}.

Lemma elem_of_list_of_set (X : gset str) s : s ∈ list_of_set X <-> s ∈ X.
Proof. rewrite (list_of_set_perm X). apply elem_of_elements. Qed.

Lemma NoDup_list_of_set (X : gset str) : NoDup (list_of_set X).
Proof. rewrite (list_of_set_perm X). apply NoDup_elements. Qed.

Lemma length_list_of_set (X : gset str) : length (list_of_set X) = size X.
Proof. rewrite (list_of_set_perm X). reflexivity. Qed.

Lemma elem_of_set_of (xs : list str) s : s ∈ set_of xs <-> s ∈ xs.
Proof. unfold set_of. apply elem_of_list_to_set. Qed.
End PySetFacts.

(** ** The skill extractors *)

Import Spec.

Lemma wf_skill_lower_strip s :
  2 < length (strip s) -> wf_skill (lower (strip s)).
Proof.
  intros Hlen. split; [apply lower_idemp | rewrite length_lower; lia].
Qed.

Lemma wf_tech_skills : Forall wf_skill ResumeParser.tech_skills.
Proof. apply (bool_decide_unpack _). vm_compute. reflexivity. Qed.

Lemma wf_fallback_skills : Forall wf_skill JobDescriptionParser.fallback_skills.
Proof. apply (bool_decide_unpack _). vm_compute. reflexivity. Qed.

Lemma Forall_list_filter {A} (P : A -> Prop) f l :
  Forall P l -> Forall P (List.filter f l).
Proof.
  induction 1 as [|x l Hx Hl IH]; simpl; [constructor|].
  destruct (f x); [constructor|]; assumption.
Qed.

Lemma wf_add_section_skills extracted skills :
  Forall wf_skill skills ->
  Forall wf_skill (ResumeParser.add_section_skills skills extracted).
Proof.
  unfold ResumeParser.add_section_skills.
  revert skills. induction extracted as [|x xs IH]; intros skills Hs; simpl.
  - assumption.
  - apply IH.
    destruct (2 <? length (lower (strip x))) eqn:Hlen; simpl; [|assumption].
    destruct (negb _); [|assumption].
    apply Forall_app. split; [assumption|].
    constructor; [|constructor].
    apply Nat.ltb_lt in Hlen. rewrite length_lower in Hlen.
    apply wf_skill_lower_strip. assumption.
Qed.

Lemma wf_kept_tokens extracted : Forall wf_skill (Patterns.kept_tokens extracted).
Proof.
  unfold Patterns.kept_tokens.
  induction extracted as [|x xs IH]; simpl; [constructor|].
  destruct (negb _ && (2 <? length (strip x))) eqn:Hk; [|assumption].
  simpl. constructor; [|assumption].
  apply andb_true_iff in Hk as [_ Hlen]. apply Nat.ltb_lt in Hlen.
  apply wf_skill_lower_strip. assumption.
Qed.

Section Extractors.
Context `{PySet}.

Lemma Forall_list_of_set_of (P : str -> Prop) xs :
  Forall P xs -> Forall P (list_of_set (set_of xs)).
Proof.
  rewrite !Forall_forall. intros Hxs s Hs.
  apply Hxs. apply elem_of_set_of, elem_of_list_of_set. assumption.
Qed.

Lemma resume_skills_wf text :
  Forall wf_skill (ResumeParser._extract_skills text) /\
  NoDup (ResumeParser._extract_skills text).
Proof.
  unfold ResumeParser._extract_skills. split; [|apply NoDup_list_of_set].
  apply Forall_list_of_set_of.
  destruct (Re.search _ _).
  - apply wf_add_section_skills, Forall_list_filter, wf_tech_skills.
  - apply Forall_list_filter, wf_tech_skills.
Qed.

Lemma must_have_skills_wf text :
  Forall wf_skill (JobDescriptionParser._extract_must_have_skills text) /\
  NoDup (JobDescriptionParser._extract_must_have_skills text).
Proof.
  unfold JobDescriptionParser._extract_must_have_skills.
  split; [|eapply sublist_NoDup; [apply NoDup_list_of_set | apply sublist_take]].
  apply Forall_take, Forall_list_of_set_of.
  destruct (Patterns.first_match _ _) as [m|]; cbv zeta.
  - pose proof (wf_kept_tokens (Re.split Patterns.separators (Patterns.group m))) as Hk.
    destruct (Patterns.kept_tokens _); [|assumption].
    apply Forall_list_filter, wf_fallback_skills.
  - apply Forall_list_filter, wf_fallback_skills.
Qed.

Lemma good_to_have_skills_wf text :
  Forall wf_skill (JobDescriptionParser._extract_good_to_have_skills text) /\
  NoDup (JobDescriptionParser._extract_good_to_have_skills text).
Proof.
  unfold JobDescriptionParser._extract_good_to_have_skills.
  split; [|eapply sublist_NoDup; [apply NoDup_list_of_set | apply sublist_take]].
  apply Forall_take, Forall_list_of_set_of.
  destruct (Patterns.first_match _ _) as [m|]; cbv zeta.
  - apply wf_kept_tokens.
  - constructor.
Qed.
(** C10: every skill returned by the three skill extractors (resume
    skills, must-have skills, good-to-have skills) equals its own
    lowercasing and has at least three characters, and no extractor
    returns a list with a duplicate. *)
Theorem skill_extractors_invariant text :
  (Forall wf_skill (ResumeParser._extract_skills text) /\
   NoDup (ResumeParser._extract_skills text)) /\
  (Forall wf_skill (JobDescriptionParser._extract_must_have_skills text) /\
   NoDup (JobDescriptionParser._extract_must_have_skills text)) /\
  (Forall wf_skill (JobDescriptionParser._extract_good_to_have_skills text) /\
   NoDup (JobDescriptionParser._extract_good_to_have_skills text)).
Proof.
  split; [apply resume_skills_wf|].
  split; [apply must_have_skills_wf | apply good_to_have_skills_wf].
Qed.
End Extractors.

(** ** The score and the verdict *)

Section Scoring.
Local Open Scope Q_scope.

Lemma min100_proper x y : x == y -> min100 x == min100 y.
Proof.
  intros Hxy. unfold min100. rewrite Hxy.
  destruct (Qle_bool 100 y); [reflexivity | assumption].
Qed.

Lemma round_half_even_proper x y : x == y -> round_half_even x = round_half_even y.
Proof.
  intros Hxy. unfold round_half_even.
  rewrite (Qfloor_comp _ _ Hxy).
  assert (Hc : (x - inject_Z (Qfloor y) ?= 1 # 2) = (y - inject_Z (Qfloor y) ?= 1 # 2)).
  { apply Qcompare_comp; [rewrite Hxy|]; reflexivity. }
  rewrite Hc. reflexivity.
Qed.

Lemma round2_proper x y : x == y -> round2 x = round2 y.
Proof.
  intros Hxy. unfold round2.
  assert (H : x * 100 == y * 100) by (rewrite Hxy; reflexivity).
  rewrite (round_half_even_proper _ _ H). reflexivity.
Qed.

Lemma round_half_even_bounds q (lo hi : Z) :
  inject_Z lo <= q -> q <= inject_Z hi ->
  (lo <= round_half_even q <= hi)%Z.
Proof.
  intros Hlo Hhi. unfold round_half_even.
  pose proof (Qfloor_le q) as Hfl.
  pose proof (Qlt_floor q) as Hlt.
  assert (Hf1 : (lo <= Qfloor q)%Z).
  { rewrite <- (Qfloor_Z lo). apply Qfloor_resp_le. assumption. }
  assert (Hf2 : (Qfloor q <= hi)%Z).
  { rewrite <- (Qfloor_Z hi). apply Qfloor_resp_le. assumption. }
  destruct (Z.eq_dec (Qfloor q) hi) as [Heq|Hne].
  - assert (Hq : q == inject_Z (Qfloor q)).
    { apply Qle_antisym; [rewrite Heq|]; assumption. }
    assert (Hc : (q - inject_Z (Qfloor q) ?= 1 # 2) = Lt).
    { apply -> Qlt_alt.
      assert (Hz : q - inject_Z (Qfloor q) == 0) by (rewrite <- Hq; ring).
      rewrite Hz. reflexivity. }
    rewrite Hc. lia.
  - destruct (q - inject_Z (Qfloor q) ?= 1 # 2); [destruct (Z.even _)| |]; lia.
Qed.









Lemma raw_score_sum_of (mm ms mg gs : gset str) r :
  RelevanceEvaluator.raw_score mm ms mg gs r
  == sum_of (size mm) (size ms) (size mg) (size gs) r.
Proof.
  unfold RelevanceEvaluator.raw_score, sum_of, RelevanceEvaluator.nonempty_set.
  assert (Hcov : forall (m s : gset str) w,
             (if negb (bool_decide (s = ∅)) then Qnat (size m) / Qnat (size s) * w else 0)
             = coverage (size m) (size s) w).
  { intros m s w. destruct (decide (s = ∅)) as [->|Hne].
    - rewrite bool_decide_eq_true_2 by reflexivity. reflexivity.
    - rewrite bool_decide_eq_false_2 by assumption. simpl.
      destruct (size s) eqn:Hs; [|reflexivity].
      apply size_empty_iff in Hs. exfalso. apply Hne. apply leibniz_equiv. assumption. }
  rewrite <- !Hcov.
  destruct (negb (bool_decide (ms = ∅))), (negb (bool_decide (gs = ∅))),
    (Resume.experience r), (Resume.education r), (Resume.projects r); simpl; ring.
Qed.




Lemma verdict_of_proper x y : x == y -> verdict_of x = verdict_of y.
Proof.
  intros Hxy. unfold verdict_of.
  rewrite (Qleb_comp _ _ (reflexivity 75) _ _ Hxy).
  rewrite (Qleb_comp _ _ (reflexivity 50) _ _ Hxy). reflexivity.
Qed.

Lemma verdict_of_spec s :
  (verdict_of s = lit "HIGH" <-> 75 <= s) /\
  (verdict_of s = lit "MEDIUM" <-> 50 <= s /\ s < 75) /\
  (verdict_of s = lit "LOW" <-> s < 50).
Proof.
  unfold verdict_of.
  destruct (Qle_bool 75 s) eqn:H75; [|destruct (Qle_bool 50 s) eqn:H50].
  - apply Qle_bool_iff in H75.
    split; [tauto|]. split; split; try discriminate.
    + intros [_ Hlt]. exfalso. apply (Qlt_not_le _ _ Hlt H75).
    + intros Hlt. exfalso. apply (Qlt_not_le s 50 Hlt).
      apply Qle_trans with 75; [discriminate | assumption].
  - apply Qle_bool_iff in H50.
    assert (Hlt : s < 75).
    { apply Qnot_le_lt. intros Hle. apply Qle_bool_iff in Hle. congruence. }
    split; [|split].
    + split; [discriminate|]. intros Hle. exfalso. apply (Qlt_not_le _ _ Hlt Hle).
    + tauto.
    + split; [discriminate|]. intros Hlt'. exfalso. apply (Qlt_not_le _ _ Hlt' H50).
  - assert (Hlt : s < 50).
    { apply Qnot_le_lt. intros Hle. apply Qle_bool_iff in Hle. congruence. }
    split; [|split].
    + split; [discriminate|]. intros Hle. exfalso. apply (Qlt_not_le s 50 Hlt).
      apply Qle_trans with 75; [discriminate | assumption].
    + split; [discriminate|]. intros [Hle _]. exfalso. apply (Qlt_not_le _ _ Hlt Hle).
    + tauto.
Qed.



Lemma size_lowered_nil : size (lowered []) = 0%nat.
Proof.
  unfold lowered, set_of. change (map lower []) with (@nil str).
  rewrite list_to_set_nil. apply size_empty.
Qed.

Lemma size_lowered_distinct l :
  NoDup (map lower l) -> size (lowered l) = length l.
Proof.
  intros Hnd. unfold lowered, set_of.
  rewrite size_list_to_set by assumption. apply length_map.
Qed.

(** On a job whose skill lists have no two entries with the same
    lowercasing, as the parser produces them, the two sums coincide. *)
Lemma claimed_sum_distinct r j :
  NoDup (map lower (JobDescription.must_have_skills j)) ->
  NoDup (map lower (JobDescription.good_to_have_skills j)) ->
  claimed_sum r j = distinct_sum r j.
Proof.
  intros Hm Hg. unfold claimed_sum, distinct_sum.
  rewrite !size_lowered_distinct by assumption. reflexivity.
Qed.

Section Evaluate.
Context `{PySet}.
Import Examples.

Lemma relevance_score_eq r j :
  EvaluationResult.relevance_score (RelevanceEvaluator.evaluate r j)
  = round2 (unrounded r j).
Proof.
  unfold RelevanceEvaluator.evaluate, unrounded, distinct_sum. simpl.
  apply round2_proper, min100_proper, raw_score_sum_of.
Qed.

Lemma verdict_eq r j :
  EvaluationResult.verdict (RelevanceEvaluator.evaluate r j)
  = verdict_of (unrounded r j).
Proof.
  unfold RelevanceEvaluator.evaluate, unrounded, distinct_sum. simpl.
  symmetry. apply verdict_of_proper, min100_proper. symmetry.
  apply raw_score_sum_of.
Qed.




(** C3: the matched skills are lowercased must-have or good-to-have
    skills of the job; the missing skills are lowercased must-have skills,
    none of them is a lowercased skill of the resume, and a good-to-have
    skill that is not also a must-have skill is never among them. *)
Theorem matched_missing_sets r j :
  let e := RelevanceEvaluator.evaluate r j in
  let must := map lower (JobDescription.must_have_skills j) in
  let good := map lower (JobDescription.good_to_have_skills j) in
  let have := map lower (Resume.skills r) in
  EvaluationResult.matched_skills e ⊆ must ++ good /\
  EvaluationResult.missing_skills e ⊆ must /\
  (forall s, s ∈ EvaluationResult.missing_skills e -> s ∉ have) /\
  (forall s, s ∈ good -> s ∉ must -> s ∉ EvaluationResult.missing_skills e).
Proof.
  intros e must good have. subst e must good have.
  unfold RelevanceEvaluator.evaluate. simpl.
  assert (Hmiss : forall s,
    s ∈ list_of_set
          (set_of (map lower (JobDescription.must_have_skills j))
           ∖ set_of (map lower (Resume.skills r))) ->
    s ∈ map lower (JobDescription.must_have_skills j) /\
    s ∉ map lower (Resume.skills r)).
  { intros s Hs. apply elem_of_list_of_set, elem_of_difference in Hs.
    rewrite !elem_of_set_of in Hs. exact Hs. }
  repeat split.
  - intros s Hs. apply elem_of_list_of_set, elem_of_union in Hs.
    rewrite !elem_of_intersection, !elem_of_set_of in Hs.
    apply elem_of_app. tauto.
  - intros s Hs. apply Hmiss. assumption.
  - intros s Hs. apply Hmiss. assumption.
  - intros s _ Hnot Hs. apply Hnot, Hmiss. assumption.
Qed.

(** C4: a resume with experience, education and projects, evaluated
    against a job without must-have and without good-to-have skills,
    scores exactly 30 and gets the verdict LOW. *)
Theorem sections_only_score r j :
  Resume.experience r <> [] ->
  Resume.education r <> [] ->
  Resume.projects r <> [] ->
  JobDescription.must_have_skills j = [] ->
  JobDescription.good_to_have_skills j = [] ->
  EvaluationResult.relevance_score (RelevanceEvaluator.evaluate r j) == 30 /\
  EvaluationResult.verdict (RelevanceEvaluator.evaluate r j) = lit "LOW".
Proof.
  intros Hexp Hedu Hproj Hmust Hgood.
  rewrite relevance_score_eq, verdict_eq.
  assert (Hs : unrounded r j == 30).
  { unfold unrounded, distinct_sum, sum_of. rewrite Hmust, Hgood.
    rewrite size_lowered_nil. unfold coverage.
    destruct (Resume.experience r), (Resume.education r), (Resume.projects r);
      try congruence.
    simpl. reflexivity. }
  rewrite (round2_proper _ _ Hs), (verdict_of_proper _ _ Hs).
  split; reflexivity.
Qed.
End Evaluate.
End Scoring.

Section ScoringExamples.
Local Open Scope Q_scope.
Import Examples.




Lemma matched_missing_sets_witness :
  lit "docker" ∉ map lower (Resume.skills resume_backend).
Proof.
  destruct (matched_missing_sets resume_backend job_backend) as (_ & _ & Hmiss & _).
  apply Hmiss. apply (bool_decide_unpack _). vm_compute. exact I.
Defined.

Lemma sections_only_score_witness :
  Resume.experience resume_sections <> [] /\
  Resume.education resume_sections <> [] /\
  Resume.projects resume_sections <> [] /\
  JobDescription.must_have_skills job_no_skills = [] /\
  JobDescription.good_to_have_skills job_no_skills = [] /\
  EvaluationResult.relevance_score
    (RelevanceEvaluator.evaluate resume_sections job_no_skills) == 30 /\
  EvaluationResult.verdict
    (RelevanceEvaluator.evaluate resume_sections job_no_skills) = lit "LOW".
Proof.
  split; [discriminate|]. split; [discriminate|]. split; [discriminate|].
  split; [reflexivity|]. split; [reflexivity|].
  apply (sections_only_score resume_sections job_no_skills);
    (discriminate || reflexivity).
Defined.
End ScoringExamples.

(** ** Parsing a resume twice *)

(** C5: two calls of [ResumeParser.parse] on the same text, whatever the
    time of each call, return records with the same name, email, skills,
    experience, education, projects and raw text; the identifier of each
    is the first 12 characters of the digest of the first 100 characters
    of the cleaned text, an underscore and the time of that call, so it
    alone may differ. *)
Theorem parse_twice_same_fields `{PySet} (md5 : str -> str) (now1 now2 text : str) :
  let r1 := ResumeParser.parse md5 now1 text in
  let r2 := ResumeParser.parse md5 now2 text in
  Resume.name r1 = Resume.name r2 /\
  Resume.email r1 = Resume.email r2 /\
  Resume.skills r1 = Resume.skills r2 /\
  Resume.experience r1 = Resume.experience r2 /\
  Resume.education r1 = Resume.education r2 /\
  Resume.projects r1 = Resume.projects r2 /\
  Resume.raw_text r1 = Resume.raw_text r2 /\
  Resume.id r1 = take 12 (md5 (take 100 (Resume.raw_text r1) ++ lit "_" ++ now1)) /\
  Resume.id r2 = take 12 (md5 (take 100 (Resume.raw_text r2) ++ lit "_" ++ now2)).
Proof. cbv zeta. unfold ResumeParser.parse. simpl. repeat split. Qed.

(** The identifiers of two calls differ as soon as the digests do. *)
Lemma parse_twice_ids_differ :
  Resume.id (ResumeParser.parse Examples.toy_digest (lit "12:00:00") (lit "Ada"))
  <> Resume.id (ResumeParser.parse Examples.toy_digest (lit "12:00:01") (lit "Ada")).
Proof. vm_compute. discriminate. Qed.

(** ** The pages and the session *)

Section PageFacts.
Import App.
Variable UploadedFile : Type.
Variable extract_text : UploadedFile -> list notice * outcome str.
Variable job_parser_parse : str -> str -> str -> outcome JobDescription.t.
Variable resume_parser_parse : str -> outcome Resume.t.
Variable evaluator_evaluate :
  Resume.t -> JobDescription.t -> outcome EvaluationResult.t.
Variable render_job : JobDescription.t -> outcome unit.
Variable display_evaluation_result :
  EvaluationResult.t -> Resume.t -> JobDescription.t -> outcome unit.

Local Abbreviation resume_action :=
  (upload_resume UploadedFile extract_text resume_parser_parse
     evaluator_evaluate display_evaluation_result).
Local Abbreviation job_action :=
  (upload_job_description job_parser_parse render_job).

(** The resume page never touches the list of job descriptions, and
    the job page never touches the list of evaluations. *)
Lemma upload_resume_keeps_jobs idx file clicked pg :
  job_descriptions (session_state (resume_action idx file clicked pg).1)
  = job_descriptions (session_state pg).
Proof.
  unfold upload_resume, mbind, M_bind, get_session. simpl.
  destruct (truthy (job_descriptions (session_state pg))); simpl; [|reflexivity].
  destruct (job_descriptions (session_state pg) !! idx) as [job|]; [|reflexivity].
  destruct file as [file|]; [|reflexivity].
  destruct clicked; [|reflexivity].
  unfold try_except, emit, call, mbind, M_bind. simpl.
  destruct (extract_text file) as [ns [text|e]]; simpl; [|reflexivity].
  destruct (truthy text); simpl; [|reflexivity].
  destruct (resume_parser_parse text) as [r|e]; simpl; [|reflexivity].
  destruct (evaluator_evaluate r job) as [ev|e]; simpl; [|reflexivity].
  destruct (display_evaluation_result ev r job); reflexivity.
Qed.

(** C9: when [ResumeParser.parse] or [RelevanceEvaluator.evaluate]
    raises in the resume page, the page returns normally with an error
    notice and the session is as before, so nothing is appended to the
    evaluations; when the company name or the text is missing, or
    [JobDescriptionParser.parse] raises, the job page returns normally and
    the session is as before, so no job description is appended. *)
Theorem failed_action_commits_nothing :
  (forall idx file pg job ns text,
     job_descriptions (session_state pg) !! idx = Some job ->
     extract_text file = (ns, Ok text) ->
     text <> [] ->
     (exists e, resume_parser_parse text = Raise e) \/
     (exists r e, resume_parser_parse text = Ok r /\
                  evaluator_evaluate r job = Raise e) ->
     exists e,
       resume_action idx (Some file) true pg =
         (Page (session_state pg)
               (notices pg ++ ns ++ [Error (lit "Error processing resume: " ++ e)]),
          Ok tt)) /\
  (forall company location jd_text pg,
     company = [] \/ jd_text = [] \/
     (exists e, job_parser_parse jd_text company location = Raise e) ->
     exists msg,
       job_action company location jd_text true pg =
         (Page (session_state pg) (notices pg ++ [Error msg]), Ok tt)).
Proof.
  split.
  - intros idx file pg job ns text Hjob Hext Htext Hfail.
    unfold upload_resume, mbind, M_bind, get_session. simpl.
    destruct (job_descriptions (session_state pg)) as [|j0 js] eqn:Hjs;
      [rewrite lookup_nil in Hjob; discriminate|].
    simpl. rewrite Hjob.
    unfold try_except, emit, call, mbind, M_bind. simpl. rewrite Hext. simpl.
    destruct text as [|c text]; [congruence|]. simpl.
    destruct Hfail as [[e He] | (r & e & Hr & He)].
    + rewrite He. exists e. unfold st_error, show. simpl.
      rewrite <- app_assoc. reflexivity.
    + rewrite Hr. simpl. rewrite He. exists e. unfold st_error, show. simpl.
      rewrite <- app_assoc. reflexivity.
  - intros company location jd_text pg Hfail.
    unfold upload_job_description.
    destruct company as [|c company]; simpl.
    { eexists. reflexivity. }
    destruct jd_text as [|d jd_text]; simpl.
    { eexists. reflexivity. }
    destruct Hfail as [Hc | [Ht | [e He]]]; [discriminate Hc | discriminate Ht |].
    unfold try_except, call, mbind, M_bind. rewrite He.
    eexists. reflexivity.
Qed.
End PageFacts.

Section PageExamples.
Import App Examples.

Lemma failed_action_commits_nothing_witness :
  session_state
    (upload_resume str extract_ok parse_raises evaluate_ok render_ok
       0 (Some (lit "Ada Lovelace")) true page_one_job).1
  = session_state page_one_job /\
  session_state
    (upload_resume str extract_ok parse_ok evaluate_raises render_ok
       0 (Some (lit "Ada Lovelace")) true page_one_job).1
  = session_state page_one_job /\
  session_state
    (upload_job_description job_parse_raises render_job_ok
       (lit "Acme") (lit "Pune") (lit "Role: Backend Developer") true
       page_one_job).1
  = session_state page_one_job.
Proof.
  split; [|split].
  - destruct (failed_action_commits_nothing str extract_ok job_parse_raises
                parse_raises evaluate_ok render_job_ok render_ok) as [Hresume _].
    destruct (Hresume 0 (lit "Ada Lovelace") page_one_job job_backend []
                (lit "Ada Lovelace")) as [e He].
    + reflexivity.
    + reflexivity.
    + discriminate.
    + left. eexists. reflexivity.
    + rewrite He. reflexivity.
  - destruct (failed_action_commits_nothing str extract_ok job_parse_raises
                parse_ok evaluate_raises render_job_ok render_ok) as [Hresume _].
    destruct (Hresume 0 (lit "Ada Lovelace") page_one_job job_backend []
                (lit "Ada Lovelace")) as [e He].
    + reflexivity.
    + reflexivity.
    + discriminate.
    + right. eexists _, _. split; reflexivity.
    + rewrite He. reflexivity.
  - destruct (failed_action_commits_nothing str extract_ok job_parse_raises
                parse_ok evaluate_ok render_job_ok render_ok) as [_ Hjob].
    destruct (Hjob (lit "Acme") (lit "Pune") (lit "Role: Backend Developer")
                page_one_job) as [msg Hmsg].
    + right. right. eexists. reflexivity.
    + rewrite Hmsg. reflexivity.
Defined.

(** With collaborators that return, the same run appends the
    evaluation. *)
Lemma successful_action_appends :
  evaluations (session_state
    (upload_resume str extract_ok parse_ok evaluate_ok render_ok
       0 (Some (lit "Ada Lovelace")) true page_one_job).1)
  = [RelevanceEvaluator.evaluate resume_backend job_backend].
Proof. reflexivity. Qed.
End PageExamples.

(** ** The matcher *)

Section Matcher.
Import Re.

(** Whatever [exec] finds is a match: the position handed to the
    continuation is reached by [run]. *)
Lemma run_star_sound g r k
    (IH : forall k st res, exec r k st = Some res ->
            exists st', run r st st' /\ k st' = Some res) :
  forall n st res,
    run_star g (exec r) k n st = Some res ->
    exists st', run (Star g r) st st' /\ k st' = Some res.
Proof.
  induction n as [|n IHn]; intros st res Hres; simpl in Hres.
  - exists st. split; [constructor | exact Hres].
  - assert (Hiter : forall res',
              exec r (fun st' => if length (after st') <? length (after st)
                                 then run_star g (exec r) k n st' else None) st
              = Some res' ->
              exists st', run (Star g r) st st' /\ k st' = Some res').
    { intros res' Hex. apply IH in Hex as (st1 & Hrun1 & Hk1).
      destruct (length (after st1) <? length (after st)); [|discriminate].
      apply IHn in Hk1 as (st2 & Hrun2 & Hk2).
      exists st2. split; [econstructor; eassumption | exact Hk2]. }
    assert (Hstop : forall res', k st = Some res' ->
              exists st', run (Star g r) st st' /\ k st' = Some res').
    { intros res' Hk. exists st. split; [constructor | exact Hk]. }
    destruct g; unfold first_of in Hres.
    + destruct (exec r _ st) as [x|] eqn:Hex.
      * inversion Hres; subst x. apply Hiter. reflexivity.
      * apply Hstop. exact Hres.
    + destruct (k st) as [x|] eqn:Hk.
      * inversion Hres; subst x. apply Hstop. reflexivity.
      * apply Hiter. exact Hres.
Qed.

Lemma exec_sound r :
  forall k st res,
    exec r k st = Some res -> exists st', run r st st' /\ k st' = Some res.
Proof.
  induction r as [|p|r1 IH1 r2 IH2|r1 IH1 r2 IH2|g r IH|r IH| |];
    intros k st res Hres; simpl in Hres.
  - exists st. split; [constructor | exact Hres].
  - destruct st as [pre s cap]. simpl in Hres.
    destruct s as [|c s]; [discriminate|].
    destruct (p c) eqn:Hp; [|discriminate].
    eexists. split; [constructor; exact Hp | exact Hres].
  - apply IH1 in Hres as (st1 & Hrun1 & Hres).
    apply IH2 in Hres as (st2 & Hrun2 & Hres).
    exists st2. split; [econstructor; eassumption | exact Hres].
  - unfold first_of in Hres. destruct (exec r1 k st) as [x|] eqn:Hex.
    + inversion Hres; subst x. apply IH1 in Hex as (st1 & Hrun1 & Hk).
      exists st1. split; [apply run_alt_l; exact Hrun1 | exact Hk].
    + apply IH2 in Hres as (st1 & Hrun1 & Hk).
      exists st1. split; [apply run_alt_r; exact Hrun1 | exact Hk].
  - eapply run_star_sound; eassumption.
  - apply IH in Hres as (st1 & Hrun1 & Hk).
    eexists. split; [constructor; exact Hrun1 | exact Hk].
  - destruct (at_boundary st) eqn:Hb; [|discriminate].
    exists st. split; [constructor; exact Hb | exact Hres].
  - destruct (after st) eqn:Ha; [|discriminate].
    exists st. split; [constructor; exact Ha | exact Hres].
Qed.

Lemma spans_refl a : spans a a [].
Proof. split; reflexivity. Qed.

Lemma spans_trans a b c s1 s2 :
  spans a b s1 -> spans b c s2 -> spans a c (s1 ++ s2).
Proof.
  intros [Ha1 Hb1] [Ha2 Hb2]. split.
  - rewrite Ha1, Ha2. apply app_assoc.
  - rewrite Hb2, Hb1, rev_app_distr, app_assoc. reflexivity.
Qed.


Lemma consumed_spans a b s : spans a b s -> consumed a b = s.
Proof.
  intros [_ Hb]. unfold consumed. rewrite Hb, length_app, length_rev.
  replace (length s + length (before a) - length (before a)) with (length s) by lia.
  rewrite <- (length_rev s), take_app_length. apply rev_involutive.
Qed.



Lemma run_seq_inv r1 r2 a c :
  run (Seq r1 r2) a c -> exists b, run r1 a b /\ run r2 b c.
Proof. inversion 1; subst. eauto. Qed.

Lemma run_chr_inv p a b :
  run (Chr p) a b ->
  exists c, p c = true /\ spans a b [c] /\ captured b = captured a.
Proof.
  inversion 1; subst. exists c. split; [assumption|].
  split; [split|]; reflexivity.
Qed.

Lemma run_star_class g p a b :
  run (Star g (Chr p)) a b ->
  exists s, forallb p s = true /\ spans a b s /\ captured b = captured a.
Proof.
  intros Hrun. remember (Star g (Chr p)) as r eqn:Hr.
  induction Hrun as [| | | | |g' r' st|g' r' a b c Hab _ Hbc IH| | |];
    try discriminate; inversion Hr; subst.
  - exists []. split; [reflexivity|]. split; [apply spans_refl | reflexivity].
  - destruct (IH eq_refl) as (s & Hs & Hsp & Hcap).
    apply run_chr_inv in Hab as (x & Hx & Hspx & Hcapx).
    exists (x :: s). split; [simpl; rewrite Hx; exact Hs|].
    split; [apply (spans_trans a b c [x] s); assumption | congruence].
Qed.



Lemma match_at_sound r pre rest m :
  match_at r pre rest = Some m ->
  exists st', run r (MState pre rest None) st' /\
              m = Match (rev pre) (consumed (MState pre rest None) st')
                        (captured st') (after st').
Proof.
  unfold match_at. intros Hm.
  destruct (exec r Some (MState pre rest None)) as [st'|] eqn:Hex; [|discriminate].
  apply exec_sound in Hex as (st1 & Hrun & Hk). inversion Hk; subst st1.
  exists st'. split; [exact Hrun | congruence].
Qed.







Lemma spans_same_text a b b' s :
  spans a b s -> before b' = before b -> after b' = after b -> spans a b' s.
Proof. intros [Ha Hb] Hbe Haf. split; congruence. Qed.





End Matcher.

(** ** The matcher finds the matches there are *)

Section MatcherComplete.
Import Re.












End MatcherComplete.

Section SectionFound.
Import Re.





End SectionFound.

(** ** The experience section of a resume *)

Lemma starts_with_app w s : starts_with w (w ++ s) = true.
Proof.
  induction w as [|c w IH]; simpl; [reflexivity|].
  rewrite bool_decide_eq_true_2 by reflexivity. exact IH.
Qed.

Lemma contains_cons w c s :
  contains w (c :: s) = starts_with w (c :: s) || contains w s.
Proof. reflexivity. Qed.

Lemma contains_starts_with w s : starts_with w s = true -> contains w s = true.
Proof. intros Hs. destruct s; simpl; rewrite Hs; reflexivity. Qed.

Lemma contains_app w pre post : contains w (pre ++ w ++ post) = true.
Proof.
  induction pre as [|c pre IH].
  - change ([] ++ w ++ post) with (w ++ post).
    apply contains_starts_with, starts_with_app.
  - change ((c :: pre) ++ w ++ post) with (c :: (pre ++ w ++ post)).
    rewrite contains_cons, IH. apply orb_true_r.
Qed.




(** ** Cleaning a text *)

Section CleanText.
Import Re Spec.

Lemma take_drop_while p s : take_while p s ++ drop_while p s = s.
Proof.
  induction s as [|c s IH]; simpl; [reflexivity|].
  destruct (p c); simpl; [rewrite IH|]; reflexivity.
Qed.

(** A greedy star of a class, when nothing has to follow, takes the
    longest run of the class. *)
Lemma run_star_class_accept p n :
  forall pre s cap,
    length s <= n ->
    run_star true (exec (Chr p)) Some n (MState pre s cap)
    = Some (MState (rev (take_while p s) ++ pre) (drop_while p s) cap).
Proof.
  induction n as [|n IH]; intros pre s cap Hlen.
  - destruct s; [reflexivity | simpl in Hlen; lia].
  - destruct s as [|c s]; [reflexivity|].
    simpl. destruct (p c) eqn:Hp; [|reflexivity].
    simpl. rewrite (proj2 (Nat.ltb_lt _ _)) by lia.
    rewrite IH by (simpl in Hlen; lia). simpl.
    rewrite <- app_assoc. reflexivity.
Qed.

Lemma exec_seq r1 r2 k st : exec (Seq r1 r2) k st = exec r1 (exec r2 k) st.
Proof. reflexivity. Qed.

Lemma exec_chr_cons p k pre c s cap :
  exec (Chr p) k (MState pre (c :: s) cap)
  = if p c then k (MState (c :: pre) s cap) else None.
Proof. reflexivity. Qed.

Lemma exec_chr_nil p k pre cap : exec (Chr p) k (MState pre [] cap) = None.
Proof. reflexivity. Qed.

Lemma exec_star g r k st :
  exec (Star g r) k st = run_star g (exec r) k (length (after st)) st.
Proof. reflexivity. Qed.



Lemma match_at_plus_class p pre rest :
  match_at (Plus true (Chr p)) pre rest
  = match rest with
    | c :: s =>
        if p c
        then Some (Match (rev pre) (c :: take_while p s) None (drop_while p s))
        else None
    | [] => None
    end.
Proof.
  unfold match_at, Plus. destruct rest as [|c s]; [reflexivity|].
  rewrite exec_seq, exec_chr_cons. destruct (p c) eqn:Hp; [|reflexivity].
  rewrite exec_star. cbn [after].
  rewrite run_star_class_accept by lia. cbn [captured after].
  rewrite (consumed_spans _ _ (c :: take_while p s)); [reflexivity|].
  split; simpl.
  - rewrite take_drop_while. reflexivity.
  - rewrite <- app_assoc. reflexivity.
Qed.

Lemma tokens_ws_collapse rest :
  (forall pre, replace_tokens (lit " ") (tokens (Plus true ws) 0 pre rest) = collapse false rest) /\
  (forall pre, replace_tokens (lit " ") (tokens (Plus true ws) (length (take_while isspace rest)) pre rest)
               = collapse true rest).
Proof.
  induction rest as [|c s [IH0 IHk]].
  - split; intros pre; reflexivity.
  - assert (H0 : forall pre,
              replace_tokens (lit " ") (tokens (Plus true ws) 0 pre (c :: s)) = collapse false (c :: s)).
    { intros pre. simpl tokens. unfold ws. rewrite match_at_plus_class.
      simpl collapse. destruct (isspace c) eqn:Hc.
      - simpl length. unfold replace_tokens. simpl.
        f_equal. apply IHk.
      - unfold replace_tokens. simpl. f_equal. apply IH0. }
    split; [exact H0|].
    intros pre. simpl take_while. simpl collapse.
    destruct (isspace c) eqn:Hc.
    + simpl. apply IHk.
    + specialize (H0 pre). simpl collapse in H0. rewrite Hc in H0. exact H0.
Qed.

Lemma sub_ws_collapse text : sub (Plus true ws) (lit " ") text = collapse false text.
Proof. apply (proj1 (tokens_ws_collapse text)). Qed.

Lemma collapse_true_head s : starts_with_space (collapse true s) = false.
Proof.
  induction s as [|c s IH]; simpl; [reflexivity|].
  destruct (isspace c) eqn:Hc; [exact IH | simpl; exact Hc].
Qed.

Lemma space_isspace : isspace space = true.
Proof. reflexivity. Qed.

Lemma collapse_loosely_spaced s : forall b, loosely_spaced (collapse b s) = true.
Proof.
  induction s as [|c s IH]; intros b; simpl; [reflexivity|].
  destruct (isspace c) eqn:Hc.
  - destruct b; [apply IH|].
    simpl. rewrite collapse_true_head, IH. reflexivity.
  - simpl. rewrite Hc, IH. reflexivity.
Qed.

Lemma lstrip_loosely_spaced s :
  loosely_spaced s = true -> loosely_spaced (lstrip s) = true.
Proof.
  unfold lstrip. induction s as [|c s IH]; simpl; [reflexivity|].
  intros Hs. apply andb_true_iff in Hs as [Hc Hs].
  destruct (isspace c) eqn:Hsp; [apply IH, Hs|].
  simpl. rewrite Hsp, Hs. reflexivity.
Qed.

Lemma lstrip_head s : starts_with_space (lstrip s) = false.
Proof.
  unfold lstrip. induction s as [|c s IH]; simpl; [reflexivity|].
  destruct (isspace c) eqn:Hc; [exact IH | simpl; exact Hc].
Qed.

Lemma lstrip_id s : starts_with_space s = false -> lstrip s = s.
Proof. unfold lstrip. destruct s as [|c s]; simpl; [reflexivity|]. intros ->. reflexivity. Qed.

Lemma drop_while_app p a b :
  drop_while p (a ++ b)
  = if forallb p a then drop_while p b else drop_while p a ++ b.
Proof.
  induction a as [|c a IH]; simpl; [reflexivity|].
  destruct (p c); simpl; [exact IH | reflexivity].
Qed.

Lemma forallb_rev p (s : str) : forallb p (rev s) = forallb p s.
Proof.
  induction s as [|c s IH]; simpl; [reflexivity|].
  rewrite forallb_app, IH. simpl. rewrite andb_true_r. apply andb_comm.
Qed.

(** [rstrip] from the left: the first character stays unless
    everything from it on is whitespace. *)
Lemma rstrip_cons c s :
  rstrip (c :: s)
  = if forallb isspace s
    then (if isspace c then [] else [c])
    else c :: rstrip s.
Proof.
  unfold rstrip. simpl rev. rewrite drop_while_app, forallb_rev.
  destruct (forallb isspace s).
  - simpl. destruct (isspace c); reflexivity.
  - rewrite rev_app_distr. reflexivity.
Qed.

Lemma rstrip_nil : rstrip [] = [].
Proof. reflexivity. Qed.

Lemma rstrip_head s :
  starts_with_space s = false -> starts_with_space (rstrip s) = false.
Proof.
  destruct s as [|c s]; [reflexivity|]. simpl. intros Hc.
  rewrite rstrip_cons, Hc. destruct (forallb isspace s); simpl; exact Hc.
Qed.

Lemma rstrip_first c s :
  isspace c = false ->
  match rstrip (c :: s) with [] => false | d :: _ => negb (isspace d) end = true.
Proof.
  intros Hc. rewrite rstrip_cons, Hc.
  destruct (forallb isspace s); simpl; rewrite Hc; reflexivity.
Qed.

Lemma rstrip_spaced s : loosely_spaced s = true -> spaced (rstrip s) = true.
Proof.
  induction s as [|c s IH]; [reflexivity|].
  simpl. intros Hs. apply andb_true_iff in Hs as [Hc Hs].
  specialize (IH Hs). rewrite rstrip_cons.
  destruct (forallb isspace s) eqn:Hall.
  - destruct (isspace c) eqn:Hsp; simpl; [reflexivity|]. rewrite Hsp. reflexivity.
  - simpl. rewrite IH, andb_true_r.
    destruct (isspace c) eqn:Hsp; [|reflexivity].
    apply andb_true_iff in Hc as [Hc Hnext]. rewrite Hc. simpl.
    destruct s as [|d s]; [discriminate|].
    simpl in Hnext. apply negb_true_iff in Hnext.
    apply rstrip_first. exact Hnext.
Qed.

Lemma clean_text_collapse text :
  ResumeParser._clean_text text = strip (collapse false text).
Proof. unfold ResumeParser._clean_text. rewrite sub_ws_collapse. reflexivity. Qed.

(** The cleaned text is normalized. *)
Lemma clean_text_normalized text : normalized (ResumeParser._clean_text text) = true.
Proof.
  rewrite clean_text_collapse. unfold strip, normalized.
  rewrite rstrip_spaced, rstrip_head; [reflexivity | apply lstrip_head |].
  apply lstrip_loosely_spaced, collapse_loosely_spaced.
Qed.





Lemma spaced_tail c s : spaced (c :: s) = true -> spaced s = true.
Proof. simpl. intros Hs. apply andb_true_iff in Hs as [_ Hs]. exact Hs. Qed.



Lemma split_go_one_field p s :
  forall acc, forallb (fun c => negb (p c)) s = true ->
              split_go p acc s = [rev acc ++ s].
Proof.
  induction s as [|c s IH]; intros acc Hs; simpl.
  - rewrite app_nil_r. reflexivity.
  - simpl in Hs. apply andb_true_iff in Hs as [Hc Hs].
    apply negb_true_iff in Hc. rewrite Hc, (IH _ Hs). simpl.
    rewrite <- app_assoc. reflexivity.
Qed.




(** *** The title of a job description *)


















End CleanText.

Section ParserExamples.
Import Examples.


(** The patterns are tried in order: "Position:" is found before
    "Role:" although "Role:" comes first in the text. *)
Example title_first_pattern_wins :
  JobDescriptionParser._extract_title
    (lit "Role: Lead Position: Backend Developer")
  = lit "Backend Developer".
Proof. vm_compute. reflexivity. Qed.

Example name_short_text :
  Resume.name (ResumeParser.parse toy_digest (lit "12:00:00") (lit " Ada   Lovelace "))
  = lit "Ada Lovelace".
Proof. vm_compute. reflexivity. Qed.

Example name_long_text :
  Resume.name
    (ResumeParser.parse toy_digest (lit "12:00:00")
       (lit "Ada Lovelace ada@example.com Skills: Python, SQL"))
  = lit "Unknown Candidate".
Proof. vm_compute. reflexivity. Qed.
End ParserExamples.

(** ** Parsed job descriptions *)

Section ParsedJobs.
Context `{PySet}.
Import Spec.

Lemma wf_skills_distinct l :
  Forall wf_skill l -> NoDup l -> NoDup (map lower l).
Proof.
  intros Hwf Hnd. replace (map lower l) with l; [exact Hnd|].
  induction Hwf as [|s l [Hs _] _ IH]; [reflexivity|].
  simpl. rewrite Hs. f_equal. apply IH. apply NoDup_cons in Hnd as [_ Hnd]. exact Hnd.
Qed.

(** A parsed job has at most 15 must-have and at most 10 good-to-have
    skills, and no two entries of either list share a lowercasing: on
    parsed jobs the thresholds hold for the returned score, and the
    coverage over the length of the list is the coverage the code
    computes. *)
Lemma parsed_job_skill_lists (md5 : str -> str) (now text company location : str) :
  let j := JobDescriptionParser.parse md5 now text company location in
  length (JobDescription.must_have_skills j) <= 15 /\
  length (JobDescription.good_to_have_skills j) <= 10 /\
  NoDup (map lower (JobDescription.must_have_skills j)) /\
  NoDup (map lower (JobDescription.good_to_have_skills j)).
Proof.
  cbv zeta. unfold JobDescriptionParser.parse.
  cbn [JobDescription.must_have_skills JobDescription.good_to_have_skills].
  destruct (must_have_skills_wf (JobDescriptionParser._clean_text text)) as [Hm1 Hm2].
  destruct (good_to_have_skills_wf (JobDescriptionParser._clean_text text)) as [Hg1 Hg2].
  split; [unfold JobDescriptionParser._extract_must_have_skills;
          rewrite length_take; lia|].
  split; [unfold JobDescriptionParser._extract_good_to_have_skills;
          rewrite length_take; lia|].
  split; apply wf_skills_distinct; assumption.
Qed.

Lemma parsed_job_claimed_sum r (md5 : str -> str) (now text company location : str) :
  let j := JobDescriptionParser.parse md5 now text company location in
  claimed_sum r j = distinct_sum r j.
Proof.
  cbv zeta.
  destruct (parsed_job_skill_lists md5 now text company location) as (_ & _ & Hm & Hg).
  apply claimed_sum_distinct; assumption.
Qed.
End ParsedJobs.

(** ** The pages as the program wires them *)

Section WiredPages.
Context `{PySet}.
Import App.

(** With the parsers and the evaluator of the program, which return,
    a resume whose text is not empty adds exactly its evaluation, whether
    or not the rendering that follows raises. *)
Lemma resume_page_appends (md5 : str -> str) (now : str) (UploadedFile : Type)
    extract_text display idx (file : UploadedFile) pg job ns text :
  job_descriptions (session_state pg) !! idx = Some job ->
  extract_text file = (ns, Ok text) ->
  text <> [] ->
  session_state
    (resume_page md5 now UploadedFile extract_text display idx (Some file) true pg).1
  = Session (job_descriptions (session_state pg))
            (evaluations (session_state pg)
             ++ [RelevanceEvaluator.evaluate (ResumeParser.parse md5 now text) job]).
Proof.
  intros Hjob Hext Htext.
  unfold resume_page, upload_resume, mbind, M_bind, get_session. simpl.
  destruct (job_descriptions (session_state pg)) as [|j0 js] eqn:Hjs;
    [rewrite lookup_nil in Hjob; discriminate|].
  simpl. rewrite Hjob.
  unfold try_except, emit, call, mbind, M_bind. simpl. rewrite Hext. simpl.
  destruct text as [|c text]; [congruence|]. simpl.
  rewrite Hjs.
  destruct (display _ _ _); reflexivity.
Qed.

Lemma job_page_appends (md5 : str -> str) (now : str) render company location
    jd_text pg :
  company <> [] -> jd_text <> [] ->
  session_state (job_page md5 now render company location jd_text true pg).1
  = Session (job_descriptions (session_state pg)
             ++ [JobDescriptionParser.parse md5 now jd_text company location])
            (evaluations (session_state pg)).
Proof.
  intros Hc Ht. unfold job_page, upload_job_description.
  destruct company as [|c company]; [congruence|].
  destruct jd_text as [|d jd_text]; [congruence|]. simpl.
  unfold try_except, call, mbind, M_bind. simpl.
  destruct (render _); reflexivity.
Qed.
End WiredPages.

(** * Further properties *)

(** ** Whitespace *)

Section Whitespace.
Import Spec.

Lemma drop_while_idemp p s : drop_while p (drop_while p s) = drop_while p s.
Proof.
  induction s as [|c s IH]; simpl; [reflexivity|].
  destruct (p c) eqn:Hc; [exact IH | simpl; rewrite Hc; reflexivity].
Qed.

Lemma rstrip_idemp s : rstrip (rstrip s) = rstrip s.
Proof. unfold rstrip. rewrite rev_involutive, drop_while_idemp. reflexivity. Qed.

Lemma strip_idemp s : strip (strip s) = strip s.
Proof.
  unfold strip.
  rewrite (lstrip_id (rstrip (lstrip s))); [apply rstrip_idemp|].
  apply rstrip_head, lstrip_head.
Qed.

Lemma split_ws_go_all_space s :
  forallb isspace s = true ->
  forall acc, split_ws_go acc s = match acc with [] => [] | _ => [rev acc] end.
Proof.
  induction s as [|c s IH]; intros Hs acc; simpl; [reflexivity|].
  simpl in Hs. apply andb_true_iff in Hs as [Hc Hs]. rewrite Hc.
  destruct acc; rewrite (IH Hs); reflexivity.
Qed.

Lemma split_ws_go_lstrip s : split_ws_go [] (lstrip s) = split_ws_go [] s.
Proof.
  unfold lstrip. induction s as [|c s IH]; simpl; [reflexivity|].
  destruct (isspace c) eqn:Hc; [exact IH|]. simpl. rewrite Hc. reflexivity.
Qed.

Lemma split_ws_go_rstrip s : forall acc, split_ws_go acc (rstrip s) = split_ws_go acc s.
Proof.
  induction s as [|c s IH]; intros acc; [reflexivity|].
  rewrite rstrip_cons. destruct (forallb isspace s) eqn:Hall.
  - simpl. destruct (isspace c) eqn:Hc.
    + simpl. destruct acc; rewrite (split_ws_go_all_space _ Hall); reflexivity.
    + simpl. rewrite Hc. rewrite (split_ws_go_all_space _ Hall). reflexivity.
  - simpl. destruct (isspace c); [destruct acc|]; rewrite IH; reflexivity.
Qed.

Lemma split_ws_strip s : split_ws (strip s) = split_ws s.
Proof. unfold split_ws, strip. rewrite split_ws_go_rstrip. apply split_ws_go_lstrip. Qed.

Lemma split_ws_go_collapse s :
  (forall acc, split_ws_go acc (collapse false s) = split_ws_go acc s) /\
  split_ws_go [] (collapse true s) = split_ws_go [] s.
Proof.
  induction s as [|c s [IH1 IH2]]; [split; reflexivity|].
  split; [intros acc|]; simpl; destruct (isspace c) eqn:Hc; simpl.
  - destruct acc; rewrite IH2; reflexivity.
  - rewrite Hc. apply IH1.
  - exact IH2.
  - rewrite Hc. apply IH1.
Qed.

(** Cleaning keeps the words of the text. *)
Lemma split_ws_clean_text text :
  split_ws (ResumeParser._clean_text text) = split_ws text.
Proof.
  rewrite clean_text_collapse, split_ws_strip. unfold split_ws.
  apply (proj1 (split_ws_go_collapse text)).
Qed.

Lemma split_ws_go_nonempty s acc :
  (acc <> [] \/ (s <> [] /\ starts_with_space s = false)) ->
  split_ws_go acc s <> [].
Proof.
  revert acc. induction s as [|c s IH]; intros acc Hne; simpl.
  - destruct acc; [|discriminate]. destruct Hne as [? | [? _]]; congruence.
  - destruct (isspace c) eqn:Hc.
    + destruct acc; [|discriminate].
      destruct Hne as [? | [_ Hh]]; [congruence|]. simpl in Hh. congruence.
    + apply IH. left. discriminate.
Qed.

Lemma join_cons sep x xs : xs <> [] -> join sep (x :: xs) = x ++ sep ++ join sep xs.
Proof. destruct xs; [congruence | reflexivity]. Qed.

(** The words of a normalized text, joined by single spaces, are the
    text. *)
Lemma join_split_ws_go s :
  forall acc,
    spaced s = true ->
    (acc = [] -> starts_with_space s = false) ->
    join (lit " ") (split_ws_go acc s) = rev acc ++ s.
Proof.
  induction s as [|c s IH]; intros acc Hs Hacc.
  - simpl. destruct acc; [reflexivity|]. simpl. rewrite app_nil_r. reflexivity.
  - pose proof (spaced_tail _ _ Hs) as Hs'. cbn [split_ws_go].
    destruct (isspace c) eqn:Hc.
    + destruct acc as [|a acc]; [specialize (Hacc eq_refl); simpl in Hacc; congruence|].
      simpl in Hs. rewrite Hc in Hs.
      apply andb_true_iff in Hs as [Hsp _]. apply andb_true_iff in Hsp as [Hsp Hnext].
      apply bool_decide_eq_true in Hsp. subst c.
      destruct s as [|d s]; [discriminate|]. apply negb_true_iff in Hnext.
      rewrite join_cons.
      * rewrite (IH [] Hs'); [reflexivity | intros _; exact Hnext].
      * apply split_ws_go_nonempty. right. split; [discriminate | exact Hnext].
    + rewrite (IH (c :: acc) Hs'); [|discriminate].
      simpl. rewrite <- app_assoc. reflexivity.
Qed.

Lemma join_split_ws s : normalized s = true -> join (lit " ") (split_ws s) = s.
Proof.
  unfold normalized. intros Hn. apply andb_true_iff in Hn as [Hs Hh].
  apply negb_true_iff in Hh. unfold split_ws.
  rewrite (join_split_ws_go s [] Hs); [reflexivity | intros _; exact Hh].
Qed.

Lemma clean_text_join text :
  ResumeParser._clean_text text = join (lit " ") (split_ws text).
Proof.
  rewrite <- (split_ws_clean_text text).
  rewrite (join_split_ws _ (clean_text_normalized text)). reflexivity.
Qed.

(** [_clean_text] is [" ".join(text.split())]: the words of the text,
    separated by single spaces. *)
Theorem clean_text_joins_words text :
  ResumeParser._clean_text text = join (lit " ") (split_ws text) /\
  JobDescriptionParser._clean_text text = join (lit " ") (split_ws text).
Proof.
  assert (Hclean : ResumeParser._clean_text text = join (lit " ") (split_ws text)).
  { rewrite <- (split_ws_clean_text text).
    rewrite (join_split_ws _ (clean_text_normalized text)). reflexivity. }
  split; exact Hclean.
Qed.

(** Cleaning a cleaned text changes nothing, and the texts that
    cleaning leaves as they are are exactly the normalized ones. *)
Theorem clean_text_idempotent text :
  ResumeParser._clean_text (ResumeParser._clean_text text)
  = ResumeParser._clean_text text /\
  (ResumeParser._clean_text text = text <-> normalized text = true).
Proof.
  assert (Hfix : forall t, normalized t = true -> ResumeParser._clean_text t = t).
  { intros t Hn. rewrite (clean_text_join t). apply join_split_ws, Hn. }
  split; [apply Hfix, clean_text_normalized|].
  split; [|apply Hfix].
  intros Heq. rewrite <- Heq. apply clean_text_normalized.
Qed.

(** Two texts with the same words are parsed to the same records:
    the amount and the kind of whitespace between words, newlines
    included, make no difference. *)
Theorem parse_ignores_whitespace `{PySet} (md5 : str -> str)
    (now text1 text2 company location : str) :
  split_ws text1 = split_ws text2 ->
  ResumeParser.parse md5 now text1 = ResumeParser.parse md5 now text2 /\
  JobDescriptionParser.parse md5 now text1 company location
  = JobDescriptionParser.parse md5 now text2 company location.
Proof.
  intros Hwords.
  assert (Hclean : ResumeParser._clean_text text1 = ResumeParser._clean_text text2).
  { rewrite (clean_text_join text1), (clean_text_join text2), Hwords.
    reflexivity. }
  unfold ResumeParser.parse, JobDescriptionParser.parse.
  change (JobDescriptionParser._clean_text text1) with (ResumeParser._clean_text text1).
  change (JobDescriptionParser._clean_text text2) with (ResumeParser._clean_text text2).
  rewrite Hclean. split; reflexivity.
Qed.
End Whitespace.

Section WhitespaceExamples.
Import Examples.

Lemma parse_ignores_whitespace_witness :
  ResumeParser.parse toy_digest (lit "12:00:00")
    (list_ascii_of_string "Ada Lovelace
Skills:   Python,  SQL")
  = ResumeParser.parse toy_digest (lit "12:00:00")
      (lit "Ada Lovelace Skills: Python, SQL").
Proof.
  apply (parse_ignores_whitespace toy_digest (lit "12:00:00") _ _ [] []).
  vm_compute. reflexivity.
Defined.
End WhitespaceExamples.

(** ** More on the score *)

Section ScoreFacts.
Local Open Scope Q_scope.
Import Spec.
Context `{PySet}.

Lemma min100_ge x t : t <= 100 -> t <= min100 x -> t <= x.
Proof.
  unfold min100. intros Ht Hm. destruct (Qle_bool 100 x) eqn:Hb; [|exact Hm].
  apply Qle_bool_iff in Hb. apply Qle_trans with 100; assumption.
Qed.

Lemma min100_le_self x : min100 x <= x.
Proof.
  unfold min100. destruct (Qle_bool 100 x) eqn:Hb; [|apply Qle_refl].
  apply Qle_bool_iff in Hb. exact Hb.
Qed.

Lemma Qnat_le a b : (a <= b)%nat -> Qnat a <= Qnat b.
Proof. intros Hab. unfold Qnat. rewrite <- Zle_Qle. lia. Qed.

Lemma Qnat_pos b : 0 < Qnat (S b).
Proof. unfold Qnat. change 0 with (inject_Z 0). rewrite <- Zlt_Qlt. lia. Qed.

Lemma coverage_le a b w : (a <= b)%nat -> 0 <= w -> coverage a b w <= w.
Proof.
  intros Hab Hw. destruct b as [|b]; simpl; [exact Hw|].
  rewrite <- (Qmult_1_l w) at 2. apply Qmult_le_compat_r; [|exact Hw].
  apply Qle_shift_div_r; [apply Qnat_pos|]. rewrite Qmult_1_l. apply Qnat_le, Hab.
Qed.

Lemma coverage_full b w : coverage (S b) (S b) w == w.
Proof.
  simpl. field. intros Hz. pose proof (Qnat_pos b) as Hp. rewrite Hz in Hp.
  apply (Qlt_irrefl 0 Hp).
Qed.

Lemma flat_le {A} (l : list A) w : 0 <= w -> flat l w <= w.
Proof. intros Hw. destruct l; simpl; [exact Hw | apply Qle_refl]. Qed.

Lemma size_lowered_zero l : size (lowered l) = 0%nat <-> l = [].
Proof.
  split; [|intros ->; apply size_lowered_nil].
  destruct l as [|x l]; [reflexivity|]. intros Hs.
  apply size_empty_iff in Hs. exfalso.
  apply (not_elem_of_empty (C:=gset str) (lower x)). rewrite <- Hs.
  unfold lowered, set_of. simpl. set_solver.
Qed.

Lemma round_half_even_mono p q :
  p <= q -> (round_half_even p <= round_half_even q)%Z.
Proof.
  intros Hpq. unfold round_half_even.
  pose proof (Qfloor_resp_le p q Hpq) as Hf.
  pose proof (Qfloor_le p) as Hp1. pose proof (Qlt_floor p) as Hp2.
  pose proof (Qfloor_le q) as Hq1. pose proof (Qlt_floor q) as Hq2.
  destruct (Z.eq_dec (Qfloor p) (Qfloor q)) as [He|Hne].
  - rewrite He.
    destruct (Qcompare_spec (p - inject_Z (Qfloor q)) (1#2)) as [H1|H1|H1],
             (Qcompare_spec (q - inject_Z (Qfloor q)) (1#2)) as [H2|H2|H2];
      try destruct (Z.even (Qfloor q)); try lia; exfalso; lra.
  - assert (Hlt : (Qfloor p + 1 <= Qfloor q)%Z) by lia.
    destruct (Qcompare_spec (p - inject_Z (Qfloor p)) (1#2)) as [H1|H1|H1],
             (Qcompare_spec (q - inject_Z (Qfloor q)) (1#2)) as [H2|H2|H2];
      try destruct (Z.even (Qfloor q)); try destruct (Z.even (Qfloor p)); lia.
Qed.

Lemma round2_mono x y : x <= y -> round2 x <= round2 y.
Proof.
  intros Hxy. unfold round2.
  apply Qmult_le_compat_r; [|discriminate].
  rewrite <- Zle_Qle. apply round_half_even_mono. lra.
Qed.

Lemma size_matched_missing (have must : gset str) :
  (size (must ∖ have) + size (have ∩ must) = size must)%nat.
Proof.
  rewrite <- size_union.
  2: { intros s Hd Hi. apply elem_of_difference in Hd.
       apply elem_of_intersection in Hi. tauto. }
  f_equal. apply leibniz_equiv. intros s.
  rewrite elem_of_union, elem_of_difference, elem_of_intersection.
  destruct (decide (s ∈ have)); tauto.
Qed.

Lemma missing_skills_length r j :
  (length (EvaluationResult.missing_skills (RelevanceEvaluator.evaluate r j))
   + size (lowered (Resume.skills r) ∩ lowered (JobDescription.must_have_skills j))
   = size (lowered (JobDescription.must_have_skills j)))%nat.
Proof.
  unfold RelevanceEvaluator.evaluate. cbn [EvaluationResult.missing_skills].
  rewrite length_list_of_set. apply size_matched_missing.
Qed.

(** In the result of [evaluate], every lowercased must-have skill of the
    job is either matched or missing, never both: it is matched exactly
    when the resume has it and missing exactly when it has not.  Neither
    list repeats a skill, and the missing skills and the must-have skills
    in common add up to the distinct must-have skills. *)
Theorem must_have_partition r j :
  let e := RelevanceEvaluator.evaluate r j in
  let must := map lower (JobDescription.must_have_skills j) in
  let have := map lower (Resume.skills r) in
  NoDup (EvaluationResult.matched_skills e) /\
  NoDup (EvaluationResult.missing_skills e) /\
  (forall s, s ∈ must ->
     (s ∈ EvaluationResult.matched_skills e <-> s ∈ have) /\
     (s ∈ EvaluationResult.missing_skills e <-> s ∉ have)) /\
  (length (EvaluationResult.missing_skills e)
   + size (set_of have ∩ set_of must) = size (set_of must))%nat.
Proof.
  intros e must have. subst e must have.
  split; [apply NoDup_list_of_set|]. split; [apply NoDup_list_of_set|].
  split; [|apply missing_skills_length].
  intros s Hs. unfold RelevanceEvaluator.evaluate.
  cbn [EvaluationResult.matched_skills EvaluationResult.missing_skills].
  rewrite !elem_of_list_of_set, elem_of_union, !elem_of_intersection,
          elem_of_difference, !elem_of_set_of.
  tauto.
Qed.

Lemma flat_points {A} (l : list A) (w : Z) :
  flat l (inject_Z w) == inject_Z (match l with [] => 0 | _ => w end).
Proof. destruct l; reflexivity. Qed.

Lemma coverage_available a b w (l : list str) :
  (a <= b)%nat -> (0 <= w)%Z -> (b = 0%nat <-> l = []) ->
  coverage a b (inject_Z w) <= inject_Z (match l with [] => 0 | _ => w end).
Proof.
  intros Hab Hw Hl. destruct l as [|x l].
  - assert (b = 0%nat) as -> by tauto. simpl. apply Qle_refl.
  - apply coverage_le; [exact Hab|]. change 0 with (inject_Z 0).
    rewrite <- Zle_Qle. exact Hw.
Qed.

Lemma distinct_sum_available r j :
  distinct_sum r j <= inject_Z (available_points r j).
Proof.
  unfold distinct_sum, sum_of, available_points.
  rewrite !inject_Z_plus.
  repeat apply Qplus_le_compat.
  - apply (coverage_available _ _ 50); [|lia|apply size_lowered_zero].
    apply subseteq_size, intersection_subseteq_r.
  - apply (coverage_available _ _ 20); [|lia|apply size_lowered_zero].
    apply subseteq_size, intersection_subseteq_r.
  - rewrite (flat_points _ 15). apply Qle_refl.
  - rewrite (flat_points _ 10). apply Qle_refl.
  - rewrite (flat_points _ 5). apply Qle_refl.
Qed.

Lemma round2_le_Z x (n : Z) : x <= inject_Z n -> round2 x <= inject_Z n.
Proof.
  intros Hx. unfold round2.
  apply Qle_shift_div_r; [reflexivity|].
  change 100 with (inject_Z 100). rewrite <- inject_Z_mult, <- Zle_Qle.
  pose proof (Qfloor_le (x * inject_Z 100)) as Hf.
  assert (Hle : x * inject_Z 100 <= inject_Z (n * 100)).
  { rewrite inject_Z_mult. apply Qmult_le_compat_r; [exact Hx | discriminate]. }
  apply (round_half_even_bounds _ (Qfloor (x * inject_Z 100)) (n * 100)); assumption.
Qed.

(** The relevance score never exceeds the points that can be scored at
    all: 50 only when the job lists must-have skills, 20 only when it lists
    good-to-have skills, 15, 10 and 5 only for the sections the resume
    has. *)
Theorem score_bounded_by_available_parts r j :
  EvaluationResult.relevance_score (RelevanceEvaluator.evaluate r j)
  <= inject_Z (available_points r j).
Proof.
  rewrite relevance_score_eq. apply round2_le_Z.
  unfold unrounded. eapply Qle_trans; [apply min100_le_self|].
  apply distinct_sum_available.
Qed.

Lemma coverage_half a b :
  25 <= coverage a b 50 -> (b <> 0 /\ b <= 2 * a)%nat.
Proof.
  destruct b as [|b]; simpl; [intros Hc; exfalso; apply Hc; reflexivity|].
  intros Hc. split; [discriminate|].
  pose proof (Qnat_pos b) as Hpos.
  assert (Hne : ~ Qnat (S b) == 0).
  { intros Hz. rewrite Hz in Hpos. apply (Qlt_irrefl 0 Hpos). }
  assert (Hq : Qnat (S b) <= 2 * Qnat a).
  { assert (Ht : Qnat a / Qnat (S b) * Qnat (S b) == Qnat a) by (field; exact Hne).
    revert Hc Ht Hpos. generalize (Qnat a / Qnat (S b)), (Qnat a), (Qnat (S b)).
    intros t x y Hc Ht Hpos. nra. }
  unfold Qnat in Hq. change 2 with (inject_Z 2) in Hq.
  rewrite <- inject_Z_mult, <- Zle_Qle in Hq. lia.
Qed.

Lemma sum_of_le_must a b c d r :
  (c <= d)%nat -> sum_of a b c d r <= coverage a b 50 + 50.
Proof.
  intros Hcd. unfold sum_of.
  pose proof (coverage_le c d 20 Hcd) as Hg.
  pose proof (flat_le (Resume.experience r) 15) as He.
  pose proof (flat_le (Resume.education r) 10) as Hd.
  pose proof (flat_le (Resume.projects r) 5) as Hp.
  assert (0 <= 20) by discriminate. assert (0 <= 15) by discriminate.
  assert (0 <= 10) by discriminate. assert (0 <= 5) by discriminate.
  specialize (Hg ltac:(assumption)). specialize (He ltac:(assumption)).
  specialize (Hd ltac:(assumption)). specialize (Hp ltac:(assumption)).
  lra.
Qed.

(** A resume gets the verdict HIGH only against a job that lists
    must-have skills, and only when at most half of the job's distinct
    must-have skills are missing from it. *)
Theorem high_needs_half_of_must_have r j :
  let e := RelevanceEvaluator.evaluate r j in
  EvaluationResult.verdict e = lit "HIGH" ->
  JobDescription.must_have_skills j <> [] /\
  (2 * length (EvaluationResult.missing_skills e)
   <= size (lowered (JobDescription.must_have_skills j)))%nat.
Proof.
  intros e Hv. subst e. rewrite verdict_eq in Hv.
  apply (verdict_of_spec (unrounded r j)) in Hv.
  apply (min100_ge _ 75) in Hv; [|discriminate].
  pose proof (missing_skills_length r j) as Hlen.
  unfold distinct_sum in Hv.
  pose proof (sum_of_le_must
    (size (lowered (Resume.skills r) ∩ lowered (JobDescription.must_have_skills j)))
    (size (lowered (JobDescription.must_have_skills j)))
    (size (lowered (Resume.skills r) ∩ lowered (JobDescription.good_to_have_skills j)))
    (size (lowered (JobDescription.good_to_have_skills j))) r) as Hsum.
  specialize (Hsum ltac:(apply subseteq_size, intersection_subseteq_r)).
  destruct (coverage_half
    (size (lowered (Resume.skills r) ∩ lowered (JobDescription.must_have_skills j)))
    (size (lowered (JobDescription.must_have_skills j)))) as [Hne Hhalf]; [lra|].
  split; [|lia].
  intros Hnil. apply Hne. rewrite Hnil. apply size_lowered_nil.
Qed.

Lemma round_half_even_Z (n : Z) : round_half_even (inject_Z n) = n.
Proof.
  unfold round_half_even. rewrite Qfloor_Z.
  destruct (Qcompare_spec (inject_Z n - inject_Z n) (1 # 2)) as [He|Hl|Hg].
  - exfalso. lra.
  - reflexivity.
  - exfalso. lra.
Qed.

Lemma round2_Z x (n : Z) : x == inject_Z n -> round2 x == inject_Z n.
Proof.
  intros Hx. unfold round2.
  rewrite (round_half_even_proper (x * 100) (inject_Z (n * 100))).
  - rewrite round_half_even_Z, inject_Z_mult. field.
  - rewrite Hx, inject_Z_mult. reflexivity.
Qed.

Lemma size_lowered_pos l : l <> [] -> exists n, size (lowered l) = S n.
Proof.
  intros Hl. destruct (size (lowered l)) as [|n] eqn:Hs; [|eauto].
  apply size_lowered_zero in Hs. contradiction.
Qed.

Lemma coverage_all (have : gset str) l (w : Z) :
  lowered l ⊆ have ->
  coverage (size (have ∩ lowered l)) (size (lowered l)) (inject_Z w)
  == inject_Z (match l with [] => 0 | _ => w end).
Proof.
  intros Hsub.
  assert (Heq : have ∩ lowered l = lowered l).
  { apply leibniz_equiv. intros s. rewrite elem_of_intersection.
    split; [tauto|]. intros Hs. split; [apply Hsub|]; assumption. }
  rewrite Heq. destruct l as [|x l].
  - rewrite size_lowered_nil. reflexivity.
  - destruct (size_lowered_pos (x :: l)) as [n ->]; [discriminate|].
    apply coverage_full.
Qed.

(** A resume that has every must-have and every good-to-have skill of
    the job, compared in lowercase, has no missing skill and scores all
    the points that can be scored: 50 and 20 for the skill lists the job
    has, 15, 10 and 5 for the sections the resume has. *)
Theorem all_skills_score_all_points r j :
  map lower (JobDescription.must_have_skills j) ⊆ map lower (Resume.skills r) ->
  map lower (JobDescription.good_to_have_skills j) ⊆ map lower (Resume.skills r) ->
  let e := RelevanceEvaluator.evaluate r j in
  EvaluationResult.missing_skills e = [] /\
  EvaluationResult.relevance_score e == inject_Z (available_points r j).
Proof.
  intros Hmust Hgood e. subst e. split.
  - unfold RelevanceEvaluator.evaluate. cbn [EvaluationResult.missing_skills].
    apply length_zero_iff_nil. rewrite length_list_of_set.
    apply size_empty_iff, elem_of_equiv_empty. intros s Hs.
    apply elem_of_difference in Hs as [Hin Hout]. apply Hout.
    apply elem_of_set_of, Hmust, elem_of_set_of, Hin.
  - rewrite relevance_score_eq. apply round2_Z.
    assert (Hsum : distinct_sum r j == inject_Z (available_points r j)).
    { unfold distinct_sum, sum_of, available_points.
      rewrite !inject_Z_plus.
      rewrite (coverage_all _ _ 50), (coverage_all _ _ 20).
      - rewrite (flat_points _ 15), (flat_points _ 10), (flat_points _ 5).
        reflexivity.
      - intros s Hs. apply elem_of_set_of, Hgood, elem_of_set_of, Hs.
      - intros s Hs. apply elem_of_set_of, Hmust, elem_of_set_of, Hs. }
    unfold unrounded. rewrite (min100_proper _ _ Hsum).
    unfold min100.
    destruct (Qle_bool 100 (inject_Z (available_points r j))) eqn:Hb; [|reflexivity].
    apply Qle_bool_iff in Hb. apply Qle_antisym; [exact Hb|].
    change 100 with (inject_Z 100). rewrite <- Zle_Qle.
    unfold available_points.
    destruct (JobDescription.must_have_skills j), (JobDescription.good_to_have_skills j),
             (Resume.experience r), (Resume.education r), (Resume.projects r); lia.
Qed.


Lemma min100_mono x y : x <= y -> min100 x <= min100 y.
Proof.
  intros Hxy. unfold min100.
  destruct (Qle_bool 100 x) eqn:Hx, (Qle_bool 100 y) eqn:Hy.
  - apply Qle_refl.
  - apply Qle_bool_iff in Hx. apply Qle_trans with x; assumption.
  - apply Qlt_le_weak, Qnot_le_lt.
    intros Hle. apply Qle_bool_iff in Hle. congruence.
  - exact Hxy.
Qed.

Lemma coverage_mono a a' b w :
  (a <= a')%nat -> 0 <= w -> coverage a b w <= coverage a' b w.
Proof.
  intros Ha Hw. destruct b as [|b]; simpl; [apply Qle_refl|].
  apply Qmult_le_compat_r; [|exact Hw].
  apply Qmult_le_compat_r; [apply Qnat_le, Ha|].
  apply Qlt_le_weak, Qinv_lt_0_compat, Qnat_pos.
Qed.

Lemma lowered_mono l l' : map lower l ⊆ map lower l' -> lowered l ⊆ lowered l'.
Proof. intros Hl s Hs. apply elem_of_set_of, Hl, elem_of_set_of, Hs. Qed.

Lemma unrounded_mono r r' j :
  map lower (Resume.skills r) ⊆ map lower (Resume.skills r') ->
  Resume.experience r' = Resume.experience r ->
  Resume.education r' = Resume.education r ->
  Resume.projects r' = Resume.projects r ->
  unrounded r j <= unrounded r' j.
Proof.
  intros Hs He Hd Hp. apply lowered_mono in Hs.
  unfold unrounded. apply min100_mono.
  unfold distinct_sum, sum_of. rewrite He, Hd, Hp.
  repeat apply Qplus_le_compat; try apply Qle_refl.
  - apply coverage_mono; [|discriminate].
    apply subseteq_size. intros s. rewrite !elem_of_intersection.
    intros [H1 H2]. split; [apply Hs|]; assumption.
  - apply coverage_mono; [|discriminate].
    apply subseteq_size. intros s. rewrite !elem_of_intersection.
    intros [H1 H2]. split; [apply Hs|]; assumption.
Qed.

(** Adding skills to a resume, its sections unchanged, never lowers the
    relevance score against a job, never adds a missing skill and never
    worsens the verdict. *)
Theorem more_skills_never_hurt r r' j :
  map lower (Resume.skills r) ⊆ map lower (Resume.skills r') ->
  Resume.experience r' = Resume.experience r ->
  Resume.education r' = Resume.education r ->
  Resume.projects r' = Resume.projects r ->
  let e := RelevanceEvaluator.evaluate r j in
  let e' := RelevanceEvaluator.evaluate r' j in
  EvaluationResult.relevance_score e <= EvaluationResult.relevance_score e' /\
  EvaluationResult.missing_skills e' ⊆ EvaluationResult.missing_skills e /\
  (EvaluationResult.verdict e = lit "HIGH" ->
   EvaluationResult.verdict e' = lit "HIGH") /\
  (EvaluationResult.verdict e' = lit "LOW" ->
   EvaluationResult.verdict e = lit "LOW").
Proof.
  intros Hs He Hd Hp e e'. subst e e'.
  pose proof (unrounded_mono r r' j Hs He Hd Hp) as Hle.
  rewrite !relevance_score_eq, !verdict_eq.
  split; [apply round2_mono, Hle|]. split.
  - unfold RelevanceEvaluator.evaluate. cbn [EvaluationResult.missing_skills].
    intros s. rewrite !elem_of_list_of_set, !elem_of_difference.
    intros [Hin Hout]. split; [exact Hin|].
    intros Hr. apply Hout. revert Hr. apply (lowered_mono _ _ Hs).
  - split; intros Hv.
    + apply (verdict_of_spec (unrounded r j)) in Hv.
      apply (verdict_of_spec (unrounded r' j)).
      apply Qle_trans with (unrounded r j); assumption.
    + apply (verdict_of_spec (unrounded r' j)) in Hv.
      apply (verdict_of_spec (unrounded r j)).
      apply Qle_lt_trans with (unrounded r' j); assumption.
Qed.

Lemma missing_skills_nil r j :
  EvaluationResult.missing_skills (RelevanceEvaluator.evaluate r j) = [] <->
  map lower (JobDescription.must_have_skills j) ⊆ map lower (Resume.skills r).
Proof.
  unfold RelevanceEvaluator.evaluate. cbn [EvaluationResult.missing_skills].
  rewrite <- length_zero_iff_nil, length_list_of_set, size_empty_iff,
          elem_of_equiv_empty.
  split.
  - intros Hnone s Hs.
    destruct (decide (s ∈ map lower (Resume.skills r))) as [Hin|Hout]; [exact Hin|].
    exfalso. apply (Hnone s). apply elem_of_difference.
    rewrite !elem_of_set_of. tauto.
  - intros Hsub s Hs. apply elem_of_difference in Hs as [Hin Hout].
    apply Hout, elem_of_set_of, Hsub, elem_of_set_of, Hin.
Qed.

(** The suggestions always end with the closing tip and hold between
    one and four lines; the closing tip is the only line exactly when
    the resume has every must-have skill of the job, compared in
    lowercase, and has projects and experience. *)
Theorem suggestions_shape r j :
  let e := RelevanceEvaluator.evaluate r j in
  let tip := lit "Optimize your resume keywords for better ATS compatibility" in
  last (EvaluationResult.suggestions e) = Some tip /\
  (1 <= length (EvaluationResult.suggestions e) <= 4)%nat /\
  (EvaluationResult.suggestions e = [tip] <->
   map lower (JobDescription.must_have_skills j) ⊆ map lower (Resume.skills r) /\
   Resume.projects r <> [] /\ Resume.experience r <> []).
Proof.
  intros e tip. subst e tip. rewrite <- missing_skills_nil.
  unfold RelevanceEvaluator.evaluate.
  cbn [EvaluationResult.suggestions EvaluationResult.missing_skills].
  unfold RelevanceEvaluator._generate_suggestions.
  destruct (list_of_set _) as [|m ms], (Resume.projects r) as [|p ps],
           (Resume.experience r) as [|x xs];
    cbn [RelevanceEvaluator.nonempty negb app last length];
    (split; [reflexivity|]); (split; [lia|]);
    (split; [intros Heq; try discriminate Heq | intros (H1 & H2 & H3); try congruence]).
  - repeat split; discriminate.
Qed.

(** When a must-have skill is missing, the first suggestion is the line
    "Learn these key skills: " followed by up to three skills joined by
    ", ": as many as are missing if fewer than three, all different, each
    a lowercased must-have skill of the job that the resume lacks. *)
Theorem learn_line_names_missing r j :
  let e := RelevanceEvaluator.evaluate r j in
  EvaluationResult.missing_skills e <> [] ->
  exists ks,
    head (EvaluationResult.suggestions e)
    = Some (lit "Learn these key skills: " ++ join (lit ", ") ks) /\
    length ks = Nat.min 3 (length (EvaluationResult.missing_skills e)) /\
    NoDup ks /\
    forall k, k ∈ ks ->
      k ∈ map lower (JobDescription.must_have_skills j) /\
      k ∉ map lower (Resume.skills r).
Proof.
  intros e Hne. subst e.
  exists (take 3 (EvaluationResult.missing_skills (RelevanceEvaluator.evaluate r j))).
  revert Hne. unfold RelevanceEvaluator.evaluate.
  cbn [EvaluationResult.suggestions EvaluationResult.missing_skills].
  unfold RelevanceEvaluator._generate_suggestions. intros Hne.
  split; [|split; [apply length_take|split]].
  - destruct (list_of_set _) as [|m ms]; [contradiction|].
    destruct (Resume.projects r), (Resume.experience r); reflexivity.
  - eapply sublist_NoDup; [apply NoDup_list_of_set | apply sublist_take].
  - intros k Hk. apply elem_of_take in Hk as (i & Hk & _).
    apply list_elem_of_lookup_2, elem_of_list_of_set, elem_of_difference in Hk.
    rewrite !elem_of_set_of in Hk. exact Hk.
Qed.
End ScoreFacts.

Section ScoreExamples.
Local Open Scope Q_scope.
Import Spec Examples.

Lemma high_needs_half_of_must_have_witness :
  JobDescription.must_have_skills job_backend <> [] /\
  (2 * length (EvaluationResult.missing_skills
                 (RelevanceEvaluator.evaluate resume_full job_backend))
   <= size (lowered (JobDescription.must_have_skills job_backend)))%nat.
Proof.
  apply (high_needs_half_of_must_have resume_full job_backend).
  vm_compute. reflexivity.
Defined.

Lemma all_skills_score_all_points_witness :
  EvaluationResult.missing_skills
    (RelevanceEvaluator.evaluate resume_full job_backend) = [] /\
  EvaluationResult.relevance_score
    (RelevanceEvaluator.evaluate resume_full job_backend) == 100.
Proof.
  apply (all_skills_score_all_points resume_full job_backend);
    apply (bool_decide_unpack _); vm_compute; exact I.
Defined.

Lemma more_skills_never_hurt_witness :
  EvaluationResult.relevance_score
    (RelevanceEvaluator.evaluate resume_backend job_backend)
  <= EvaluationResult.relevance_score
       (RelevanceEvaluator.evaluate resume_backend_docker job_backend).
Proof.
  apply (more_skills_never_hurt resume_backend resume_backend_docker job_backend);
    [apply (bool_decide_unpack _); vm_compute; exact I | reflexivity ..].
Defined.

Lemma learn_line_names_missing_witness :
  exists ks,
    head (EvaluationResult.suggestions
            (RelevanceEvaluator.evaluate resume_backend job_backend))
    = Some (lit "Learn these key skills: " ++ join (lit ", ") ks) /\
    length ks = Nat.min 3 (length (EvaluationResult.missing_skills
                   (RelevanceEvaluator.evaluate resume_backend job_backend))) /\
    NoDup ks /\
    forall k, k ∈ ks ->
      k ∈ map lower (JobDescription.must_have_skills job_backend) /\
      k ∉ map lower (Resume.skills resume_backend).
Proof.
  apply (learn_line_names_missing resume_backend job_backend).
  vm_compute. discriminate.
Defined.
End ScoreExamples.

(** ** The session across runs of the pages *)

Section PageInvariants.
Import App.
Variable UploadedFile : Type.
Variable extract_text : UploadedFile -> list notice * outcome str.
Variable job_parser_parse : str -> str -> str -> outcome JobDescription.t.
Variable resume_parser_parse : str -> outcome Resume.t.
Variable evaluator_evaluate :
  Resume.t -> JobDescription.t -> outcome EvaluationResult.t.
Variable render_job : JobDescription.t -> outcome unit.
Variable display_evaluation_result :
  EvaluationResult.t -> Resume.t -> JobDescription.t -> outcome unit.

Local Abbreviation resume_action :=
  (App.upload_resume UploadedFile extract_text resume_parser_parse
     evaluator_evaluate display_evaluation_result).
Local Abbreviation job_action :=
  (App.upload_job_description job_parser_parse render_job).

Ltac grows := repeat apply prefix_app_r; reflexivity.

(** The session is append-only: a run of a page, whatever its
    collaborators do, leaves both lists as they are or adds one record at
    the end of its own list, the record its parser or evaluator returned;
    the resume page never changes the job descriptions, the job page never
    changes the evaluations, and what was on the screen stays. *)
Theorem session_lists_only_grow :
  (forall idx file clicked pg,
     let pg' := (resume_action idx file clicked pg).1 in
     job_descriptions (session_state pg') = job_descriptions (session_state pg) /\
     (evaluations (session_state pg') = evaluations (session_state pg) \/
      exists r job ev,
        job_descriptions (session_state pg) !! idx = Some job /\
        evaluator_evaluate r job = Ok ev /\
        evaluations (session_state pg') = evaluations (session_state pg) ++ [ev]) /\
     notices pg `prefix_of` notices pg') /\
  (forall company location jd_text clicked pg,
     let pg' := (job_action company location jd_text clicked pg).1 in
     evaluations (session_state pg') = evaluations (session_state pg) /\
     (job_descriptions (session_state pg') = job_descriptions (session_state pg) \/
      exists jd,
        job_parser_parse jd_text company location = Ok jd /\
        job_descriptions (session_state pg')
        = job_descriptions (session_state pg) ++ [jd]) /\
     notices pg `prefix_of` notices pg').
Proof.
  split.
  - intros idx file clicked pg. cbv zeta.
    unfold App.upload_resume, mbind, M_bind, get_session. simpl.
    destruct (job_descriptions (session_state pg)) as [|j0 js] eqn:Hjs; simpl.
    { rewrite Hjs. split; [reflexivity|]. split; [left; reflexivity | grows]. }
    destruct ((j0 :: js) !! idx) as [job|] eqn:Hjob.
    2: { simpl. rewrite Hjs. split; [reflexivity|]. split; [left; reflexivity | grows]. }
    destruct file as [file|].
    2: { simpl. rewrite Hjs. split; [reflexivity|]. split; [left; reflexivity | grows]. }
    destruct clicked.
    2: { simpl. rewrite Hjs. split; [reflexivity|]. split; [left; reflexivity | grows]. }
    unfold try_except, emit, call, mbind, M_bind. simpl.
    destruct (extract_text file) as [ns [text|e]]; simpl.
    2: { rewrite Hjs. split; [reflexivity|]. split; [left; reflexivity | grows]. }
    destruct (truthy text); simpl.
    2: { rewrite Hjs. split; [reflexivity|]. split; [left; reflexivity | grows]. }
    destruct (resume_parser_parse text) as [r|e]; simpl.
    2: { rewrite Hjs. split; [reflexivity|]. split; [left; reflexivity | grows]. }
    destruct (evaluator_evaluate r job) as [ev|e] eqn:Hev; simpl.
    2: { rewrite Hjs. split; [reflexivity|]. split; [left; reflexivity | grows]. }
    destruct (display_evaluation_result ev r job); simpl; rewrite Hjs;
      (split; [reflexivity|]);
      (split; [right; exists r, job, ev; repeat split; assumption | grows]).
  - intros company location jd_text clicked pg. cbv zeta.
    unfold App.upload_job_description.
    destruct clicked.
    2: { simpl. split; [reflexivity|]. split; [left; reflexivity | grows]. }
    destruct (truthy company); simpl.
    2: { split; [reflexivity|]. split; [left; reflexivity | grows]. }
    destruct (truthy jd_text); simpl.
    2: { split; [reflexivity|]. split; [left; reflexivity | grows]. }
    unfold try_except, call, mbind, M_bind. simpl.
    destruct (job_parser_parse jd_text company location) as [jd|e]; simpl.
    2: { split; [reflexivity|]. split; [left; reflexivity | grows]. }
    destruct (render_job jd); simpl;
      (split; [reflexivity|]);
      (split; [right; exists jd; repeat split; reflexivity | grows]).
Qed.

(** When the rendering that follows the append raises, the record
    stays in the session although the page ends with an error notice:
    the resume page has stored the evaluation and shows the success
    notice and then "Error processing resume", the job page has stored
    the job description and shows "Error parsing job description". *)
Theorem rendering_failure_keeps_record :
  (forall idx file pg job ns text r ev e,
     job_descriptions (session_state pg) !! idx = Some job ->
     extract_text file = (ns, Ok text) ->
     text <> [] ->
     resume_parser_parse text = Ok r ->
     evaluator_evaluate r job = Ok ev ->
     display_evaluation_result ev r job = Raise e ->
     resume_action idx (Some file) true pg =
       (Page (Session (job_descriptions (session_state pg))
                      (evaluations (session_state pg) ++ [ev]))
             (notices pg ++ ns ++
              [Success (lit "Resume evaluated successfully!");
               Error (lit "Error processing resume: " ++ e)]),
        Ok tt)) /\
  (forall company location jd_text pg jd e,
     company <> [] -> jd_text <> [] ->
     job_parser_parse jd_text company location = Ok jd ->
     render_job jd = Raise e ->
     job_action company location jd_text true pg =
       (Page (Session (job_descriptions (session_state pg) ++ [jd])
                      (evaluations (session_state pg)))
             (notices pg ++
              [Success (lit "Job description parsed successfully!");
               Error (lit "Error parsing job description: " ++ e)]),
        Ok tt)).
Proof.
  split.
  - intros idx file pg job ns text r ev e Hjob Hext Htext Hr Hev Hd.
    unfold App.upload_resume, mbind, M_bind, get_session. simpl.
    destruct (job_descriptions (session_state pg)) as [|j0 js] eqn:Hjs;
      [rewrite lookup_nil in Hjob; discriminate|].
    simpl. rewrite Hjob.
    unfold try_except, emit, call, mbind, M_bind. simpl. rewrite Hext. simpl.
    destruct text as [|c text]; [congruence|]. simpl.
    rewrite Hr. simpl. rewrite Hev. simpl. rewrite Hd. simpl.
    unfold st_error, show. simpl. rewrite Hjs, <- !app_assoc. reflexivity.
  - intros company location jd_text pg jd e Hc Ht Hp Hrender.
    unfold App.upload_job_description.
    destruct company as [|c company]; [congruence|].
    destruct jd_text as [|d jd_text]; [congruence|]. simpl.
    unfold try_except, call, mbind, M_bind. simpl. rewrite Hp. simpl.
    rewrite Hrender. unfold st_error, show. simpl.
    rewrite <- !app_assoc. reflexivity.
Qed.
End PageInvariants.

Section PageInvariantExamples.
Import App Examples.

Lemma rendering_failure_keeps_record_witness :
  upload_resume str extract_ok parse_ok evaluate_ok render_raises
    0 (Some (lit "Ada Lovelace")) true page_one_job
  = (Page (Session [job_backend]
                   [RelevanceEvaluator.evaluate resume_backend job_backend])
          [Success (lit "Resume evaluated successfully!");
           Error (lit "Error processing resume: widget key already used")],
     Ok tt).
Proof.
  destruct (rendering_failure_keeps_record str extract_ok job_parse_raises
              parse_ok evaluate_ok render_job_ok render_raises) as [Hresume _].
  rewrite (Hresume 0 (lit "Ada Lovelace") page_one_job job_backend []
             (lit "Ada Lovelace") resume_backend
             (RelevanceEvaluator.evaluate resume_backend job_backend)
             (lit "widget key already used"));
    [reflexivity | reflexivity | reflexivity | discriminate
     | reflexivity | reflexivity | reflexivity].
Defined.
End PageInvariantExamples.

(** ** The results page *)

Section ResultsFacts.
Context `{PySet}.
Import App Pages Spec.
Variable md5 : str -> str.

Lemma evaluate_verdict r j :
  let v := EvaluationResult.verdict (RelevanceEvaluator.evaluate r j) in
  v = lit "HIGH" \/ v = lit "MEDIUM" \/ v = lit "LOW".
Proof.
  cbv zeta. rewrite verdict_eq. unfold verdict_of.
  destruct (Qle_bool 75 _); [tauto|]. destruct (Qle_bool 50 _); tauto.
Qed.

Lemma job_page_session now render company location jd_text clicked pg :
  session_state (job_page md5 now render company location jd_text clicked pg).1
  = session_state pg \/
  session_state (job_page md5 now render company location jd_text clicked pg).1
  = Session (job_descriptions (session_state pg)
             ++ [JobDescriptionParser.parse md5 now jd_text company location])
            (evaluations (session_state pg)).
Proof.
  destruct clicked; [|left; reflexivity].
  destruct company as [|c company]; [left; reflexivity|].
  destruct jd_text as [|d jd_text]; [left; reflexivity|].
  right. apply job_page_appends; discriminate.
Qed.

Lemma resume_page_session now (U : Type) extract display idx (file : option U)
    clicked pg :
  session_state (resume_page md5 now U extract display idx file clicked pg).1
  = session_state pg \/
  exists job text,
    job_descriptions (session_state pg) !! idx = Some job /\
    session_state (resume_page md5 now U extract display idx file clicked pg).1
    = Session (job_descriptions (session_state pg))
              (evaluations (session_state pg)
               ++ [RelevanceEvaluator.evaluate (ResumeParser.parse md5 now text) job]).
Proof.
  destruct (job_descriptions (session_state pg) !! idx) as [job|] eqn:Hjob.
  2: { left. unfold resume_page, App.upload_resume, mbind, M_bind, get_session. simpl.
       destruct (job_descriptions (session_state pg)) as [|j0 js] eqn:Hjs; simpl; [reflexivity|]. rewrite Hjob. reflexivity. }
  destruct file as [file|].
  2: { left. unfold resume_page, App.upload_resume, mbind, M_bind, get_session. simpl.
       destruct (job_descriptions (session_state pg)) as [|j0 js] eqn:Hjs; simpl; [reflexivity|]. rewrite Hjob. reflexivity. }
  destruct clicked.
  2: { left. unfold resume_page, App.upload_resume, mbind, M_bind, get_session. simpl.
       destruct (job_descriptions (session_state pg)) as [|j0 js] eqn:Hjs; simpl; [reflexivity|]. rewrite Hjob. reflexivity. }
  destruct (extract file) as [ns [text|e]] eqn:Hext.
  2: { left. unfold resume_page, App.upload_resume, mbind, M_bind, get_session. simpl.
       destruct (job_descriptions (session_state pg)) as [|j0 js] eqn:Hjs; simpl; [reflexivity|]. rewrite Hjob.
       unfold try_except, emit, call, mbind, M_bind. simpl. rewrite Hext. reflexivity. }
  destruct text as [|c text].
  { left. unfold resume_page, App.upload_resume, mbind, M_bind, get_session. simpl.
    destruct (job_descriptions (session_state pg)) as [|j0 js] eqn:Hjs; simpl; [reflexivity|]. rewrite Hjob.
    unfold try_except, emit, call, mbind, M_bind. simpl. rewrite Hext. reflexivity. }
  right. exists job, (c :: text). split; [reflexivity|].
  apply (resume_page_appends md5 now U extract display idx file pg job ns (c :: text));
    [assumption | assumption | discriminate].
Qed.

Lemma session_ok_reachable s : reachable md5 s -> session_ok s.
Proof.
  induction 1 as [|s now render company location jd_text clicked ns Hr IH
                  |s now U extract display idx file clicked ns Hr IH].
  - constructor.
  - destruct (job_page_session now render company location jd_text clicked (Page s ns))
      as [-> | ->]; [exact IH|].
    unfold session_ok in *. simpl. eapply Forall_impl; [exact IH|].
    intros e [Hv (jd & Hjd & Hid)]. split; [exact Hv|].
    exists jd. split; [|exact Hid]. apply elem_of_app. left. exact Hjd.
  - destruct (resume_page_session now U extract display idx file clicked (Page s ns))
      as [-> | (job & text & Hjob & ->)]; [exact IH|].
    unfold session_ok in *. simpl in *. apply Forall_app. split; [exact IH|].
    constructor; [|constructor]. split; [apply evaluate_verdict|].
    exists job. split; [|reflexivity].
    eapply list_elem_of_lookup_2. exact Hjob.
Qed.

Lemma count_verdict_cons v e es :
  count_verdict v (e :: es)
  = ((if bool_decide (EvaluationResult.verdict e = lit v) then 1 else 0)
     + count_verdict v es)%nat.
Proof.
  unfold count_verdict. rewrite filter_cons.
  destruct (decide (EvaluationResult.verdict e = lit v)) as [Hv|Hv].
  - rewrite bool_decide_eq_true_2 by exact Hv. reflexivity.
  - rewrite bool_decide_eq_false_2 by exact Hv. reflexivity.
Qed.

Lemma counts_add_up es :
  Forall (fun e =>
    EvaluationResult.verdict e = lit "HIGH" \/
    EvaluationResult.verdict e = lit "MEDIUM" \/
    EvaluationResult.verdict e = lit "LOW") es ->
  (count_verdict "HIGH" es + count_verdict "MEDIUM" es + count_verdict "LOW" es
   = length es)%nat.
Proof.
  induction 1 as [|e es Hv _ IH]; [reflexivity|].
  rewrite !count_verdict_cons. cbn [length].
  destruct Hv as [Hv | [Hv | Hv]]; rewrite !Hv;
    repeat match goal with
           | |- context [bool_decide ?P] =>
               first [ rewrite (bool_decide_eq_true_2 P) by reflexivity
                     | rewrite (bool_decide_eq_false_2 P) by (vm_compute; discriminate) ]
           end; lia.
Qed.

Lemma find_job_some jobs jd :
  jd ∈ jobs ->
  exists first, find_job jobs (JobDescription.id jd) = Some first /\
                first ∈ jobs /\ JobDescription.id first = JobDescription.id jd.
Proof.
  intros Hin. unfold find_job.
  destruct (filter (fun j => JobDescription.id j = JobDescription.id jd) jobs)
    as [|first rest] eqn:Hf.
  - exfalso. apply (filter_nil_not_elem_of _ _ jd Hf); [reflexivity | exact Hin].
  - exists first. split; [reflexivity|].
    assert (Hfirst : first ∈ filter (fun j => JobDescription.id j = JobDescription.id jd) jobs).
    { rewrite Hf. left. }
    apply list_elem_of_filter in Hfirst. tauto.
Qed.

(** On every session the two upload pages can build, the results page
    counts each evaluation once: the numbers of HIGH, MEDIUM and LOW
    verdicts add up to the total, which is the number of lines of the
    table and is not zero. *)
Theorem view_results_counts float_str s r :
  reachable md5 s ->
  view_results float_str s = Some r ->
  (high_count r + medium_count r + low_count r = total r)%nat /\
  length (results_data r) = total r /\
  total r = length (evaluations s) /\
  (0 < total r)%nat.
Proof.
  intros Hr Hv. apply session_ok_reachable in Hr.
  unfold view_results in Hv.
  destruct (negb (truthy (evaluations s))) eqn:Ht; [discriminate Hv|].
  injection Hv as <-.
  cbn [high_count medium_count low_count total results_data].
  split; [|split; [apply length_map | split; [reflexivity|]]].
  - apply counts_add_up. unfold session_ok in Hr.
    eapply Forall_impl; [exact Hr|]. intros x [Hx _]. exact Hx.
  - destruct (evaluations s); [discriminate Ht | simpl; lia].
Qed.

(** On every session the two upload pages can build, the table of the
    results page has one line per evaluation, in order, and the job of
    a line is never the placeholder for a job that is not found: it is
    the title of the first stored job description that has the job
    identifier of the evaluation. *)
Theorem view_results_finds_jobs float_str s r :
  reachable md5 s ->
  view_results float_str s = Some r ->
  Forall2 (fun e line =>
    exists jd,
      find_job (job_descriptions s) (EvaluationResult.job_id e) = Some jd /\
      jd ∈ job_descriptions s /\
      JobDescription.id jd = EvaluationResult.job_id e /\
      Job line = JobDescription.title jd /\
      Verdict line = EvaluationResult.verdict e /\
      Matched_Skills line = length (EvaluationResult.matched_skills e) /\
      Missing_Skills line = length (EvaluationResult.missing_skills e))
    (evaluations s) (results_data r).
Proof.
  intros Hr Hv. apply session_ok_reachable in Hr.
  unfold view_results in Hv.
  destruct (negb (truthy (evaluations s))); [discriminate Hv|].
  injection Hv as <-. cbn [results_data].
  unfold session_ok in Hr. revert Hr.
  generalize (evaluations s) as es.
  induction es as [|e es IH]; intros Hok; [constructor|].
  inversion Hok as [|? ? [_ (jd & Hjd & Hid)] Hrest]; subst.
  cbn [map]. constructor; [|apply IH, Hrest].
  destruct (find_job_some _ _ Hjd) as (first & Hfind & Hin & Hfid).
  rewrite Hid in Hfind. exists first. rewrite Hfind.
  repeat split; try reflexivity; [exact Hin | congruence].
Qed.
End ResultsFacts.

Section ResultsExamples.
Import App Pages Spec Examples.

Lemma view_results_counts_witness :
  exists r,
    view_results format_1f session_one_evaluation = Some r /\
    (high_count r + medium_count r + low_count r = total r)%nat /\
    length (results_data r) = total r /\
    total r = length (evaluations session_one_evaluation) /\
    (0 < total r)%nat.
Proof.
  destruct (view_results format_1f session_one_evaluation) as [r|] eqn:Hv;
    [|vm_compute in Hv; discriminate Hv].
  exists r. split; [reflexivity|].
  apply (view_results_counts toy_digest format_1f session_one_evaluation r);
    [apply reachable_resume, reachable_job, reachable_start | exact Hv].
Defined.

Lemma view_results_finds_jobs_witness :
  exists r,
    view_results format_1f session_one_evaluation = Some r /\
    Forall2 (fun e line =>
      exists jd,
        find_job (job_descriptions session_one_evaluation)
                 (EvaluationResult.job_id e) = Some jd /\
        jd ∈ job_descriptions session_one_evaluation /\
        JobDescription.id jd = EvaluationResult.job_id e /\
        Job line = JobDescription.title jd /\
        Verdict line = EvaluationResult.verdict e /\
        Matched_Skills line = length (EvaluationResult.matched_skills e) /\
        Missing_Skills line = length (EvaluationResult.missing_skills e))
      (evaluations session_one_evaluation) (results_data r).
Proof.
  destruct (view_results format_1f session_one_evaluation) as [r|] eqn:Hv;
    [|vm_compute in Hv; discriminate Hv].
  exists r. split; [reflexivity|].
  apply (view_results_finds_jobs toy_digest format_1f session_one_evaluation r);
    [apply reachable_resume, reachable_job, reachable_start | exact Hv].
Defined.
End ResultsExamples.

(** ** Reading an uploaded file *)

Section ReaderLemmas.
Import App DocumentProcessor Spec.

Lemma text_before_failure_ok line read rest :
  text_before_failure line (map Ok read ++ rest)
  = concat (map line read) ++ text_before_failure line rest.
Proof.
  induction read as [|t read IH]; simpl; [reflexivity|].
  rewrite IH, app_assoc. reflexivity.
Qed.

Lemma page_failure_ok read rest :
  page_failure (map Ok read ++ rest) = page_failure rest.
Proof. induction read as [|t read IH]; simpl; [reflexivity | exact IH]. Qed.

Lemma union_difference_fresh (X : gset str) p : p ∉ X -> (X ∪ {[p]}) ∖ {[p]} = X.
Proof.
  intros Hp. apply leibniz_equiv. intros x.
  rewrite elem_of_difference, elem_of_union, elem_of_singleton.
  split; [tauto|]. intros Hx. split; [tauto|]. intros ->. contradiction.
Qed.

Lemma strip_nil : strip [] = [].
Proof. reflexivity. Qed.
End ReaderLemmas.

Section PdfFacts.
Import App DocumentProcessor Spec.
Variable Bytes : Type.
Variable PDF_AVAILABLE : bool.
Variable tmp_create : str -> outcome str.
Variable tmp_write : str -> Bytes -> outcome unit.
Variable os_unlink : str -> outcome unit.
Variable pdfplumber_pages : Bytes -> outcome (list (outcome str)).
Variable PyPDF2_pages : Bytes -> outcome (list (outcome str)).

Local Abbreviation from_pdf :=
  (extract_text_from_pdf Bytes PDF_AVAILABLE tmp_create tmp_write os_unlink
     pdfplumber_pages PyPDF2_pages).

(** The loops change [text] only: they add the pages read before the
    first failure. *)
Lemma pdfplumber_loop_run pages s :
  pdfplumber_loop pages s
  = (State (text s ++ text_before_failure pdfplumber_line pages)
           (tmp_files s) (shown s),
     raised (page_failure pages)).
Proof.
  revert s. induction pages as [|[t|e] pages IH]; intros [t0 fs ns]; simpl.
  - rewrite app_nil_r. reflexivity.
  - unfold mbind, IO_bind, lib. simpl.
    destruct t as [|c t]; simpl.
    + rewrite IH. simpl. reflexivity.
    + rewrite IH. simpl. rewrite <- !app_assoc. simpl. rewrite <- ?app_assoc. reflexivity.
  - rewrite app_nil_r. reflexivity.
Qed.

Lemma PyPDF2_loop_run pages s :
  PyPDF2_loop pages s
  = (State (text s ++ text_before_failure PyPDF2_line pages)
           (tmp_files s) (shown s),
     raised (page_failure pages)).
Proof.
  revert s. induction pages as [|[t|e] pages IH]; intros [t0 fs ns]; simpl.
  - rewrite app_nil_r. reflexivity.
  - unfold mbind, IO_bind, lib. simpl. rewrite IH. simpl.
    unfold PyPDF2_line. rewrite <- !app_assoc. simpl. rewrite <- ?app_assoc. reflexivity.
  - rewrite app_nil_r. reflexivity.
Qed.

(** The run of the PDF extractor once the temporary file is written. *)
Lemma from_pdf_run file_bytes s p :
  PDF_AVAILABLE = true ->
  tmp_create (lit ".pdf") = Ok p ->
  tmp_write p file_bytes = Ok tt ->
  let t := pdf_text (pdfplumber_pages file_bytes) (PyPDF2_pages file_bytes) in
  from_pdf file_bytes s
  = match pdf_failure (pdfplumber_pages file_bytes) (PyPDF2_pages file_bytes) with
    | Some e =>
        (State t (tmp_files s ∪ {[p]})
               (shown s ++ [Error (lit "PDF processing failed: " ++ e)]),
         Ok (strip t))
    | None =>
        match os_unlink p with
        | Ok _ => (State t ((tmp_files s ∪ {[p]}) ∖ {[p]}) (shown s), Ok (strip t))
        | Raise e =>
            (State t (tmp_files s ∪ {[p]})
                   (shown s ++ [Error (lit "PDF processing failed: " ++ e)]),
             Ok (strip t))
        end
    end.
Proof.
  intros Hav Hc Hw t. subst t.
  unfold extract_text_from_pdf. rewrite Hav. cbn [negb].
  unfold mbind, IO_bind, set_text, try_catch, NamedTemporaryFile, lib, unlink,
    get_text, report, mret, IO_ret.
  cbn [text tmp_files shown]. rewrite Hc. cbn [text tmp_files shown]. rewrite Hw.
  unfold pdf_text, pdf_failure, failure, pages_of.
  destruct (pdfplumber_pages file_bytes) as [pages|e1].
  - rewrite pdfplumber_loop_run. cbn [text tmp_files shown app].
    destruct (page_failure pages) as [e1|]; cbn [raised].
    + destruct (PyPDF2_pages file_bytes) as [pages2|e2].
      * rewrite PyPDF2_loop_run. cbn [text tmp_files shown].
        destruct (page_failure pages2) as [e2|]; cbn [raised].
        -- reflexivity.
        -- destruct (os_unlink p); reflexivity.
      * cbn [text_before_failure]. rewrite app_nil_r. reflexivity.
    + rewrite app_nil_r. destruct (os_unlink p); reflexivity.
  - cbn [text_before_failure app].
    destruct (PyPDF2_pages file_bytes) as [pages2|e2].
    + rewrite PyPDF2_loop_run. cbn [text tmp_files shown app].
      destruct (page_failure pages2) as [e2|]; cbn [raised].
      * reflexivity.
      * destruct (os_unlink p); reflexivity.
    + reflexivity.
Qed.

(** When [pdfplumber] raises after some pages and [PyPDF2] then reads
    the file, the text is not started again: the result is what
    [pdfplumber] had read (each non-empty page and a newline) followed by
    every page [PyPDF2] reads (each page and a newline), stripped.  So the
    pages read before the failure come twice. *)
Theorem pdf_fallback_keeps_partial_text file_bytes s p read e rest pages2 :
  PDF_AVAILABLE = true ->
  tmp_create (lit ".pdf") = Ok p ->
  tmp_write p file_bytes = Ok tt ->
  pdfplumber_pages file_bytes = Ok (map Ok read ++ Raise e :: rest) ->
  PyPDF2_pages file_bytes = Ok (map Ok pages2) ->
  (from_pdf file_bytes s).2
  = Ok (strip (concat (map pdfplumber_line read)
               ++ concat (map PyPDF2_line pages2))).
Proof.
  intros Hav Hc Hw H1 H2.
  rewrite (from_pdf_run file_bytes s p Hav Hc Hw).
  unfold pdf_failure, pdf_text, failure, pages_of. rewrite H1, H2.
  rewrite page_failure_ok. cbn [page_failure].
  rewrite <- (app_nil_r (map Ok pages2)), page_failure_ok. cbn [page_failure].
  rewrite !text_before_failure_ok. cbn [text_before_failure].
  rewrite !app_nil_r.
  destruct (os_unlink p); reflexivity.
Qed.

(** The PDF extractor removes its temporary file when one of the two
    readers gets through the file, and then writes nothing on the screen.
    When both fail, the file stays on disk and the notice is "PDF
    processing failed" with the exception of [PyPDF2]. *)
Theorem pdf_temporary_file file_bytes s p :
  PDF_AVAILABLE = true ->
  tmp_create (lit ".pdf") = Ok p ->
  tmp_write p file_bytes = Ok tt ->
  os_unlink p = Ok tt ->
  p ∉ tmp_files s ->
  let s' := (from_pdf file_bytes s).1 in
  (failure (pdfplumber_pages file_bytes) = None \/
   failure (PyPDF2_pages file_bytes) = None ->
   tmp_files s' = tmp_files s /\ shown s' = shown s) /\
  (forall e1 e2,
     failure (pdfplumber_pages file_bytes) = Some e1 ->
     failure (PyPDF2_pages file_bytes) = Some e2 ->
     tmp_files s' = tmp_files s ∪ {[p]} /\
     shown s' = shown s ++ [Error (lit "PDF processing failed: " ++ e2)]).
Proof.
  intros Hav Hc Hw Hu Hp s'. subst s'.
  rewrite (from_pdf_run file_bytes s p Hav Hc Hw). rewrite Hu.
  unfold pdf_failure. split.
  - intros [H1 | H2].
    + rewrite H1. cbn [fst tmp_files shown].
      split; [apply union_difference_fresh, Hp | reflexivity].
    + rewrite H2. destruct (failure (pdfplumber_pages file_bytes));
        cbn [fst tmp_files shown];
        (split; [apply union_difference_fresh, Hp | reflexivity]).
  - intros e1 e2 H1 H2. rewrite H1, H2. cbn [fst tmp_files shown].
    split; reflexivity.
Qed.

Lemma from_pdf_returns file_bytes s :
  exists s' t, from_pdf file_bytes s = (s', Ok t) /\ strip t = t.
Proof.
  unfold extract_text_from_pdf.
  destruct PDF_AVAILABLE eqn:Hav; cbn [negb].
  2: { exists s, []. split; reflexivity. }
  unfold mbind at 1 2, IO_bind at 1 2, set_text. cbn [text tmp_files shown].
  match goal with
  | |- context [try_catch ?b ?h ?s0] =>
      assert (Htry : exists s1, try_catch b h s0 = (s1, Ok tt))
  end.
  { unfold try_catch.
    match goal with |- context [match ?m with _ => _ end] => destruct m as [s1 [[]|e]] end.
    - eauto.
    - unfold report. eauto. }
  destruct Htry as [s1 ->].
  unfold get_text, mret, IO_ret. cbn.
  eexists _, _. split; [reflexivity | apply strip_idemp].
Qed.
End PdfFacts.

Section DocxFacts.
Import App DocumentProcessor Spec.
Variable Bytes : Type.
Variable tmp_create : str -> outcome str.
Variable tmp_write : str -> Bytes -> outcome unit.
Variable os_unlink : str -> outcome unit.
Variable docx2txt_process : Bytes -> outcome str.
Variable Document_paragraphs : Bytes -> outcome (list str).

Local Abbreviation from_docx :=
  (extract_text_from_docx Bytes tmp_create tmp_write os_unlink
     docx2txt_process Document_paragraphs).

(** The run of the DOCX extractor once the temporary file is written. *)
Lemma from_docx_run file_bytes s p :
  tmp_create (lit ".docx") = Ok p ->
  tmp_write p file_bytes = Ok tt ->
  os_unlink p = Ok tt ->
  exists t ns,
    from_docx file_bytes s
    = (State t ((tmp_files s ∪ {[p]}) ∖ {[p]}) (shown s ++ ns), Ok (strip t)) /\
    match docx2txt_process file_bytes with
    | Raise e => t = [] /\ ns = [Error (lit "DOCX processing failed: " ++ e)]
    | Ok [] =>
        match Document_paragraphs file_bytes with
        | Ok doc => t = join [newline] doc /\ ns = []
        | Raise e => t = [] /\ ns = [Error (lit "DOCX processing failed: " ++ e)]
        end
    | Ok t0 => t = t0 /\ ns = []
    end.
Proof.
  intros Hc Hw Hu.
  unfold extract_text_from_docx.
  unfold mbind, IO_bind, set_text, try_catch, NamedTemporaryFile, lib, unlink,
    get_text, report, mret, IO_ret.
  cbn [text tmp_files shown]. rewrite Hc. cbn [text tmp_files shown]. rewrite Hw.
  destruct (docx2txt_process file_bytes) as [[|c t0]|e]; cbn [text tmp_files shown truthy negb].
  - destruct (Document_paragraphs file_bytes) as [doc|e]; cbn [text tmp_files shown];
      rewrite Hu; cbn [text tmp_files shown].
    + exists (join [newline] doc), []. rewrite app_nil_r. split; [reflexivity | tauto].
    + eexists [], _. split; [reflexivity | tauto].
  - rewrite Hu. cbn [text tmp_files shown].
    exists (c :: t0), []. rewrite app_nil_r. split; [reflexivity | tauto].
  - rewrite Hu. cbn [text tmp_files shown].
    eexists [], _. split; [reflexivity | tauto].
Qed.

(** The DOCX extractor removes its temporary file whatever the two
    readers do, also when they raise. *)
Theorem docx_removes_temporary_file file_bytes s p :
  tmp_create (lit ".docx") = Ok p ->
  tmp_write p file_bytes = Ok tt ->
  os_unlink p = Ok tt ->
  p ∉ tmp_files s ->
  tmp_files (from_docx file_bytes s).1 = tmp_files s.
Proof.
  intros Hc Hw Hu Hp.
  destruct (from_docx_run file_bytes s p Hc Hw Hu) as (t & ns & -> & _).
  cbn [fst tmp_files]. apply union_difference_fresh, Hp.
Qed.

(** The paragraphs of [Document] are read only when [docx2txt] returns
    the empty text: a text that is not empty is returned stripped; on the
    empty text the result is the paragraphs joined by newlines, stripped;
    when [docx2txt] raises there is no second attempt, the result is the
    empty text and the notice is "DOCX processing failed". *)
Theorem docx_second_reader_only_on_empty_text file_bytes s p :
  tmp_create (lit ".docx") = Ok p ->
  tmp_write p file_bytes = Ok tt ->
  os_unlink p = Ok tt ->
  let run := from_docx file_bytes s in
  (forall t, docx2txt_process file_bytes = Ok t -> t <> [] ->
     run.2 = Ok (strip t) /\ shown run.1 = shown s) /\
  (forall doc, docx2txt_process file_bytes = Ok [] ->
     Document_paragraphs file_bytes = Ok doc ->
     run.2 = Ok (strip (join [newline] doc)) /\ shown run.1 = shown s) /\
  (forall e, docx2txt_process file_bytes = Raise e ->
     run.2 = Ok [] /\
     shown run.1 = shown s ++ [Error (lit "DOCX processing failed: " ++ e)]).
Proof.
  intros Hc Hw Hu run. subst run.
  destruct (from_docx_run file_bytes s p Hc Hw Hu) as (t & ns & -> & Hcase).
  cbn [fst snd shown]. split; [|split].
  - intros t0 Ht Hne. rewrite Ht in Hcase. destruct t0 as [|c t0]; [congruence|].
    destruct Hcase as [-> ->]. split; [reflexivity | apply app_nil_r].
  - intros doc Ht Hd. rewrite Ht, Hd in Hcase. destruct Hcase as [-> ->].
    split; [reflexivity | apply app_nil_r].
  - intros e Ht. rewrite Ht in Hcase. destruct Hcase as [-> ->].
    split; reflexivity.
Qed.

Lemma from_docx_returns file_bytes s :
  exists s' t, from_docx file_bytes s = (s', Ok t) /\ strip t = t.
Proof.
  unfold extract_text_from_docx.
  unfold mbind at 1 2, IO_bind at 1 2, set_text. cbn [text tmp_files shown].
  match goal with
  | |- context [try_catch ?b ?h ?s0] =>
      assert (Htry : exists s1, try_catch b h s0 = (s1, Ok tt))
  end.
  { unfold try_catch.
    match goal with |- context [match ?m with _ => _ end] => destruct m as [s1 [[]|e]] end.
    - eauto.
    - unfold report. eauto. }
  destruct Htry as [s1 ->].
  unfold get_text, mret, IO_ret. cbn.
  eexists _, _. split; [reflexivity | apply strip_idemp].
Qed.
End DocxFacts.

Section FileFacts.
Import App DocumentProcessor Spec.
Variable Bytes : Type.
Variable PDF_AVAILABLE : bool.
Variable tmp_create : str -> outcome str.
Variable tmp_write : str -> Bytes -> outcome unit.
Variable os_unlink : str -> outcome unit.
Variable pdfplumber_pages : Bytes -> outcome (list (outcome str)).
Variable PyPDF2_pages : Bytes -> outcome (list (outcome str)).
Variable docx2txt_process : Bytes -> outcome str.
Variable Document_paragraphs : Bytes -> outcome (list str).
Variable decode_utf8 : Bytes -> outcome str.

Local Abbreviation from_pdf :=
  (extract_text_from_pdf Bytes PDF_AVAILABLE tmp_create tmp_write os_unlink
     pdfplumber_pages PyPDF2_pages).
Local Abbreviation from_docx :=
  (extract_text_from_docx Bytes tmp_create tmp_write os_unlink
     docx2txt_process Document_paragraphs).
Local Abbreviation read_file :=
  (extract_text Bytes PDF_AVAILABLE tmp_create tmp_write os_unlink
     pdfplumber_pages PyPDF2_pages docx2txt_process Document_paragraphs
     decode_utf8).

(** When writing the temporary file raises, either extractor leaves the
    file that was created on disk, returns the empty text and reports
    the exception. *)
Theorem failed_write_leaves_file file_bytes s :
  (forall p e,
     PDF_AVAILABLE = true ->
     tmp_create (lit ".pdf") = Ok p ->
     tmp_write p file_bytes = Raise e ->
     from_pdf file_bytes s
     = (State [] (tmp_files s ∪ {[p]})
              (shown s ++ [Error (lit "PDF processing failed: " ++ e)]),
        Ok [])) /\
  (forall p e,
     tmp_create (lit ".docx") = Ok p ->
     tmp_write p file_bytes = Raise e ->
     from_docx file_bytes s
     = (State [] (tmp_files s ∪ {[p]})
              (shown s ++ [Error (lit "File processing failed: " ++ e)]),
        Ok [])).
Proof.
  split.
  - intros p e Hav Hc Hw. unfold extract_text_from_pdf. rewrite Hav. cbn [negb].
    unfold mbind, IO_bind, set_text, try_catch, NamedTemporaryFile, lib, unlink,
      get_text, report, mret, IO_ret.
    cbn [text tmp_files shown]. rewrite Hc. cbn [text tmp_files shown]. rewrite Hw.
    reflexivity.
  - intros p e Hc Hw. unfold extract_text_from_docx.
    unfold mbind, IO_bind, set_text, try_catch, NamedTemporaryFile, lib, unlink,
      get_text, report, mret, IO_ret.
    cbn [text tmp_files shown]. rewrite Hc. cbn [text tmp_files shown]. rewrite Hw.
    reflexivity.
Qed.

(** Reading an uploaded file raises in one case only: the name ends in
    [.txt], in any case of letters, and decoding its bytes raises; the
    exception is the decoder's.  Whatever the libraries do, the text of a
    file of any other kind is returned stripped, and the text of a [.txt]
    file is what the decoder gives, unchanged. *)
Theorem extract_text_outcome file s :
  let ext := file_ext_of (name Bytes file) in
  (ext = lit "txt" ->
   read_file (Some file) s = (s, decode_utf8 (getvalue Bytes file))) /\
  (ext <> lit "txt" ->
   exists s' t, read_file (Some file) s = (s', Ok t) /\ strip t = t).
Proof.
  intros ext. subst ext. unfold extract_text. split.
  - intros ->. reflexivity.
  - intros Hext.
    destruct (decide (file_ext_of (name Bytes file) = lit "pdf")) as [Hpdf|Hpdf].
    { rewrite (bool_decide_eq_true_2 _ Hpdf). apply from_pdf_returns. }
    rewrite (bool_decide_eq_false_2 _ Hpdf).
    destruct (decide (file_ext_of (name Bytes file) ∈ [lit "docx"; lit "doc"]))
      as [Hdoc|Hdoc].
    { rewrite (bool_decide_eq_true_2 _ Hdoc). apply from_docx_returns. }
    rewrite (bool_decide_eq_false_2 _ Hdoc).
    rewrite (bool_decide_eq_false_2 _ Hext).
    eexists _, []. split; reflexivity.
Qed.
End FileFacts.

Section FileNames.
Import DocumentProcessor.

Lemma split_go_nonempty p acc s : split_go p acc s <> [].
Proof.
  revert acc. induction s as [|c s IH]; intros acc; simpl; [discriminate|].
  destruct (p c); [discriminate | apply IH].
Qed.

Lemma last_cons_nonempty {A} (x : A) l d : l <> [] -> List.last (x :: l) d = List.last l d.
Proof. destruct l; [congruence | reflexivity]. Qed.

Lemma last_split_go p s1 c s2 :
  p c = true -> forallb (fun c => negb (p c)) s2 = true ->
  forall acc, List.last (split_go p acc (s1 ++ c :: s2)) [] = s2.
Proof.
  intros Hc Hs2. induction s1 as [|x s1 IH]; intros acc; simpl.
  - rewrite Hc. rewrite (split_go_one_field p s2 [] Hs2). reflexivity.
  - destruct (p x); [|apply IH].
    rewrite last_cons_nonempty by apply split_go_nonempty. apply IH.
Qed.

Lemma no_dot_forallb s :
  "."%char ∉ s -> forallb (fun c => negb (bool_decide (c = "."%char))) s = true.
Proof.
  intros Hs. apply forallb_forall. intros c Hc. apply negb_true_iff.
  apply bool_decide_eq_false_2. intros ->. apply Hs. apply list_elem_of_In, Hc.
Qed.

(** The kind of a file is read off its name alone: it is what follows
    the last dot, in lowercase, and the whole name in lowercase when the
    name has no dot. *)
Theorem file_ext_after_last_dot stem ext :
  "."%char ∉ ext ->
  file_ext_of (stem ++ "."%char :: ext) = lower ext /\
  file_ext_of ext = lower ext.
Proof.
  intros Hext. apply no_dot_forallb in Hext. unfold file_ext_of, split_char. split.
  - rewrite last_split_go; [reflexivity | apply bool_decide_eq_true_2; reflexivity
                           | exact Hext].
  - rewrite (split_go_one_field _ ext [] Hext). reflexivity.
Qed.
End FileNames.

(** ** The pages with the file reader *)

Section WiredFileFacts.
Context `{PySet}.
Import App DocumentProcessor Spec.
Variable md5 : str -> str.
Variable now : str.
Variable Bytes : Type.
Variable PDF_AVAILABLE : bool.
Variable tmp_create : str -> outcome str.
Variable tmp_write : str -> Bytes -> outcome unit.
Variable os_unlink : str -> outcome unit.
Variable pdfplumber_pages : Bytes -> outcome (list (outcome str)).
Variable PyPDF2_pages : Bytes -> outcome (list (outcome str)).
Variable docx2txt_process : Bytes -> outcome str.
Variable Document_paragraphs : Bytes -> outcome (list str).
Variable decode_utf8 : Bytes -> outcome str.
Variable disk : gset str.

Local Abbreviation read_call :=
  (Pages.extract_text Bytes PDF_AVAILABLE tmp_create tmp_write os_unlink
     pdfplumber_pages PyPDF2_pages docx2txt_process Document_paragraphs
     decode_utf8 disk).
Local Abbreviation resume_run :=
  (Pages.upload_resume md5 now Bytes PDF_AVAILABLE tmp_create tmp_write os_unlink
     pdfplumber_pages PyPDF2_pages docx2txt_process Document_paragraphs
     decode_utf8 disk).
Local Abbreviation job_run :=
  (Pages.upload_job_description md5 now Bytes PDF_AVAILABLE tmp_create tmp_write
     os_unlink pdfplumber_pages PyPDF2_pages docx2txt_process Document_paragraphs
     decode_utf8 disk).

Ltac pick := first [reflexivity | left; pick | right; pick].

Lemma read_call_txt file :
  file_ext_of (name Bytes file) = lit "txt" ->
  read_call file = ([], decode_utf8 (getvalue Bytes file)).
Proof.
  intros Hext. unfold Pages.extract_text, extract_text_call, extract_text.
  rewrite Hext. reflexivity.
Qed.

Lemma read_call_unsupported file :
  file_ext_of (name Bytes file) ∉ [lit "pdf"; lit "docx"; lit "doc"; lit "txt"] ->
  read_call file
  = ([Error (lit "Unsupported file format: " ++ file_ext_of (name Bytes file))],
     Ok []).
Proof.
  intros Hext. unfold Pages.extract_text, extract_text_call, extract_text.
  rewrite !bool_decide_eq_false_2; [reflexivity | | |].
  all: intros Hx; apply Hext;
    first
      [ rewrite Hx; repeat first [apply list_elem_of_here | apply list_elem_of_further]
      | apply list_elem_of_further;
        apply elem_of_cons in Hx as [-> | Hx]; [apply list_elem_of_here|];
        apply list_elem_of_further;
        apply elem_of_cons in Hx as [-> | Hx]; [apply list_elem_of_here | inversion Hx] ].
Qed.

Lemma resume_run_read display idx file pg job :
  job_descriptions (session_state pg) !! idx = Some job ->
  resume_run display idx (Some file) true pg
  = try_except
      (resume_text ← emit (read_call file);
       if negb (truthy resume_text) then
         st_error (lit "Could not extract text from the resume. Please try a different file.")
       else
         resume ← call (Ok (ResumeParser.parse md5 now resume_text));
         evaluation ← call (Ok (RelevanceEvaluator.evaluate resume job));
         append_evaluation evaluation;;
         st_success (lit "Resume evaluated successfully!");;
         call (display evaluation resume job))
      (fun e => st_error (lit "Error processing resume: " ++ e)) pg.
Proof.
  intros Hjob. unfold Pages.upload_resume, resume_page, App.upload_resume.
  unfold mbind at 1, M_bind at 1, get_session.
  destruct (job_descriptions (session_state pg)) as [|j0 js] eqn:Hjs;
    [rewrite lookup_nil in Hjob; discriminate|].
  cbn [truthy negb]. rewrite Hjob. reflexivity.
Qed.

(** A file of a kind that is not read: the resume page shows
    "Unsupported file format" with the extension and then "Could not
    extract text from the resume", the job page shows the former and then
    asks for the company name or for a text; both leave the session as it
    was. *)
Theorem unsupported_file_creates_nothing file :
  let ext := file_ext_of (name Bytes file) in
  ext ∉ [lit "pdf"; lit "docx"; lit "doc"; lit "txt"] ->
  (forall display idx pg job,
     job_descriptions (session_state pg) !! idx = Some job ->
     resume_run display idx (Some file) true pg
     = (Page (session_state pg)
             (notices pg ++
              [Error (lit "Unsupported file format: " ++ ext);
               Error (lit "Could not extract text from the resume. Please try a different file.")]),
        Ok tt)) /\
  (forall render company location pg,
     job_run render company location (Pages.Upload_file Bytes (Some file)) true pg
     = (Page (session_state pg)
             (notices pg ++
              [Error (lit "Unsupported file format: " ++ ext);
               Error (if truthy company
                      then lit "Please provide job description text or upload a file!"
                      else lit "Company name is required!")]),
        Ok tt)).
Proof.
  intros ext Hext. subst ext. split.
  - intros display idx pg job Hjob.
    rewrite (resume_run_read display idx file pg job Hjob).
    unfold try_except, mbind, M_bind, emit. rewrite (read_call_unsupported file Hext).
    cbn. rewrite <- app_assoc. reflexivity.
  - intros render company location pg.
    unfold Pages.upload_job_description, Pages.job_description_text.
    unfold mbind, M_bind, emit. rewrite (read_call_unsupported file Hext).
    cbn. unfold job_page, App.upload_job_description.
    destruct company as [|c company]; cbn; unfold st_error, show; cbn;
      rewrite <- ?app_assoc; reflexivity.
Qed.

(** A [.txt] file whose bytes cannot be decoded: the resume page
    catches the exception, shows "Error processing resume" with its
    message and leaves the session as it was; the job page does not
    catch it: the exception leaves the page, whether or not the button
    was pressed, and the session is as it was. *)
Theorem undecodable_text_file file e :
  file_ext_of (name Bytes file) = lit "txt" ->
  decode_utf8 (getvalue Bytes file) = Raise e ->
  (forall display idx pg job,
     job_descriptions (session_state pg) !! idx = Some job ->
     resume_run display idx (Some file) true pg
     = (Page (session_state pg)
             (notices pg ++ [Error (lit "Error processing resume: " ++ e)]),
        Ok tt)) /\
  (forall render company location clicked pg,
     job_run render company location (Pages.Upload_file Bytes (Some file)) clicked pg
     = (Page (session_state pg) (notices pg), Raise e)).
Proof.
  intros Hext Hdec. split.
  - intros display idx pg job Hjob.
    rewrite (resume_run_read display idx file pg job Hjob).
    unfold try_except, mbind, M_bind, emit. rewrite (read_call_txt file Hext), Hdec.
    cbn. rewrite app_nil_r. reflexivity.
  - intros render company location clicked pg.
    unfold Pages.upload_job_description, Pages.job_description_text.
    unfold mbind, M_bind, emit. rewrite (read_call_txt file Hext), Hdec.
    cbn. rewrite app_nil_r. reflexivity.
Qed.

(** A [.txt] file that decodes to a text that is not empty is evaluated
    as it is, without stripping: the resume page adds to the session the
    evaluation of the resume parsed from the decoded text against the
    selected job, and shows the success notice. *)
Theorem text_file_is_evaluated file text display idx pg job :
  file_ext_of (name Bytes file) = lit "txt" ->
  decode_utf8 (getvalue Bytes file) = Ok text ->
  text <> [] ->
  job_descriptions (session_state pg) !! idx = Some job ->
  let ev := RelevanceEvaluator.evaluate (ResumeParser.parse md5 now text) job in
  let pg' := (resume_run display idx (Some file) true pg).1 in
  session_state pg'
  = Session (job_descriptions (session_state pg))
            (evaluations (session_state pg) ++ [ev]) /\
  Success (lit "Resume evaluated successfully!") ∈ notices pg'.
Proof.
  intros Hext Hdec Htext Hjob ev pg'. subst ev pg'.
  rewrite (resume_run_read display idx file pg job Hjob).
  unfold try_except, mbind, M_bind, emit. rewrite (read_call_txt file Hext), Hdec.
  destruct text as [|c text]; [congruence|].
  cbn. destruct (display _ _ _); cbn; (split; [reflexivity|]);
    rewrite ?elem_of_app, ?elem_of_cons; pick.
Qed.
End WiredFileFacts.

Section FileExamples.
Import App DocumentProcessor Spec Examples.

Lemma pdf_fallback_keeps_partial_text_witness :
  (extract_text_from_pdf str true tmp_create_ok tmp_write_ok os_unlink_ok
     pdfplumber_stops PyPDF2_reads resume_text reader_start).2
  = Ok (strip (concat (map pdfplumber_line [lit "Ada Lovelace"])
               ++ concat (map PyPDF2_line [lit "Ada Lovelace"; lit "python sql"]))).
Proof.
  apply (pdf_fallback_keeps_partial_text str true tmp_create_ok tmp_write_ok
           os_unlink_ok pdfplumber_stops PyPDF2_reads resume_text reader_start
           (lit "/tmp/tmpk3v9x2.pdf") [lit "Ada Lovelace"]
           (lit "unpack requires a buffer of 4 bytes") []
           [lit "Ada Lovelace"; lit "python sql"]);
    reflexivity.
Defined.

Lemma pdf_temporary_file_witness :
  lit "/tmp/tmpk3v9x2.pdf"
  ∈ tmp_files (extract_text_from_pdf str true tmp_create_ok tmp_write_ok
                 os_unlink_ok pdfplumber_stops pages_raise resume_text
                 reader_start).1.
Proof.
  destruct (pdf_temporary_file str true tmp_create_ok tmp_write_ok os_unlink_ok
              pdfplumber_stops pages_raise resume_text reader_start
              (lit "/tmp/tmpk3v9x2.pdf")) as [_ Hboth];
    [reflexivity | reflexivity | reflexivity | reflexivity
     | apply not_elem_of_empty |].
  destruct (Hboth (lit "unpack requires a buffer of 4 bytes")
                  (lit "No /Root object")) as [Hfiles _];
    [reflexivity | reflexivity |].
  rewrite Hfiles. apply elem_of_union_r, elem_of_singleton. reflexivity.
Defined.

Lemma docx_removes_temporary_file_witness :
  tmp_files (extract_text_from_docx str tmp_create_ok tmp_write_ok os_unlink_ok
               docx2txt_raises paragraphs_read resume_text reader_start).1
  = ∅.
Proof.
  apply (docx_removes_temporary_file str tmp_create_ok tmp_write_ok os_unlink_ok
           docx2txt_raises paragraphs_read resume_text reader_start
           (lit "/tmp/tmpk3v9x2.docx"));
    [reflexivity | reflexivity | reflexivity | apply not_elem_of_empty].
Defined.

Lemma docx_second_reader_only_on_empty_text_witness :
  (extract_text_from_docx str tmp_create_ok tmp_write_ok os_unlink_ok
     docx2txt_empty paragraphs_read resume_text reader_start).2
  = Ok (strip (join [newline] [lit "Ada Lovelace"; lit "python sql"])).
Proof.
  destruct (docx_second_reader_only_on_empty_text str tmp_create_ok tmp_write_ok
              os_unlink_ok docx2txt_empty paragraphs_read resume_text reader_start
              (lit "/tmp/tmpk3v9x2.docx")) as (_ & Hempty & _);
    [reflexivity | reflexivity | reflexivity |].
  destruct (Hempty [lit "Ada Lovelace"; lit "python sql"]) as [Hrun _];
    [reflexivity | reflexivity | exact Hrun].
Defined.

Lemma failed_write_leaves_file_witness :
  tmp_files (extract_text_from_docx str tmp_create_ok tmp_write_raises os_unlink_ok
               docx2txt_empty paragraphs_read resume_text reader_start).1
  = ∅ ∪ {[lit "/tmp/tmpk3v9x2.docx"]}.
Proof.
  destruct (failed_write_leaves_file str true tmp_create_ok tmp_write_raises
              os_unlink_ok pdfplumber_stops PyPDF2_reads docx2txt_empty
              paragraphs_read resume_text reader_start) as [_ Hdocx].
  rewrite (Hdocx (lit "/tmp/tmpk3v9x2.docx") (lit "No space left on device"));
    reflexivity.
Defined.

Lemma extract_text_outcome_witness :
  extract_text str true tmp_create_ok tmp_write_ok os_unlink_ok
    pdfplumber_stops PyPDF2_reads docx2txt_empty paragraphs_read decode_raises
    (Some resume_file) reader_start
  = (reader_start, Raise (lit "'utf-8' codec can't decode byte 0xff in position 0")).
Proof.
  destruct (extract_text_outcome str true tmp_create_ok tmp_write_ok os_unlink_ok
              pdfplumber_stops PyPDF2_reads docx2txt_empty paragraphs_read
              decode_raises resume_file reader_start) as [Htxt _].
  rewrite Htxt; reflexivity.
Defined.

Lemma file_ext_after_last_dot_witness :
  file_ext_of (lit "ada.lovelace.TXT") = lit "txt" /\
  file_ext_of (lit "TXT") = lit "txt".
Proof.
  apply (file_ext_after_last_dot (lit "ada.lovelace") (lit "TXT")).
  apply (bool_decide_unpack _). vm_compute. exact I.
Defined.
End FileExamples.

Section WiredFileExamples.
Import App DocumentProcessor Spec Examples.

Lemma unsupported_file_creates_nothing_witness :
  Pages.upload_resume toy_digest (lit "2024-01-02") str true tmp_create_ok
    tmp_write_ok os_unlink_ok pdfplumber_stops PyPDF2_reads docx2txt_empty
    paragraphs_read decode_ok ∅ render_ok 0 (Some rtf_file) true page_one_job
  = (Page (session_state page_one_job)
          [Error (lit "Unsupported file format: rtf");
           Error (lit "Could not extract text from the resume. Please try a different file.")],
     Ok tt).
Proof.
  destruct (unsupported_file_creates_nothing toy_digest (lit "2024-01-02") str true
              tmp_create_ok tmp_write_ok os_unlink_ok pdfplumber_stops PyPDF2_reads
              docx2txt_empty paragraphs_read decode_ok ∅ rtf_file) as [Hresume _].
  { apply (bool_decide_unpack _). vm_compute. exact I. }
  rewrite (Hresume render_ok 0 page_one_job job_backend); reflexivity.
Defined.

Lemma undecodable_text_file_witness :
  Pages.upload_job_description toy_digest (lit "2024-01-02") str true tmp_create_ok
    tmp_write_ok os_unlink_ok pdfplumber_stops PyPDF2_reads docx2txt_empty
    paragraphs_read decode_raises ∅ render_job_ok (lit "Acme") (lit "Pune")
    (Pages.Upload_file str (Some resume_file)) false page_one_job
  = (page_one_job, Raise (lit "'utf-8' codec can't decode byte 0xff in position 0")).
Proof.
  destruct (undecodable_text_file toy_digest (lit "2024-01-02") str true
              tmp_create_ok tmp_write_ok os_unlink_ok pdfplumber_stops PyPDF2_reads
              docx2txt_empty paragraphs_read decode_raises ∅ resume_file
              (lit "'utf-8' codec can't decode byte 0xff in position 0"))
    as [_ Hjob]; [reflexivity | reflexivity |].
  rewrite Hjob. reflexivity.
Defined.

Lemma text_file_is_evaluated_witness :
  length (evaluations (session_state
    (Pages.upload_resume toy_digest (lit "2024-01-02") str true tmp_create_ok
       tmp_write_ok os_unlink_ok pdfplumber_stops PyPDF2_reads docx2txt_empty
       paragraphs_read decode_ok ∅ render_ok 0 (Some resume_file) true
       page_one_job).1)) = 1.
Proof.
  destruct (text_file_is_evaluated toy_digest (lit "2024-01-02") str true
              tmp_create_ok tmp_write_ok os_unlink_ok pdfplumber_stops PyPDF2_reads
              docx2txt_empty paragraphs_read decode_ok ∅ resume_file resume_text
              render_ok 0 page_one_job job_backend) as [Hsession _];
    [reflexivity | reflexivity | discriminate | reflexivity |].
  rewrite Hsession. reflexivity.
Defined.
End WiredFileExamples.

(** ** Parsing and scoring together *)

Section ParsedJobScores.
Local Open Scope Q_scope.
Context `{PySet}.
Import Spec.

End ParsedJobScores.

Section VocabularySkills.
Context `{PySet}.
Import Spec.

Lemma add_section_skills_keeps skills extracted s :
  s ∈ skills -> s ∈ ResumeParser.add_section_skills skills extracted.
Proof.
  unfold ResumeParser.add_section_skills.
  revert skills. induction extracted as [|x xs IH]; intros skills Hs; simpl.
  - exact Hs.
  - apply IH. destruct (_ && _); [|exact Hs].
    apply elem_of_app. left. exact Hs.
Qed.

Lemma vocabulary_skill_extracted text pre w post :
  lower w ∈ ResumeParser.tech_skills ->
  text = pre ++ w ++ post ->
  lower w ∈ ResumeParser._extract_skills text.
Proof.
  intros Hvoc ->. unfold ResumeParser._extract_skills.
  apply elem_of_list_of_set, elem_of_set_of.
  assert (Hin : lower w ∈ List.filter
            (fun skill => contains skill (lower (pre ++ w ++ post)))
            ResumeParser.tech_skills).
  { apply list_elem_of_In, filter_In. split; [apply list_elem_of_In, Hvoc|].
    unfold lower. rewrite !map_app. apply contains_app. }
  destruct (Re.search _ _); [apply add_section_skills_keeps|]; exact Hin.
Qed.

(** A skill of the fixed vocabulary that occurs anywhere in the cleaned
    text of a resume, in any case of letters, is among the skills of the
    parsed resume; so against any job that lists it as a must-have skill,
    in any case, it is matched and never reported missing. *)
Theorem vocabulary_skill_never_missing (md5 : str -> str) (now text : str)
    pre w post j :
  let r := ResumeParser.parse md5 now text in
  lower w ∈ ResumeParser.tech_skills ->
  Resume.raw_text r = pre ++ w ++ post ->
  lower w ∈ Resume.skills r /\
  (lower w ∈ map lower (JobDescription.must_have_skills j) ->
   lower w ∈ EvaluationResult.matched_skills (RelevanceEvaluator.evaluate r j) /\
   lower w ∉ EvaluationResult.missing_skills (RelevanceEvaluator.evaluate r j)).
Proof.
  intros r Hvoc Htext.
  assert (Hskill : lower w ∈ Resume.skills r).
  { subst r. unfold ResumeParser.parse in *. cbn [Resume.skills Resume.raw_text] in *.
    apply (vocabulary_skill_extracted _ pre w post Hvoc Htext). }
  split; [exact Hskill|]. intros Hmust.
  assert (Hlow : lower w ∈ map lower (Resume.skills r)).
  { apply list_elem_of_fmap. exists (lower w). split; [|exact Hskill].
    pose proof wf_tech_skills as Hwf. rewrite Forall_forall in Hwf.
    symmetry. apply (Hwf _ Hvoc). }
  unfold RelevanceEvaluator.evaluate.
  cbn [EvaluationResult.matched_skills EvaluationResult.missing_skills].
  rewrite !elem_of_list_of_set, elem_of_union, elem_of_intersection,
          elem_of_difference, !elem_of_set_of.
  split; [left; split; assumption|]. intros [_ Hnot]. exact (Hnot Hlow).
Qed.
End VocabularySkills.

Section VocabularySkillsExamples.
Import Spec Examples.

Lemma vocabulary_skill_never_missing_witness :
  lower (lit "python")
  ∈ Resume.skills (ResumeParser.parse toy_digest (lit "2024-01-02") resume_text).
Proof.
  refine (proj1 (vocabulary_skill_never_missing toy_digest (lit "2024-01-02")
                   resume_text (lit "Ada Lovelace ada@example.com ")
                   (lit "python") (lit " sql") job_backend _ _)).
  - apply (bool_decide_unpack _). vm_compute. exact I.
  - vm_compute. reflexivity.
Defined.
End VocabularySkillsExamples.

(** ** The email and the sections of a parsed resume *)

Section EmailShape.
Import Re Spec.

Lemma tokens_first_match r rest :
  forall skip pre m ms,
    omap (fun t => match t with inl _ => None | inr m => Some (group0 m) end)
         (tokens r skip pre rest) = m :: ms ->
    exists pre' rest' mo,
      rev pre ++ rest = rev pre' ++ rest' /\
      match_at r pre' rest' = Some mo /\ group0 mo = m.
Proof.
  induction rest as [|c rest IH]; intros skip pre m ms Hf.
  - destruct skip as [|k]; simpl in Hf; [|discriminate].
    destruct (match_at r pre []) as [mo|] eqn:Hm; simpl in Hf; [|discriminate].
    injection Hf as <- _. exists pre, [], mo. repeat split; assumption.
  - destruct skip as [|k]; simpl in Hf.
    + destruct (match_at r pre (c :: rest)) as [mo|] eqn:Hm.
      * simpl in Hf. injection Hf as <- _.
        exists pre, (c :: rest), mo. repeat split; assumption.
      * simpl in Hf. apply IH in Hf as (pre' & rest' & mo & Heq & Hm' & Hg).
        exists pre', rest', mo. split; [|split; assumption].
        rewrite <- Heq. simpl. rewrite <- app_assoc. reflexivity.
    + apply IH in Hf as (pre' & rest' & mo & Heq & Hm' & Hg).
      exists pre', rest', mo. split; [|split; assumption].
      rewrite <- Heq. simpl. rewrite <- app_assoc. reflexivity.
Qed.

Lemma run_wordb_inv a b : run WordB a b -> b = a.
Proof. inversion 1; reflexivity. Qed.

Lemma run_plus_class p a b :
  run (Plus true (Chr p)) a b ->
  exists s, s <> [] /\ forallb p s = true /\ spans a b s.
Proof.
  unfold Plus. intros Hrun.
  apply run_seq_inv in Hrun as (a1 & Hc & Hstar).
  apply run_chr_inv in Hc as (c & Hpc & Hspc & _).
  apply run_star_class in Hstar as (s & Hs & Hsps & _).
  exists (c :: s). split; [discriminate|]. split; [simpl; rewrite Hpc; exact Hs|].
  apply (spans_trans a a1 b [c] s); assumption.
Qed.

Lemma run_email a b :
  run ResumeParser.email_pattern a b ->
  exists local domain tld,
    spans a b (local ++ "@"%char :: domain ++ "."%char :: tld) /\
    local <> [] /\ forallb email_local_char local = true /\
    domain <> [] /\ forallb email_domain_char domain = true /\
    2 <= length tld /\ forallb email_tld_char tld = true.
Proof.
  unfold ResumeParser.email_pattern. cbv zeta. cbn [Patterns.rep]. intros Hrun.
  apply run_seq_inv in Hrun as (a0 & Hb0 & Hrun). apply run_wordb_inv in Hb0 as ->.
  apply run_seq_inv in Hrun as (a1 & Hlocal & Hrun).
  apply run_plus_class in Hlocal as (local & Hl1 & Hl2 & Hl3).
  apply run_seq_inv in Hrun as (a2 & Hat & Hrun).
  apply run_chr_inv in Hat as (x & Hx & Hspx & _).
  apply bool_decide_eq_true in Hx. subst x.
  apply run_seq_inv in Hrun as (a3 & Hdomain & Hrun).
  apply run_plus_class in Hdomain as (domain & Hd1 & Hd2 & Hd3).
  apply run_seq_inv in Hrun as (a4 & Hdot & Hrun).
  apply run_chr_inv in Hdot as (y & Hy & Hspy & _).
  apply bool_decide_eq_true in Hy. subst y.
  apply run_seq_inv in Hrun as (a5 & Ht1 & Hrun).
  apply run_chr_inv in Ht1 as (t1 & Ht1 & Hspt1 & _).
  apply run_seq_inv in Hrun as (a6 & Ht2 & Hrun).
  apply run_chr_inv in Ht2 as (t2 & Ht2 & Hspt2 & _).
  apply run_seq_inv in Hrun as (a7 & Hts & Hb1). apply run_wordb_inv in Hb1 as ->.
  apply run_star_class in Hts as (ts & Hts & Hspts & _).
  exists local, domain, (t1 :: t2 :: ts).
  split; [|split; [exact Hl1|split; [exact Hl2|split; [exact Hd1|split; [exact Hd2|]]]]].
  - pose proof (spans_trans _ _ _ _ _ Hspt2 Hspts) as H1.
    pose proof (spans_trans _ _ _ _ _ Hspt1 H1) as H2.
    pose proof (spans_trans _ _ _ _ _ Hspy H2) as H3.
    pose proof (spans_trans _ _ _ _ _ Hd3 H3) as H4.
    pose proof (spans_trans _ _ _ _ _ Hspx H4) as H5.
    pose proof (spans_trans _ _ _ _ _ Hl3 H5) as H6.
    exact H6.
  - split; [simpl; lia|]. simpl.
    unfold email_tld_char at 1 2. rewrite Ht1, Ht2. exact Hts.
Qed.

Lemma email_has_at local domain tld text pre post :
  text = pre ++ (local ++ "@"%char :: domain ++ "."%char :: tld) ++ post ->
  "@"%char ∈ text.
Proof.
  intros ->. rewrite !elem_of_app, elem_of_cons. right. left. right. left. reflexivity.
Qed.

(** The email of a resume is the text "No email found" or a stretch of
    the text of the shape local@domain.tld: the local part is not empty
    and made of letters, digits and the characters . _ % + -, the domain is
    not empty and made of letters, digits, dots and hyphens, and the last
    part has at least two characters, each a letter or a vertical bar.  A
    text without the character @ gives "No email found". *)
Theorem email_shape text :
  let email := ResumeParser._extract_email text in
  (email = lit "No email found" \/
   exists pre local domain tld post,
     text = pre ++ email ++ post /\
     email = local ++ "@"%char :: domain ++ "."%char :: tld /\
     local <> [] /\ forallb email_local_char local = true /\
     domain <> [] /\ forallb email_domain_char domain = true /\
     2 <= length tld /\ forallb email_tld_char tld = true) /\
  ("@"%char ∉ text -> email = lit "No email found").
Proof.
  cbv zeta. unfold ResumeParser._extract_email.
  destruct (findall ResumeParser.email_pattern text) as [|m ms] eqn:Hf.
  { split; [left; reflexivity | reflexivity]. }
  unfold findall in Hf.
  apply tokens_first_match in Hf as (pre' & rest' & mo & Heq & Hm & Hg).
  apply match_at_sound in Hm as (b & Hrun & Hmo).
  apply run_email in Hrun as (local & domain & tld & Hsp & Hl1 & Hl2 & Hd1 & Hd2 & Ht1 & Ht2).
  assert (Hm : m = local ++ "@"%char :: domain ++ "."%char :: tld).
  { rewrite <- Hg, Hmo. cbn [group0]. apply consumed_spans, Hsp. }
  assert (Htext : text = rev pre' ++ m ++ after b).
  { simpl in Heq. rewrite Heq. f_equal. destruct Hsp as [Ha _]. simpl in Ha.
    rewrite Hm. exact Ha. }
  split.
  - right. exists (rev pre'), local, domain, tld, (after b).
    repeat split; assumption.
  - intros Hno. exfalso. apply Hno.
    rewrite Hm in Htext. apply (email_has_at _ _ _ _ _ _ Htext).
Qed.
End EmailShape.

Section EmailExamples.
Import Spec.

Lemma email_shape_witness :
  ResumeParser._extract_email (lit "Ada Lovelace, ada at example dot com")
  = lit "No email found".
Proof.
  refine (proj2 (email_shape (lit "Ada Lovelace, ada at example dot com")) _).
  apply (bool_decide_unpack _). vm_compute. exact I.
Defined.
End EmailExamples.

Section ParsedSections.
Context `{PySet}.
Import Re Spec.



End ParsedSections.
